(** * open-vtt: a shallow embedding of [open-vtt.py] and its specification

    The development follows the source file section by section: Python
    values and text, the configuration merge ([deep_update]), process
    invocation ([run_command]), the timestamp formatter ([to_vtt_time]), the
    request-path translation of the file server, the subtitle acquirer, the
    size reducer ([downsample_video]), the response scan of [call_gemini] and
    the output-path selection ([get_output_path]); then the cost estimate,
    the API key, the check mode, the stream scan of [ffprobe_check], the
    command line, the self-test and the conversion as a whole
    ([cmd_convert]). What the program cannot be followed into, the probe
    of a video and the call to Gemini, enters [cmd_convert] as a
    parameter.

    Conventions.
    - A Python [str] is a list of Unicode code points ([list N]); indices
      and lengths count code points, as in Python.
    - A Python [float] is a binary64 value, Rocq's primitive [float]; a
      Python [int] is a [Z].
    - A Python exception is a value of [exn]; a function that may raise
      returns a [result].
    - The file system is a finite map from path text to the bytes of the
      file; the operating system, the external programs and the optional
      libraries are the fields of the class [Platform]. *)

From stdpp Require Import gmap strings list.
From Stdlib Require Import ZArith Floats DecimalZ.

Set Warnings "-inexact-float,-register-all".
Open Scope Z_scope.

(** ** Text *)

Abbreviation str := (list N).

(** A literal: the code points of an ASCII string. *)
Definition lit (s : string) : str :=
  (λ a, Ascii.N_of_ascii a) <$> String.list_ascii_of_string s.
Arguments lit : simpl never.

(** [s.startswith(p)] *)
Fixpoint startswith (p s : str) : bool :=
  match p, s with
  | [], _ => true
  | _ :: _, [] => false
  | a :: p', b :: s' => (a =? b)%N && startswith p' s'
  end.

(** [s.endswith(p)] *)
Definition endswith (p s : str) : bool := startswith (reverse p) (reverse s).

(** A slice bound, as Python normalises it against the length [n]. *)
Definition slice_index (n i : Z) : Z :=
  if i <? 0 then Z.max 0 (i + n) else Z.min i n.

(** [s[a:b]] and [s[a:]] *)
Definition slice (s : str) (a b : Z) : str :=
  let n := Z.of_nat (length s) in
  let a' := slice_index n a in
  let b' := slice_index n b in
  take (Z.to_nat (b' - a')) (drop (Z.to_nat a') s).

Definition slice_from (s : str) (a : Z) : str :=
  drop (Z.to_nat (slice_index (Z.of_nat (length s)) a)) s.

(** [s.find(sub, start)]: the lowest index at or after [start] where [sub]
    occurs, [-1] when there is none. [find_at] scans the text that starts
    at index [i]. *)
Fixpoint find_at (sub s : str) (i : Z) : Z :=
  if startswith sub s then i
  else
    match s with
    | [] => -1
    | _ :: s' => find_at sub s' (i + 1)
    end.

Definition find (sub s : str) (start : Z) : Z :=
  let n := Z.of_nat (length s) in
  if n <? start then -1
  else
    let start' := slice_index n start in
    find_at sub (drop (Z.to_nat start') s) start'.

(** [sub in s] *)
Definition contains (sub s : str) : bool := negb (find sub s 0 =? -1).

(** [c.isspace()] for a code point, as in CPython's Unicode database. *)
Definition isspace (c : N) : bool :=
  ((9 <=? c) && (c <=? 13) || (28 <=? c) && (c <=? 32) ||
   (c =? 133) || (c =? 160) || (c =? 5760) ||
   (8192 <=? c) && (c <=? 8202) || (c =? 8232) || (c =? 8233) ||
   (c =? 8239) || (c =? 8287) || (c =? 12288))%N.

(** [s.lstrip()], [s.rstrip()], [s.strip()] *)
Fixpoint lstrip (s : str) : str :=
  match s with
  | c :: s' => if isspace c then lstrip s' else s
  | [] => []
  end.

Definition rstrip (s : str) : str := reverse (lstrip (reverse s)).

Definition strip (s : str) : str := rstrip (lstrip s).

(** [s.lstrip(chars)] for a single character [c] *)
Fixpoint lstrip_char (c : N) (s : str) : str :=
  match s with
  | a :: s' => if (a =? c)%N then lstrip_char c s' else s
  | [] => []
  end.

(** [s.split(sep)] for a single-character separator *)
Fixpoint split (sep : N) (s : str) : list str :=
  match s with
  | [] => [[]]
  | c :: s' =>
      if (c =? sep)%N then [] :: split sep s'
      else
        match split sep s' with
        | w :: ws => (c :: w) :: ws
        | [] => [[c]]
        end
  end.

(** [s.replace(old, new)] for a non-empty [old]: every non-overlapping
    occurrence, left to right. [skip] counts the characters of a matched
    occurrence that are still to be passed over. *)
Fixpoint replace_from (old new : str) (skip : nat) (s : str) : str :=
  match s with
  | [] => []
  | c :: s' =>
      match skip with
      | S k => replace_from old new k s'
      | O =>
          if startswith old s
          then new ++ replace_from old new (length old - 1) s'
          else c :: replace_from old new 0 s'
      end
  end.

Definition replace (old new s : str) : str := replace_from old new 0 s.

(** [text.encode("utf-8")]; a surrogate has no encoding
    ([UnicodeEncodeError] is a [ValueError]). *)
Definition utf8_char (c : N) : option (list N) :=
  (if c <? 128 then Some [c]
   else if c <? 2048 then Some [192 + c / 64; 128 + c mod 64]
   else if (55296 <=? c) && (c <? 57344) then None
   else if c <? 65536
        then Some [224 + c / 4096; 128 + (c / 64) mod 64; 128 + c mod 64]
   else if c <? 1114112
        then Some [240 + c / 262144; 128 + (c / 4096) mod 64;
                   128 + (c / 64) mod 64; 128 + c mod 64]
   else None)%N.

Fixpoint utf8 (s : str) : option (list N) :=
  match s with
  | [] => Some []
  | c :: s' =>
      match utf8_char c, utf8 s' with
      | Some b, Some bs => Some (b ++ bs)
      | _, _ => None
      end
  end.

(** ** Exceptions *)

Inductive exn : Set :=
  | ValueError
  | OverflowError
  | IndexError
  | AttributeError
  | FileNotFoundError
  | TimeoutExpired
  | OSError
  | SystemExit (code : Z).

Inductive result (A : Type) : Type :=
  | Ok (a : A)
  | Raise (e : exn).
Arguments Ok {A} a.
Arguments Raise {A} e.

Global Instance result_ret : MRet result := λ A a, Ok a.
Global Instance result_bind : MBind result := λ A B k r,
  match r with
  | Ok a => k a
  | Raise e => Raise e
  end.

(** ** Integers as text *)

Fixpoint digits (d : Decimal.uint) : str :=
  match d with
  | Decimal.Nil => []
  | Decimal.D0 d => 48%N :: digits d
  | Decimal.D1 d => 49%N :: digits d
  | Decimal.D2 d => 50%N :: digits d
  | Decimal.D3 d => 51%N :: digits d
  | Decimal.D4 d => 52%N :: digits d
  | Decimal.D5 d => 53%N :: digits d
  | Decimal.D6 d => 54%N :: digits d
  | Decimal.D7 d => 55%N :: digits d
  | Decimal.D8 d => 56%N :: digits d
  | Decimal.D9 d => 57%N :: digits d
  end.

(** [str(z)] *)
Definition str_of_int (z : Z) : str :=
  match Z.to_int z with
  | Decimal.Pos d => digits d
  | Decimal.Neg d => lit "-" ++ digits d
  end.

(** [f"{z:0w}"]: sign-aware zero padding to a minimum width [w]. *)
Definition format_0 (w : nat) (z : Z) : str :=
  let sign := if z <? 0 then lit "-" else [] in
  let ds := str_of_int (Z.abs z) in
  sign ++ replicate (w - length sign - length ds)%nat 48%N ++ ds.

(** ** Floats *)

(** [int(x)]: truncation toward zero; nothing for a NaN or an infinity.
    [sf_to_Z] reads it off the sign, the mantissa and the exponent. *)
Definition sf_to_Z (x : spec_float) : option Z :=
  match x with
  | S754_zero _ => Some 0
  | S754_finite s m e =>
      let a := if 0 <=? e then Z.pos m * 2 ^ e else Z.pos m / 2 ^ (- e) in
      Some (if s then - a else a)
  | S754_infinity _ | S754_nan => None
  end.

Definition float_to_Z (x : float) : option Z := sf_to_Z (Prim2SF x).

(** [float(z)]: the nearest binary64 value, ties to even. *)
Definition float_of_Z (z : Z) : float :=
  SF2Prim (binary_normalize prec emax z 0 false).

(** [a / b] on Python ints with [b > 0], for a quotient within the float
    range: the correctly rounded quotient. The quotient is taken with [k]
    extra bits, so that it has more than [prec + 2] of them, and a sticky
    bit for the remainder. The size of a file and the microseconds of a
    [timedelta] are bounded, and their quotients are within the range. *)
Definition int_true_div (a b : Z) : float :=
  let n := Z.abs a in
  if n =? 0 then 0%float
  else
    let k := Z.max 0 (56 + Z.log2 b - Z.log2 n) in
    let q := (n * 2 ^ k) / b in
    let m := if (n * 2 ^ k) mod b =? 0 then q else Z.lor q 1 in
    SF2Prim (binary_normalize prec emax (if a <? 0 then - m else m) (- k) false).

(** [a / b] on any Python ints with [b > 0]: a quotient that rounds to
    more than the largest float raises. *)
Definition int_true_div_checked (a b : Z) : result float :=
  let x := int_true_div a b in
  if is_infinity x then Raise OverflowError else Ok x.

(** A Python number: an [int] or a [float]. *)
Inductive number : Set :=
  | PyInt (z : Z)
  | PyFloat (x : float).

(** ** Configuration (source lines 40-92) *)

(** A parsed JSON document. A [dict] keeps its keys in insertion order. *)
Inductive value : Type :=
  | VNone
  | VBool (b : bool)
  | VInt (z : Z)
  | VFloat (x : float)
  | VStr (s : str)
  | VList (l : list value)
  | VDict (d : list (str * value)).

Abbreviation dict := (list (str * value)).

(** [d.get(k)] *)
Fixpoint dict_get (k : str) (d : dict) : option value :=
  match d with
  | [] => None
  | (k', v) :: d' => if decide (k' = k) then Some v else dict_get k d'
  end.

(** [d[k] = v]: a present key keeps its place, a new key goes last. *)
Fixpoint dict_set (k : str) (v : value) (d : dict) : dict :=
  match d with
  | [] => [(k, v)]
  | (k', v') :: d' =>
      if decide (k' = k) then (k, v) :: d' else (k', v') :: dict_set k v d'
  end.

(** [deep_update(base, update)] mutates [base]; here it returns the new
    [base]. The inner [loop] is the loop over [update.items()];
    [deep_update_value] ties the recursion on the update document. *)
Fixpoint deep_update_value (update : value) (base : dict) {struct update} : dict :=
  match update with
  | VDict items =>
      (fix loop (items : dict) (base : dict) {struct items} : dict :=
         match items with
         | [] => base
         | (k, v) :: rest =>
             loop rest
               (match v, dict_get k base with
                | VDict _, Some (VDict bd) =>
                    dict_set k (VDict (deep_update_value v bd)) base
                | _, _ => dict_set k v base
                end)
         end) items base
  | _ => base
  end.

Definition deep_update (base update : dict) : dict :=
  deep_update_value (VDict update) base.

(** The built-in defaults of [load_config]; [prompt] is
    [str(BASE_DIR / "prompts/gemini_vtt_prompt.md")]. *)
Definition downsample_target (fps : Z) (resolution label : string) : value :=
  VDict [(lit "fps", VInt fps); (lit "resolution", VStr (lit resolution));
         (lit "label", VStr (lit label))].

Definition default_config (prompt : str) : dict :=
  [(lit "gemini", VDict
      [(lit "model", VStr (lit "gemini-3-pro-preview"));
       (lit "temperature", VFloat 0.7);
       (lit "max_output_tokens", VInt 65536);
       (lit "thinking", VStr (lit "high"));
       (lit "grounding", VDict
          [(lit "enabled", VBool true);
           (lit "source", VStr (lit "google_search"))])]);
   (lit "video", VDict
      [(lit "max_size_mb", VInt 400);
       (lit "downsample_targets", VList
          [downsample_target 10 "1920x1080" "10fps 1080p";
           downsample_target 5 "1920x1080" "5fps 1080p";
           downsample_target 5 "1280x720" "5fps 720p";
           downsample_target 1 "854x480" "1fps 480p"])]);
   (lit "transcription", VDict [(lit "language", VStr (lit "en"))]);
   (lit "files", VDict [(lit "prompt", VStr prompt)])].

(** [load_config()]: [user_config] is what [json.load] returned, if the
    file exists and parses. [update.items()] on a document that is not an
    object raises [AttributeError], which [load_config] does not catch. *)
Definition load_config (prompt : str) (user_config : option value) : result dict :=
  match user_config with
  | None => Ok (default_config prompt)
  | Some (VDict update) => Ok (deep_update (default_config prompt) update)
  | Some _ => Raise AttributeError
  end.

(** ** The world outside the program *)

(** A path is its text. [d / r] on [pathlib] paths: an absolute right
    operand replaces the left one. The removal of redundant separators and
    of [.] components that [pathlib] also performs is not modelled. *)
Definition joinpath (d r : str) : str :=
  if startswith (lit "/") r then r
  else if decide (r = []) then d
  else if endswith (lit "/") d then d ++ r
  else d ++ lit "/" ++ r.

(** A call that leaves the program: a process started through
    [subprocess.run], or a transcription by one of the two engines. *)
Inductive engine : Set := MlxWhisper | OpenAIWhisper.

Inductive call : Type :=
  | CallProcess (cmd : list str)
  | CallTranscribe (e : engine) (path : str).

(** The state the program acts on: the files, as path text to the bytes
    they hold, and the calls made so far, oldest first. *)
Record world : Type := World {
  files : gmap str (list N);
  calls : list call;
}.

(** A transcription segment, [segment["start"]], [segment["end"]] and
    [segment["text"]]. *)
Record segment : Type := Segment {
  seg_start : number;
  seg_end : number;
  seg_text : str;
}.

(** A downsample preset, [target["fps"]], [target["resolution"]] and
    [target["label"]], with the types of the built-in presets. *)
Record target : Type := Target {
  fps : Z;
  resolution : str;
  label : str;
}.

(** What the program finds installed and configured when it starts: the
    operating system behind [subprocess.run] (its answer and its effect on
    the files), the optional transcription libraries, and the module
    globals read off [CONFIG]. *)
Class Platform : Type := {
  subprocess_run :
    list str → bool → Z → gmap str (list N) →
    result (Z * str * str) * gmap str (list N);
  HAS_MLX_WHISPER : bool;
  HAS_WHISPER : bool;
  mlx_whisper_transcribe : str → value → gmap str (list N) → result (list segment);
  whisper_transcribe : str → value → gmap str (list N) → result (list segment);
  CONFIG : dict;
  MAX_SIZE_MB : number;
  DOWNSAMPLE_TARGETS : list target;
  MEDIA_DIR : str;
  unquote : str → str;
  super_translate_path : str → str;
}.

(** Computations that read and change the world and may raise. *)
Definition io (A : Type) : Type := world → result A * world.

Global Instance io_ret : MRet io := λ A a w, (Ok a, w).
Global Instance io_bind : MBind io := λ A B k m w,
  match m w with
  | (Ok a, w') => k a w'
  | (Raise e, w') => (Raise e, w')
  end.

Definition raise {A} (e : exn) : io A := λ w, (Raise e, w).

(** [path.exists()] *)
Definition path_exists (path : str) : io bool :=
  λ w, (Ok (bool_decide (is_Some (files w !! path))), w).

(** [path.stat().st_size] *)
Definition st_size (path : str) : io Z :=
  λ w, match files w !! path with
       | Some data => (Ok (Z.of_nat (length data)), w)
       | None => (Raise FileNotFoundError, w)
       end.

(** [with open(path, "w") as f: f.write(text)], on a system whose text
    files are UTF-8 with [\n] line ends. *)
Definition write_text (path : str) (text : str) : io () :=
  λ w, match utf8 text with
       | Some data => (Ok (), World (<[path := data]> (files w)) (calls w))
       | None => (Raise ValueError, World (<[path := []]> (files w)) (calls w))
       end.

(** ** Process invocation (source lines 176-194) *)

Section utilities.
Context `{Platform}.

Definition run_command (cmd : list str) (capture : bool) : io (Z * str * str) :=
  λ w,
    let '(r, fs) := subprocess_run cmd capture 3600 (files w) in
    let w' := World fs (calls w ++ [CallProcess cmd]) in
    match r with
    | Ok (returncode, stdout, stderr) => (Ok (returncode, stdout, stderr), w')
    | Raise FileNotFoundError =>
        match cmd with
        | cmd0 :: _ => (Ok (-1, [], lit "Command not found: " ++ cmd0), w')
        | [] => (Raise IndexError, w')
        end
    | Raise TimeoutExpired => (Ok (-2, [], lit "Command timed out"), w')
    | Raise e => (Raise e, w')
    end.

(** [get_file_size_mb(path)]: [st_size / (1024 * 1024)] *)
Definition get_file_size_mb (path : str) : io float :=
  size ← st_size path;
  mret (int_true_div size (1024 * 1024)).
End utilities.

(** ** The timestamp formatter (source lines 197-204) *)

(** [int(seconds)] *)
Definition int_of (seconds : number) : result Z :=
  match seconds with
  | PyInt z => Ok z
  | PyFloat x =>
      match float_to_Z x with
      | Some z => Ok z
      | None => Raise (if is_nan x then ValueError else OverflowError)
      end
  end.

(** [datetime.timedelta(seconds=seconds)], as the number of microseconds it
    holds. The C implementation splits a float into its integer and
    fractional parts, scales the fraction to microseconds in float
    arithmetic, and rounds what is left of a microsecond half to even; it
    refuses more than 999999999 days. *)
Definition us_per_second : Z := 1000000.
Definition us_per_day : Z := 86400 * us_per_second.
Definition max_delta_days : Z := 999999999.

Definition round_leftover (x : Z) (leftover : float) : Z :=
  if (leftover =? 0)%float then 0
  else
    let whole : Z :=
      if (abs leftover <? 0.5)%float then 0
      else if (leftover <? 0)%float then -1 else 1 in
    if (abs (float_of_Z whole - leftover) =? 0.5)%float
    then (if Z.odd x then whole else 0)
    else whole.

Definition timedelta_of_us (us : Z) : result Z :=
  if Z.abs (us / us_per_day) <=? max_delta_days then Ok us
  else Raise OverflowError.

Definition timedelta (seconds : number) : result Z :=
  match seconds with
  | PyInt z => timedelta_of_us (z * us_per_second)
  | PyFloat x =>
      intpart ← int_of (PyFloat x);
      let fracpart := (x - float_of_Z intpart)%float in
      let sum := intpart * us_per_second in
      if (fracpart =? 0)%float then timedelta_of_us sum
      else
        let dnum := (float_of_Z us_per_second * fracpart)%float in
        us ← int_of (PyFloat dnum);
        let leftover_us := (dnum - float_of_Z us)%float in
        let x := sum + us in
        timedelta_of_us (x + round_leftover x leftover_us)
  end.

(** [td.total_seconds()] *)
Definition total_seconds (td : Z) : float := int_true_div td (10 ^ 6).

(** [(seconds - int(seconds)) * 1000], in int or in float arithmetic. *)
Definition fraction_ms (seconds : number) (i : Z) : number :=
  match seconds with
  | PyInt z => PyInt ((z - i) * 1000)
  | PyFloat x => PyFloat ((x - float_of_Z i) * 1000)%float
  end.

(** [int(td.total_seconds())] for [td = timedelta(seconds=seconds)] *)
Definition whole_seconds (seconds : number) : result Z :=
  td ← timedelta seconds;
  int_of (PyFloat (total_seconds td)).

(** [int((seconds - int(seconds)) * 1000)] *)
Definition milliseconds (seconds : number) : result Z :=
  i ← int_of seconds;
  int_of (fraction_ms seconds i).

Definition to_vtt_time (seconds : number) : result str :=
  total_seconds ← whole_seconds seconds;
  let hours := total_seconds / 3600 in
  let remainder := total_seconds mod 3600 in
  let minutes := remainder / 60 in
  let secs := remainder mod 60 in
  milliseconds ← milliseconds seconds;
  Ok (format_0 2 hours ++ lit ":" ++ format_0 2 minutes ++ lit ":" ++
      format_0 2 secs ++ lit "." ++ format_0 3 milliseconds).

(** ** The file server (source lines 317-355) *)

Section serve.
Context `{Platform}.

Definition translate_path (path : str) : io str :=
  let path := unquote path in
  if startswith (lit "/media/") path then
    let rest := replace (lit "/media/") [] path in
    mret (joinpath MEDIA_DIR rest)
  else
    let path_clean := lstrip_char 47 path in
    let media_path := joinpath MEDIA_DIR path_clean in
    found ← path_exists media_path;
    if found && negb (endswith (lit ".html") path_clean)
    then mret media_path
    else mret (super_translate_path path).

(** [do_GET] rewrites the request path and hands over to
    [SimpleHTTPRequestHandler.do_GET], which serves the file that
    [translate_path] names: that file is the result here. *)
Definition do_GET (path : str) : io str :=
  let path := if decide (path = lit "/") then lit "/player.html" else path in
  translate_path path.
End serve.

(** ** Subtitle extraction and transcription (source lines 439-512) *)

(** [f"{start} --> {end}\n{text}\n\n"] for each segment after the header.
    Each cue goes to the file in a [write] of its own, which encodes it
    first: a cue that cannot be encoded raises there, with nothing of it
    written. The text written before a segment fails to format or to
    encode stays written. *)
Fixpoint write_segments (segments : list segment) (written : str) : str * option exn :=
  match segments with
  | [] => (written, None)
  | seg :: rest =>
      match to_vtt_time (seg_start seg) with
      | Raise e => (written, Some e)
      | Ok start =>
          match to_vtt_time (seg_end seg) with
          | Raise e => (written, Some e)
          | Ok end_ =>
              let cue := start ++ lit " --> " ++ end_ ++ [10%N] ++
                         strip (seg_text seg) ++ [10%N; 10%N] in
              match utf8 cue with
              | None => (written, Some ValueError)
              | Some _ => write_segments rest (written ++ cue)
              end
          end
      end
  end.

Section subtitles.
Context `{Platform}.

Definition extract_subtitles_cmd (video_path output_path : str) : list str :=
  [lit "ffmpeg"; lit "-y"; lit "-i"; video_path;
   lit "-map"; lit "0:s:0"; lit "-c:s"; lit "webvtt"; output_path].

Definition extract_subtitles (video_path output_path : str) : io bool :=
  let cmd := extract_subtitles_cmd video_path output_path in
  '(code, stdout, stderr) ← run_command cmd true;
  found ← path_exists output_path;
  mret ((code =? 0) && found).

(** [CONFIG.get("transcription", {}).get("language", "en")] *)
Definition transcription_language : result value :=
  match dict_get (lit "transcription") CONFIG with
  | None => Ok (VStr (lit "en"))
  | Some (VDict d) => Ok (default (VStr (lit "en")) (dict_get (lit "language") d))
  | Some _ => Raise AttributeError
  end.

(** The body of one [try] block of [transcribe_with_whisper]: whatever it
    raises is caught and answered with [False]. The file is opened once
    the engine has returned, and holds the header and the cues written
    until then, all of them encoded, when a later cue raises. *)
Definition transcribe_using (e : engine) (video_path output_path : str) : io bool :=
  match transcription_language with
  | Raise _ => mret false
  | Ok language =>
      λ w,
        let transcribe :=
          match e with
          | MlxWhisper => mlx_whisper_transcribe
          | OpenAIWhisper => whisper_transcribe
          end in
        let w' := World (files w) (calls w ++ [CallTranscribe e video_path]) in
        match transcribe video_path language (files w) with
        | Raise _ => (Ok false, w')
        | Ok segments =>
            let '(text, failure) :=
              write_segments segments (lit "WEBVTT" ++ [10%N; 10%N]) in
            match write_text output_path text w', failure with
            | (Ok _, w''), None => (Ok true, w'')
            | (_, w''), _ => (Ok false, w'')
            end
        end
  end.

Definition transcribe_with_whisper (video_path output_path : str) : io bool :=
  if HAS_MLX_WHISPER then transcribe_using MlxWhisper video_path output_path
  else if HAS_WHISPER then transcribe_using OpenAIWhisper video_path output_path
  else mret false.
End subtitles.

(** ** Downsampling (source lines 519-555) *)

(** [x <= y] for a float and a number; Python compares a float with an int
    exactly. *)
Definition float_le (x : float) (y : number) : bool :=
  match y with
  | PyFloat y => (x <=? y)%float
  | PyInt z =>
      match float_to_Z x with
      | Some t =>
          if (float_of_Z t =? x)%float then t <=? z
          else if (x <? 0)%float then t <=? z
          else t <? z
      | None => (x <? 0)%float
      end
  end.

Section downsampling.
Context `{Platform}.

Definition downsample_cmd (video_path output_path : str) (target : target)
    (width height : str) : list str :=
  [lit "ffmpeg"; lit "-y"; lit "-i"; video_path;
   lit "-vf";
   lit "fps=" ++ str_of_int (fps target) ++ lit ",scale=" ++ width ++ lit ":" ++
     height ++ lit ":force_original_aspect_ratio=decrease";
   lit "-c:v"; lit "libx264"; lit "-crf"; lit "28"; lit "-preset"; lit "fast";
   lit "-c:a"; lit "aac"; lit "-b:a"; lit "128k";
   output_path].

(** The [for target in DOWNSAMPLE_TARGETS] loop with what follows it. *)
Fixpoint downsample_loop (targets : list target) (video_path output_path : str)
    : io (option str) :=
  match targets with
  | [] => mret None
  | target :: rest =>
      match split 120 (resolution target) with
      | [width; height] =>
          let cmd := downsample_cmd video_path output_path target width height in
          '(code, stdout, stderr) ← run_command cmd true;
          found ← path_exists output_path;
          if (code =? 0) && found then
            new_size ← get_file_size_mb output_path;
            if float_le new_size MAX_SIZE_MB then mret (Some output_path)
            else downsample_loop rest video_path output_path
          else downsample_loop rest video_path output_path
      | _ => raise ValueError
      end
  end.

Definition downsample_video (video_path output_path : str) : io (option str) :=
  size_mb ← get_file_size_mb video_path;
  if float_le size_mb MAX_SIZE_MB then mret (Some video_path)
  else downsample_loop DOWNSAMPLE_TARGETS video_path output_path.
End downsampling.

(** ** The response scan of [call_gemini] (source lines 743-763) *)

Definition WEBVTT : str := lit "WEBVTT".
Definition FENCE : str := lit "```".

(** The [vtt] entry of the result of [call_gemini], from the response
    text. *)
Definition call_gemini_vtt (text : str) : str :=
  if contains WEBVTT text then
    let vtt_start := find WEBVTT text 0 in
    let vtt_end := find FENCE text vtt_start in
    if vtt_end >? vtt_start then strip (slice text vtt_start vtt_end)
    else strip (slice_from text vtt_start)
  else text.

(** What [call_gemini] returns: the whole response text under [raw], the
    extracted document under [vtt]. *)
Record enhancement : Type := Enhancement {
  raw : str;
  vtt : str;
}.

Definition call_gemini_result (text : str) : enhancement :=
  Enhancement text (call_gemini_vtt text).

(** [extract_vtt] of the self-test (source lines 940-949). *)
Definition extract_vtt (text : str) : str :=
  if contains WEBVTT text then
    let vtt_start := find WEBVTT text 0 in
    let vtt_end := find FENCE text vtt_start in
    if vtt_end =? -1 then slice_from text vtt_start
    else strip (slice text vtt_start vtt_end)
  else text.

(** ** Output paths and the conversion steps (source lines 774-887) *)

(** [if specified:] is false for [None] and for the empty string. *)
Definition truthy (specified : option str) : bool :=
  match specified with
  | Some (_ :: _) => true
  | _ => false
  end.

(** [directory / f"{base_name}-{counter}.{extension}"] *)
Definition numbered (base_name extension directory : str) (counter : Z) : str :=
  joinpath directory (base_name ++ lit "-" ++ str_of_int counter ++ lit "." ++ extension).

(** The [while output.exists()] loop; [fuel] bounds the number of tests,
    and the loop that has not ended by then answers [None]. *)
Fixpoint get_output_path_loop (fuel : nat) (base_name extension directory : str)
    (output : str) (counter : Z) (fs : gmap str (list N)) : option str :=
  match fuel with
  | O => None
  | S fuel =>
      if bool_decide (is_Some (fs !! output))
      then get_output_path_loop fuel base_name extension directory
             (numbered base_name extension directory counter) (counter + 1) fs
      else Some output
  end.

Definition get_output_path (fuel : nat) (base_name extension directory : str)
    (specified : option str) : io (option str) :=
  λ w,
    if truthy specified then (Ok (Some (default [] specified)), w)
    else
      let output := joinpath directory (base_name ++ lit "." ++ extension) in
      (Ok (get_output_path_loop fuel base_name extension directory output 1 (files w)), w).

(** The result of [ffprobe_check], without the raw probe data. *)
Record metadata : Type := Metadata {
  duration : float;
  size_mb : float;
  has_audio : bool;
  has_subtitles : bool;
}.

Definition PLACEHOLDER : str :=
  lit "WEBVTT" ++ [10%N; 10%N] ++
  lit "NOTE This video has no audio track (silent film)." ++ [10%N; 10%N].

Section convert.
Context `{Platform}.

(** Step 2 of [cmd_convert], the choice between the placeholder, the
    embedded subtitles and the transcription: the value of [success]. *)
Definition cmd_convert_subtitles (md : metadata) (video_path subtitles_path : str)
    : io bool :=
  if negb (has_audio md) then
    _ ← write_text subtitles_path PLACEHOLDER;
    mret true
  else if has_subtitles md then
    success ← extract_subtitles video_path subtitles_path;
    if negb success then transcribe_with_whisper video_path subtitles_path
    else mret success
  else transcribe_with_whisper video_path subtitles_path.

(** Step 2 with its exit: [sys.exit(1)] unless [success] holds and the
    subtitle file exists. *)
Definition cmd_convert_step2 (md : metadata) (video_path subtitles_path : str)
    : io () :=
  success ← cmd_convert_subtitles md video_path subtitles_path;
  found ← path_exists subtitles_path;
  if negb success || negb found then raise (SystemExit 1) else mret ().

(** Step 5 of [cmd_convert]: the log and the subtitle file are written,
    and their paths returned. Nothing is written from the point where a
    path search does not end. *)
Definition cmd_convert_step5 (fuel : nat) (base_name work_dir : str)
    (output_vtt : option str) (result : enhancement) : io (option (str * str)) :=
  log_path ← get_output_path fuel base_name (lit "log") work_dir None;
  match log_path with
  | None => mret None
  | Some log_path =>
      _ ← write_text log_path (raw result);
      output_path ← get_output_path fuel base_name (lit "vtt") work_dir output_vtt;
      match output_path with
      | None => mret None
      | Some output_path =>
          _ ← write_text output_path (vtt result);
          mret (Some (log_path, output_path))
      end
  end.
End convert.

(** ** The cost estimate (source lines 155-173) *)

(** The prices of a model, in dollars per million tokens. *)
Record rates : Set := Rates {
  rate_in : float;
  rate_out : float;
}.

Section cost.
(** [str.lower] *)
Variable lower : str → str.

Definition estimate_rates (model : str) : rates :=
  let model_lower := lower model in
  if contains (lit "flash") model_lower then Rates 0.075 0.30
  else if contains (lit "3") model_lower || contains (lit "gemini-3") model_lower
       then Rates 2.00 12.00
  else Rates 3.50 10.50.

Definition estimate_cost (model : str) (input_tok output_tok : Z) : result float :=
  let rates := estimate_rates model in
  input_millions ← int_true_div_checked input_tok 1000000;
  output_millions ← int_true_div_checked output_tok 1000000;
  Ok (input_millions * rate_in rates + output_millions * rate_out rates)%float.
End cost.

(** ** The API key (source lines 211-232) *)

(** [bool(v)] *)
Definition value_truthy (v : value) : bool :=
  match v with
  | VNone => false
  | VBool b => b
  | VInt z => negb (z =? 0)
  | VFloat x => negb (x =? 0)%float
  | VStr s => negb (bool_decide (s = []))
  | VList l => negb (bool_decide (l = []))
  | VDict d => negb (bool_decide (d = []))
  end.

(** [get_api_key()]. [environ_key] is [os.environ.get("GEMINI_API_KEY")].
    [secrets] is nothing when [secrets.json] does not exist, and otherwise
    what [json.load] makes of it: a document, or nothing when it raises
    [JSONDecodeError]. A document that is not an object has no [get], and a
    key that is true and not a string has no [startswith]: both raise
    [AttributeError], which is not caught. *)
Definition get_api_key (environ_key : option str) (secrets : option (option value))
    : result (option str) :=
  if truthy environ_key then Ok environ_key
  else
    match secrets with
    | None | Some None => Ok None
    | Some (Some (VDict d)) =>
        match dict_get (lit "GEMINI_API_KEY") d with
        | None => Ok None
        | Some key =>
            if value_truthy key then
              match key with
              | VStr s => if startswith (lit "YOUR_") s then Ok None else Ok (Some s)
              | _ => Raise AttributeError
              end
            else Ok None
        end
    | Some (Some _) => Raise AttributeError
    end.

(** ** The check mode (source lines 239-310) *)

Section check.
Context `{Platform}.
(** [HAS_GENAI], and what [get_api_key] reads. *)
Variable HAS_GENAI : bool.
Variable environ_key : option str.
Variable secrets : option (option value).
(** [platform.processor()], which on most systems starts [uname -p]
    through [subprocess] to find its answer. [platform.machine()],
    [platform.system()] and [sys.version_info], which [cmd_check] reads
    next, hold what the interpreter knows already; like the processor's
    name they only go into the log. *)
Variable platform_processor : io str.

Definition check_command (name : str) (cmd : list str) : io bool :=
  '(code, stdout, stderr) ← run_command cmd true;
  mret (code =? 0).

Definition cmd_check : io bool :=
  let all_ok := true in
  ffmpeg ← check_command (lit "ffmpeg") [lit "ffmpeg"; lit "-version"];
  let all_ok := all_ok && ffmpeg in
  ffprobe ← check_command (lit "ffprobe") [lit "ffprobe"; lit "-version"];
  let all_ok := all_ok && ffprobe in
  let all_ok :=
    if HAS_MLX_WHISPER then all_ok else if HAS_WHISPER then all_ok else false in
  let all_ok := if HAS_GENAI then all_ok else false in
  match get_api_key environ_key secrets with
  | Raise e => raise e
  | Ok _ =>
      processor ← platform_processor;
      mret all_ok
  end.
End check.

(** ** The stream scan of [ffprobe_check] (source lines 413-419) *)

(** [stream.get("codec_type") == kind]; a stream that is not an object has
    no [get]. *)
Definition codec_type_is (kind : str) (stream : value) : result bool :=
  match stream with
  | VDict d =>
      Ok match dict_get (lit "codec_type") d with
         | Some (VStr s) => bool_decide (s = kind)
         | _ => false
         end
  | _ => Raise AttributeError
  end.

(** The loop over the streams, from [has_subtitles] and [has_audio] as
    they stand to what they are at its end. *)
Fixpoint scan_streams (streams : list value) (has_subtitles has_audio : bool)
    : result (bool * bool) :=
  match streams with
  | [] => Ok (has_subtitles, has_audio)
  | stream :: rest =>
      match codec_type_is (lit "subtitle") stream with
      | Raise e => Raise e
      | Ok subtitle =>
          let has_subtitles := if subtitle then true else has_subtitles in
          match codec_type_is (lit "audio") stream with
          | Raise e => Raise e
          | Ok audio =>
              let has_audio := if audio then true else has_audio in
              scan_streams rest has_subtitles has_audio
          end
      end
  end.

(** ** The command line (source lines 1045-1058) *)

(** What [parse_args] returns. *)
Record args : Type := Args {
  args_serve : bool;
  args_port : Z;
  args_check : bool;
  args_convert : option str;
  args_output_vtt : option str;
  args_test : bool;
}.

(** The command that [main] runs. *)
Inductive command : Type :=
  | RunTest
  | RunCheck
  | RunConvert (video_file : str) (output_vtt : option str)
  | RunServe (port : Z).

(** [main] after [parse_args]: the command it runs, nothing if it falls
    through the chain of tests. *)
Definition main_command (args : args) : option command :=
  let serve :=
    if negb (args_serve args || args_check args || truthy (args_convert args) ||
             args_test args)
    then true else args_serve args in
  if args_test args then Some RunTest
  else if args_check args then Some RunCheck
  else if truthy (args_convert args)
       then Some (RunConvert (default [] (args_convert args)) (args_output_vtt args))
  else if serve then Some (RunServe (args_port args))
  else None.

(** [config[section][key]], as the module reads [MAX_SIZE_MB],
    [DOWNSAMPLE_TARGETS], [GEMINI_MODEL] and [PROMPT_FILE] off [CONFIG]
    (source lines 89-92); nothing when the subscript raises, for a missing
    key or for a section that is not a dict. *)
Definition config_item (config : dict) (section key : str) : option value :=
  match dict_get section config with
  | Some (VDict d) => dict_get key d
  | _ => None
  end.

(** ** The self-test (source lines 902-1009) *)

(** How [cmd_test] ends: it returns when no check has failed, it leaves
    with [sys.exit(1)] when some have, and it is stopped by what the
    evaluation of a check raises. *)
Inductive test_outcome : Set :=
  | AllPassed
  | SomeFailed (failed : nat)
  | Stopped.

Definition raw1 : str :=
  lit "Here is the VTT:" ++ [10%N] ++ lit "```" ++ [10%N] ++ lit "WEBVTT" ++
  [10%N; 10%N] ++ lit "00:00.000 --> 00:05.000" ++ [10%N] ++ lit "Hello" ++
  [10%N] ++ lit "```" ++ [10%N] ++ lit "Done!".

Definition raw2 : str :=
  lit "WEBVTT" ++ [10%N; 10%N] ++ lit "00:00.000 --> 00:05.000" ++ [10%N] ++
  lit "Plain VTT".

Definition raw3 : str := lit "No VTT content here at all".

(** [to_vtt_time(seconds) == expected], nothing when it raises. *)
Definition time_check (seconds : number) (expected : string) : option bool :=
  match to_vtt_time seconds with
  | Ok stamp => Some (bool_decide (stamp = lit expected))
  | Raise _ => None
  end.

Section self_test.
Context `{Platform}.
(** [BASE_DIR.exists()] *)
Variable base_dir_exists : bool.

(** The conditions passed to [test], in order: of the formatter, of the
    extraction, of the paths, of the size of a file of one mebibyte, which
    is written to a temporary file and removed again, and of the
    configuration. *)
Definition cmd_test_checks : list (option bool) :=
  [time_check (PyInt 0) "00:00:00.000";
   time_check (PyInt 1) "00:00:01.000";
   time_check (PyFloat 1.5) "00:00:01.500";
   time_check (PyInt 61) "00:01:01.000";
   time_check (PyInt 3661) "01:01:01.000";
   time_check (PyFloat 90.123) "00:01:30.123";
   time_check (PyInt 3600) "01:00:00.000";
   Some (contains (lit "WEBVTT") (extract_vtt raw1));
   Some (negb (contains (lit "Done!") (extract_vtt raw1)));
   Some (startswith (lit "WEBVTT") (extract_vtt raw2));
   Some (bool_decide (extract_vtt raw3 = raw3));
   Some base_dir_exists;
   Some true;
   Some true;
   (let size_mb := int_true_div (1024 * 1024) (1024 * 1024) in
    Some ((0.9 <? size_mb)%float && (size_mb <? 1.1)%float));
   Some (bool_decide (is_Some (dict_get (lit "gemini") CONFIG)));
   Some (bool_decide (is_Some (dict_get (lit "video") CONFIG)));
   Some (bool_decide (is_Some (dict_get (lit "files") CONFIG)));
   match config_item CONFIG (lit "gemini") (lit "model") with
   | Some (VStr _) => Some true
   | Some _ => Some false
   | None => None
   end].

(** The checks are evaluated in order, and the failures counted. *)
Fixpoint run_checks (checks : list (option bool)) (failed : nat) : test_outcome :=
  match checks with
  | [] => if decide (failed = O) then AllPassed else SomeFailed failed
  | None :: _ => Stopped
  | Some true :: rest => run_checks rest failed
  | Some false :: rest => run_checks rest (S failed)
  end.

Definition cmd_test : test_outcome := run_checks cmd_test_checks 0.
End self_test.

(** ** The conversion as a whole (source lines 788-895) *)

Section conversion.
Context `{Platform}.
(** What [get_api_key] reads. *)
Variable environ_key : option str.
Variable secrets : option (option value).
(** [str(uuid.uuid4())[:8]] *)
Variable session_id : str.
(** [Path.stem] and [Path.parent] *)
Variables stem parent : str → str.
Variables PROMPT_FILE BASE_DIR : str.
(** [ffprobe_check], nothing for the empty dict it returns on failure, and
    [call_gemini], nothing for [None]. *)
Variable ffprobe_check : str → io (option metadata).
Variable call_gemini : str → str → str → str → io (option enhancement).
(** The bound on the tests of each output-path search. *)
Variable fuel : nat.

(** [path] if it exists, else [directory / path] if that exists, else
    [sys.exit(1)]: the search for the video and for the prompt file. *)
Definition existing_or_below (directory path : str) : io str :=
  found ← path_exists path;
  if negb found then
    let candidate := joinpath directory path in
    found ← path_exists candidate;
    if negb found then raise (SystemExit 1) else mret candidate
  else mret path.

Definition cmd_convert (video_file : str) (output_vtt : option str)
    : io (option (str * str)) :=
  video_path ← existing_or_below MEDIA_DIR video_file;
  let base_name := stem video_path in
  let work_dir := parent video_path in
  match get_api_key environ_key secrets with
  | Raise e => raise e
  | Ok api_key =>
      if negb (truthy api_key) then raise (SystemExit 1)
      else
        let api_key := default [] api_key in
        prompt_path ← existing_or_below BASE_DIR PROMPT_FILE;
        metadata ← ffprobe_check video_path;
        match metadata with
        | None => raise (SystemExit 1)
        | Some metadata =>
            let subtitles_path :=
              joinpath work_dir
                (base_name ++ lit "-subtitles-" ++ session_id ++ lit ".vtt") in
            _ ← cmd_convert_step2 metadata video_path subtitles_path;
            let downsampled_path :=
              joinpath work_dir
                (base_name ++ lit "-downsampled-" ++ session_id ++ lit ".mp4") in
            final_video ← downsample_video video_path downsampled_path;
            match final_video with
            | None => raise (SystemExit 1)
            | Some final_video =>
                result ← call_gemini api_key prompt_path subtitles_path final_video;
                match result with
                | None => raise (SystemExit 1)
                | Some result =>
                    cmd_convert_step5 fuel base_name work_dir output_vtt result
                end
            end
        end
  end.
End conversion.

(** ** Vocabulary of the specification *)

(** The names [get_output_path] goes through: [base.ext], [base-1.ext],
    [base-2.ext], ..., counted from zero. *)
Definition candidate (base_name extension directory : str) (n : nat) : str :=
  match n with
  | O => joinpath directory (base_name ++ lit "." ++ extension)
  | S _ => numbered base_name extension directory (Z.of_nat n)
  end.

Section downsampling_vocabulary.
Context `{Platform}.
Variables video_path output_path : str.

(** The transcoder run for a preset: its command line, if the resolution
    of the preset has the form [width x height], and its run. *)
Definition target_cmd (t : target) : option (list str) :=
  match split 120 (resolution t) with
  | [width; height] => Some (downsample_cmd video_path output_path t width height)
  | _ => None
  end.

Definition transcode (t : target) (w : world) : result (Z * str * str) * world :=
  match target_cmd t with
  | Some cmd => run_command cmd true w
  | None => (Raise ValueError, w)
  end.

(** The world after the transcoder has run for the presets [ts], in
    order. *)
Definition after_attempts (ts : list target) (w : world) : world :=
  foldl (λ w t, (transcode t w).2) w ts.

(** How an attempt ends: accepted, when the transcoder exits with code 0,
    the output file exists and its size is within the ceiling; rejected,
    when the transcoder has failed or the output is oversized; faulted,
    when something is raised. *)
Inductive verdict : Set := Accepted | Rejected | Faulted.

Definition attempt (t : target) (w : world) : verdict :=
  match transcode t w with
  | (Ok (code, _, _), w') =>
      match files w' !! output_path with
      | Some data =>
          if (code =? 0) &&
             float_le (int_true_div (Z.of_nat (length data)) (1024 * 1024)) MAX_SIZE_MB
          then Accepted else Rejected
      | None => Rejected
      end
  | (Raise _, _) => Faulted
  end.
End downsampling_vocabulary.

(** [sub] occurs in [s] at index [i]; [i] is the first index at or after
    [from] where it does. *)
Definition occurs (sub s : str) (i : nat) : Prop :=
  ∃ pre post, s = pre ++ sub ++ post ∧ length pre = i.

Definition first_occurrence (sub s : str) (from i : nat) : Prop :=
  (from ≤ i)%nat ∧ occurs sub s i ∧ ∀ j, (from ≤ j < i)%nat → ¬ occurs sub s j.

(** What the merge puts at a key: the value [new] of the update, merged
    into the value [old] that the base has there when both are dicts. *)
Definition merged (old : option value) (new : value) : value :=
  match new, old with
  | VDict vd, Some (VDict bd) => VDict (deep_update bd vd)
  | _, _ => new
  end.

(** A seconds value that is not negative. *)
Definition non_negative (seconds : number) : Prop :=
  match seconds with
  | PyInt z => 0 ≤ z
  | PyFloat x => (0 <=? x)%float = true
  end.

(** The decimal digit of the units of [n], and [n] in two and in three
    digits. *)
Definition digit (n : Z) : N := Z.to_N (48 + n mod 10).

Definition two_digits (n : Z) : str := [digit (n / 10); digit n].

Definition three_digits (n : Z) : str := [digit (n / 100); digit (n / 10); digit n].

(** The hour field: two digits, or the decimal numeral of a count of a
    hundred hours or more. *)
Definition hours_field (h : Z) : str :=
  if h <? 100 then two_digits h else str_of_int h.

(** [HH:MM:SS.mmm] for [n] whole seconds and [ms] milliseconds. *)
Definition clock (n ms : Z) : str :=
  hours_field (n / 3600) ++ lit ":" ++ two_digits (n mod 3600 / 60) ++ lit ":" ++
  two_digits (n mod 60) ++ lit "." ++ three_digits ms.

(** ** Platforms to run the program on *)

(** A machine with nothing installed: every command is missing. *)
Definition no_command (cmd : list str) (capture : bool) (timeout : Z)
    (fs : gmap str (list N)) : result (Z * str * str) * gmap str (list N) :=
  (Raise FileNotFoundError, fs).

Definition no_engine (path : str) (language : value) (fs : gmap str (list N))
    : result (list segment) :=
  Raise OSError.

(** A platform around a given [subprocess.run], with the built-in size
    ceiling and no transcription library. *)
Definition platform_with
    (run : list str → bool → Z → gmap str (list N) →
           result (Z * str * str) * gmap str (list N))
    (max_size_mb : number) (targets : list target) : Platform := {|
  subprocess_run := run;
  HAS_MLX_WHISPER := false;
  HAS_WHISPER := false;
  mlx_whisper_transcribe := no_engine;
  whisper_transcribe := no_engine;
  CONFIG := default_config (lit "prompts/gemini_vtt_prompt.md");
  MAX_SIZE_MB := max_size_mb;
  DOWNSAMPLE_TARGETS := targets;
  MEDIA_DIR := lit "media";
  unquote := λ path, path;
  super_translate_path := λ path, lit "/srv/open-vtt" ++ path;
|}.

(** An [ffmpeg] that exits with code 0 and leaves an empty output file,
    the last word of its command line. *)
Definition empty_output (cmd : list str) (capture : bool) (timeout : Z)
    (fs : gmap str (list N)) : result (Z * str * str) * gmap str (list N) :=
  (Ok (0, [], []), <[default [] (last cmd) := []]> fs).

Definition empty_output_platform : Platform :=
  platform_with empty_output (PyInt 400) [].

Definition bare_platform : Platform := platform_with no_command (PyInt 400) [].

Definition empty_world : world := World ∅ [].

(** A media directory that already holds two subtitle files of a film. *)
Definition two_subtitles : world :=
  World {[ lit "media/film.vtt" := lit "WEBVTT"; lit "media/film-1.vtt" := lit "WEBVTT" ]} [].

(** A transcoder whose output has 16 bytes at 10 frames per second and 8
    bytes below, on a platform with a ceiling of about 10 bytes and the
    built-in presets. *)
Definition small_ffmpeg (cmd : list str) (capture : bool) (timeout : Z)
    (fs : gmap str (list N)) : result (Z * str * str) * gmap str (list N) :=
  let size := if startswith (lit "fps=10") (default [] (cmd !! 5%nat)) then 16%nat else 8%nat in
  (Ok (0, [], []), <[default [] (last cmd) := replicate size 0%N]> fs).

Definition builtin_targets : list target :=
  [Target 10 (lit "1920x1080") (lit "10fps 1080p");
   Target 5 (lit "1920x1080") (lit "5fps 1080p");
   Target 5 (lit "1280x720") (lit "5fps 720p");
   Target 1 (lit "854x480") (lit "1fps 480p")].

Definition small_platform : Platform :=
  platform_with small_ffmpeg (PyFloat 0.00001) builtin_targets.

Definition one_video : world :=
  World {[ lit "media/film.mp4" := replicate 20 0%N ]} [].

(** A transcription engine that hears one sentence in the first two
    seconds, and a platform with given transcription libraries. *)
Definition one_sentence (path : str) (language : value) (fs : gmap str (list N))
    : result (list segment) :=
  Ok [Segment (PyInt 0) (PyInt 2) (lit " Hello. ")].

Definition platform_with_engines (has_mlx has_whisper : bool)
    (mlx whisper : str → value → gmap str (list N) → result (list segment))
    : Platform := {|
  subprocess_run := no_command;
  HAS_MLX_WHISPER := has_mlx;
  HAS_WHISPER := has_whisper;
  mlx_whisper_transcribe := mlx;
  whisper_transcribe := whisper;
  CONFIG := default_config (lit "prompts/gemini_vtt_prompt.md");
  MAX_SIZE_MB := PyInt 400;
  DOWNSAMPLE_TARGETS := builtin_targets;
  MEDIA_DIR := lit "media";
  unquote := λ path, path;
  super_translate_path := λ path, lit "/srv/open-vtt" ++ path;
|}.


(** A document whose objects, at every depth below keys, have no key
    twice, as [json.load] builds them; and the size of a document. *)
Fixpoint unique_keys (v : value) : bool :=
  match v with
  | VDict d =>
      bool_decide (NoDup d.*1) &&
      (fix all (d : dict) : bool :=
         match d with
         | [] => true
         | (_, v') :: d' => unique_keys v' && all d'
         end) d
  | _ => true
  end.

Fixpoint value_size (v : value) : nat :=
  match v with
  | VDict d =>
      S ((fix sum (d : dict) : nat :=
            match d with
            | [] => O
            | (_, v') :: d' => (value_size v' + sum d')%nat
            end) d)
  | _ => 1%nat
  end.

(** One cue of the transcription, as [transcribe_with_whisper] formats
    and encodes it for a segment. *)
Definition cue (seg : segment) : result str :=
  start ← to_vtt_time (seg_start seg);
  end_ ← to_vtt_time (seg_end seg);
  let text := start ++ lit " --> " ++ end_ ++ [10%N] ++ strip (seg_text seg) ++
              [10%N; 10%N] in
  match utf8 text with
  | None => Raise ValueError
  | Some _ => Ok text
  end.

(** A transcription engine whose second segment has no end time to
    speak of. *)
Definition broken_second_segment (path : str) (language : value)
    (fs : gmap str (list N)) : result (list segment) :=
  Ok [Segment (PyInt 0) (PyInt 2) (lit " Hello. ");
      Segment (PyInt 2) (PyFloat nan) (lit " Good-bye. ")].

(** A transcription engine whose second segment holds a lone surrogate,
    which UTF-8 cannot encode. *)
Definition unencodable_second_segment (path : str) (language : value)
    (fs : gmap str (list N)) : result (list segment) :=
  Ok [Segment (PyInt 0) (PyInt 2) (lit " Hello. ");
      Segment (PyInt 2) (PyInt 4) [55296%N];
      Segment (PyInt 4) (PyInt 6) (lit " Good-bye. ")].

(** A [platform.processor()] that asks [uname -p]. *)
Definition uname_processor : io str :=
  λ w, (Ok (lit "x86_64"),
        World (files w) (calls w ++ [CallProcess [lit "uname"; lit "-p"]])).

(** * Theorems *)

(** ** Process invocation *)

(** C8. [run_command] answers a missing executable with the code [-1], an
    empty output and a message, and a timeout of the one-hour limit it
    passes to [subprocess.run] with the code [-2], an empty output and a
    message; neither is raised, and neither code is the code [0] of a
    successful run, which is passed on as it is. *)
Theorem run_command_reports_failures `{Platform}
    (cmd : list str) (capture : bool) (w : world) :
  cmd ≠ [] →
  let answer := (subprocess_run cmd capture 3600 (files w)).1 in
  (answer = Raise FileNotFoundError →
     (run_command cmd capture w).1
     = Ok (-1, [], lit "Command not found: " ++ default [] (head cmd))) ∧
  (answer = Raise TimeoutExpired →
     (run_command cmd capture w).1 = Ok (-2, [], lit "Command timed out")) ∧
  (∀ stdout stderr, answer = Ok (0, stdout, stderr) →
     (run_command cmd capture w).1 = Ok (0, stdout, stderr)) ∧
  (∀ code stdout stderr,
     (run_command cmd capture w).1 = Ok (code, stdout, stderr) →
     code = 0 → answer = Ok (0, stdout, stderr)).
Proof.
  intros Hcmd answer. subst answer. unfold run_command.
  destruct (subprocess_run cmd capture 3600 (files w)) as [r fs]; simpl.
  repeat split.
  - intros ->. by destruct cmd as [|cmd0 cmd'].
  - by intros ->.
  - by intros stdout stderr ->.
  - intros code stdout stderr Hr ->.
    destruct r as [[[c o] e]|[]]; simpl in Hr; try done.
    by destruct cmd.
Qed.

Lemma run_command_reports_failures_witness :
  (@run_command bare_platform [lit "ffmpeg"; lit "-version"] true empty_world).1
  = Ok (-1, [], lit "Command not found: ffmpeg").
Proof.
  apply (@run_command_reports_failures bare_platform
           [lit "ffmpeg"; lit "-version"] true empty_world).
  - discriminate.
  - reflexivity.
Defined.

(** Unfolding the monad of the program. *)
Ltac io_unfold := unfold mbind, io_bind, mret, io_ret, raise, path_exists in *.

(** ** Subtitle acquisition *)

Lemma utf8_PLACEHOLDER : utf8 PLACEHOLDER = Some PLACEHOLDER.
Proof. reflexivity. Qed.

(** C5. For a probe result without an audio stream, step 2 of the
    conversion writes the placeholder document, the header line and one
    note comment, to the subtitle path, answers success and goes on; the
    calls made are those made before, so neither a transcription engine nor
    the subtitle extraction has run. *)
Theorem silent_video_placeholder `{Platform}
    (md : metadata) (video_path subtitles_path : str) (w : world) :
  has_audio md = false →
  let w' := World (<[subtitles_path := PLACEHOLDER]> (files w)) (calls w) in
  cmd_convert_subtitles md video_path subtitles_path w = (Ok true, w') ∧
  cmd_convert_step2 md video_path subtitles_path w = (Ok (), w') ∧
  split 10 PLACEHOLDER =
    [lit "WEBVTT"; [];
     lit "NOTE This video has no audio track (silent film)."; []; []].
Proof.
  intros Haudio w'.
  assert (Hsub : cmd_convert_subtitles md video_path subtitles_path w = (Ok true, w')).
  { unfold cmd_convert_subtitles. rewrite Haudio. simpl.
    unfold mbind, io_bind, write_text. by rewrite utf8_PLACEHOLDER. }
  split_and!; [done | | done].
  unfold cmd_convert_step2, mbind, io_bind. rewrite Hsub.
  unfold path_exists. subst w'. simpl.
  rewrite lookup_insert_eq. by rewrite bool_decide_eq_true_2.
Qed.

Lemma silent_video_placeholder_witness :
  @cmd_convert_subtitles bare_platform (Metadata 12.5 3 false true)
    (lit "film.mp4") (lit "film-subtitles-1a2b3c4d.vtt") empty_world
  = (Ok true, World {[ lit "film-subtitles-1a2b3c4d.vtt" := PLACEHOLDER ]} []).
Proof.
  apply (@silent_video_placeholder bare_platform (Metadata 12.5 3 false true)
           (lit "film.mp4") (lit "film-subtitles-1a2b3c4d.vtt") empty_world).
  reflexivity.
Defined.

(** The claim C6 as the specification has it fails: an extraction that
    exits with code 0 and leaves an empty file is reported as a success. *)
Lemma extraction_accepts_empty_file :
  ¬ (∀ (P : Platform) (video_path output_path : str) (w : world),
       let '(r, w') := @extract_subtitles P video_path output_path w in
       r = Ok true ↔ ∃ data, files w' !! output_path = Some data ∧ data ≠ []).
Proof.
  intros Hclaim.
  specialize (Hclaim empty_output_platform (lit "film.mp4") (lit "film.vtt") empty_world).
  vm_compute in Hclaim.
  destruct Hclaim as [Hsuccess _].
  destruct (Hsuccess eq_refl) as (data & Hdata & Hne).
  inversion Hdata. by subst.
Qed.

(** C6, amended. With audio and a subtitle stream present, the extraction
    is reported as a success exactly when [ffmpeg] exits with code 0 and
    the output file exists afterwards, whatever its size; when it is not,
    the conversion goes on with the transcription, in the world the
    extraction left. *)
Theorem extraction_success_and_fallback `{Platform}
    (md : metadata) (video_path subtitles_path : str) (w w1 : world)
    (code : Z) (stdout stderr : str) :
  run_command (extract_subtitles_cmd video_path subtitles_path) true w
    = (Ok (code, stdout, stderr), w1) →
  let extracted := bool_decide (code = 0 ∧ is_Some (files w1 !! subtitles_path)) in
  extract_subtitles video_path subtitles_path w = (Ok extracted, w1) ∧
  (has_audio md = true → has_subtitles md = true →
   cmd_convert_subtitles md video_path subtitles_path w =
     if extracted then (Ok true, w1)
     else transcribe_with_whisper video_path subtitles_path w1).
Proof.
  intros Hrun extracted.
  assert (Hext : extract_subtitles video_path subtitles_path w = (Ok extracted, w1)).
  { unfold extract_subtitles. io_unfold. rewrite Hrun. simpl.
    f_equal. f_equal. subst extracted.
    destruct (decide (code = 0)) as [->|Hne].
    - simpl. apply bool_decide_ext. intuition.
    - rewrite (bool_decide_eq_false_2 (_ ∧ _)); [|intuition].
      apply andb_false_iff. left. by apply Z.eqb_neq. }
  split; [done|].
  intros Haudio Hsubs. unfold cmd_convert_subtitles.
  rewrite Haudio, Hsubs. simpl. unfold mbind, io_bind. rewrite Hext.
  by destruct extracted.
Qed.

Lemma extraction_success_and_fallback_witness :
  @extract_subtitles empty_output_platform (lit "film.mp4") (lit "film.vtt") empty_world
  = (Ok true, World {[ lit "film.vtt" := [] ]}
                [CallProcess (extract_subtitles_cmd (lit "film.mp4") (lit "film.vtt"))]).
Proof.
  exact (proj1 (@extraction_success_and_fallback empty_output_platform
                  (Metadata 12.5 3 true true) (lit "film.mp4") (lit "film.vtt")
                  empty_world _ 0 [] [] eq_refl)).
Defined.

(** ** Output paths *)

Lemma digits_head (d : Decimal.uint) (c : N) (s : str) :
  digits d = c :: s → (48 ≤ c ≤ 57)%N.
Proof. destruct d; simpl; intros [= <- _]; lia. Qed.

Lemma digits_inj (d1 d2 : Decimal.uint) : digits d1 = digits d2 → d1 = d2.
Proof.
  revert d2. induction d1; intros [] Heq; simpl in Heq;
    try discriminate; try reflexivity; f_equal; apply IHd1; by inversion Heq.
Qed.

Lemma str_of_int_inj (a b : Z) : str_of_int a = str_of_int b → a = b.
Proof.
  unfold str_of_int. intros Heq.
  rewrite <- (DecimalZ.of_to a), <- (DecimalZ.of_to b).
  destruct (Z.to_int a) as [da|da], (Z.to_int b) as [db|db].
  - by rewrite (digits_inj _ _ Heq).
  - change (digits da = 45%N :: digits db) in Heq.
    apply digits_head in Heq. lia.
  - change (45%N :: digits da = digits db) in Heq.
    symmetry in Heq. apply digits_head in Heq. lia.
  - change (45%N :: digits da = 45%N :: digits db) in Heq.
    injection Heq as Heq. by rewrite (digits_inj _ _ Heq).
Qed.

Lemma startswith_slash_cons (c : N) (s : str) :
  startswith (lit "/") (c :: s) = (47 =? c)%N.
Proof. change (lit "/") with [47%N]. cbn [startswith]. apply andb_true_r. Qed.

Section output_paths.
Variables base_name extension directory : str.

(** The name of a candidate is [base_name] followed by a tail that does
    not begin with a slash; [joinpath] keeps such tails apart. *)
Lemma joinpath_tail_inj (t1 t2 : str) (c1 c2 : N) (s1 s2 : str) :
  t1 = c1 :: s1 → t2 = c2 :: s2 → c1 ≠ 47%N → c2 ≠ 47%N →
  joinpath directory (base_name ++ t1) = joinpath directory (base_name ++ t2) →
  t1 = t2.
Proof.
  intros -> -> Hc1 Hc2. unfold joinpath.
  destruct base_name as [|b bs]; rewrite <- ?app_comm_cons, ?app_nil_l,
    !startswith_slash_cons.
  - rewrite !(proj2 (N.eqb_neq _ _)) by done.
    repeat case_decide; try done.
    destruct (endswith (lit "/") directory).
    + by intros ?%app_inv_head.
    + by intros ?%app_inv_head%app_inv_head.
  - destruct (47 =? b)%N.
    { by intros [= ?%app_inv_head]. }
    repeat case_decide; try done.
    destruct (endswith (lit "/") directory).
    + by intros [= ?%app_inv_head]%app_inv_head.
    + by intros [= ?%app_inv_head]%app_inv_head%app_inv_head.
Qed.

Lemma candidate_inj : Inj (=) (=) (candidate base_name extension directory).
Proof.
  intros n m Heq.
  destruct n as [|n], m as [|m]; [done| | |]; unfold candidate, numbered in Heq.
  - eapply (joinpath_tail_inj _ _ 46 45) in Heq; [done|reflexivity|reflexivity|done|done].
  - eapply (joinpath_tail_inj _ _ 45 46) in Heq; [done|reflexivity|reflexivity|done|done].
  - eapply (joinpath_tail_inj _ _ 45 45) in Heq; [|reflexivity|reflexivity|done|done].
    change (lit "-") with [45%N] in Heq. injection Heq as Heq.
    apply app_inv_tail, str_of_int_inj in Heq. lia.
Qed.

Lemma candidate_succ (n : nat) :
  numbered base_name extension directory (Z.of_nat n + 1)
  = candidate base_name extension directory (S n).
Proof. unfold candidate. f_equal. lia. Qed.

(** The loop, started at candidate [k], stops at the first free candidate
    if it is given fuel for the tests up to it. *)
Lemma get_output_path_loop_finds (fs : gmap str (list N)) (j k fuel : nat) :
  (∀ i, k ≤ i < k + j → is_Some (fs !! candidate base_name extension directory i))%nat →
  fs !! candidate base_name extension directory (k + j) = None →
  (j < fuel)%nat →
  get_output_path_loop fuel base_name extension directory
    (candidate base_name extension directory k) (Z.of_nat k + 1) fs
  = Some (candidate base_name extension directory (k + j)).
Proof.
  revert k fuel. induction j as [|j IH]; intros k fuel Htaken Hfree Hfuel;
    (destruct fuel as [|fuel]; [lia|]); simpl.
  - rewrite Nat.add_0_r in Hfree |- *. rewrite Hfree.
    by rewrite bool_decide_eq_false_2; [|by intros []].
  - rewrite bool_decide_eq_true_2 by (apply Htaken; lia).
    rewrite candidate_succ.
    replace (Z.of_nat k + 1 + 1) with (Z.of_nat (S k) + 1) by lia.
    replace (k + S j)%nat with (S k + j)%nat in * by lia.
    apply IH; [|done|lia]. intros i Hi. apply Htaken. lia.
Qed.

(** Finitely many files cannot take all the candidates. *)
Lemma candidates_taken_bound (fs : gmap str (list N)) (n : nat) :
  (∀ i, i < n → is_Some (fs !! candidate base_name extension directory i))%nat →
  (n ≤ size fs)%nat.
Proof.
  intros Htaken.
  set (l := candidate base_name extension directory <$> seq 0 n).
  assert (Hnodup : NoDup l).
  { pose proof candidate_inj. apply (NoDup_fmap_2 _), NoDup_seq. }
  assert (Hsub : (list_to_set l : gset str) ⊆ dom fs).
  { intros p [i [-> Hi%elem_of_seq]]%elem_of_list_to_set%list_elem_of_fmap.
    apply elem_of_dom, Htaken. lia. }
  apply subseteq_size in Hsub.
  rewrite size_list_to_set, size_dom in Hsub by done.
  subst l. by rewrite length_fmap, length_seq in Hsub.
Qed.

Lemma first_free_candidate (fs : gmap str (list N)) :
  ∃ n, fs !! candidate base_name extension directory n = None ∧
       (∀ i, i < n → is_Some (fs !! candidate base_name extension directory i))%nat.
Proof.
  assert (Hsearch : ∀ bound,
    (∀ i, i < bound → is_Some (fs !! candidate base_name extension directory i))%nat ∨
    ∃ n, fs !! candidate base_name extension directory n = None ∧
         (∀ i, i < n → is_Some (fs !! candidate base_name extension directory i))%nat).
  { induction bound as [|bound [IH|IH]]; [left; lia| |by right].
    destruct (fs !! candidate base_name extension directory bound) eqn:Hb.
    - left. intros i Hi. destruct (decide (i = bound)) as [->|]; [by rewrite Hb|].
      apply IH. lia.
    - right. by exists bound. }
  destruct (Hsearch (S (size fs))) as [Hall|Hn]; [|done].
  apply candidates_taken_bound in Hall. lia.
Qed.
End output_paths.

(** Without a usable [specified], the search ends at the first free
    candidate, given fuel for more tests than there are files. *)
Lemma get_output_path_finds (base_name extension directory : str)
    (specified : option str) (w : world) (fuel n : nat) :
  truthy specified = false →
  (size (files w) < fuel)%nat →
  (∀ i, i < n → is_Some (files w !! candidate base_name extension directory i))%nat →
  files w !! candidate base_name extension directory n = None →
  get_output_path fuel base_name extension directory specified w
  = (Ok (Some (candidate base_name extension directory n)), w).
Proof.
  intros Hspec Hfuel Htaken Hfree. unfold get_output_path. rewrite Hspec.
  do 2 f_equal.
  apply (get_output_path_loop_finds base_name extension directory (files w) n 0 fuel).
  - intros i Hi. apply Htaken. lia.
  - done.
  - apply candidates_taken_bound in Htaken. lia.
Qed.

(** C7. When no output path is specified, [get_output_path] returns the
    first of [base.ext], [base-1.ext], [base-2.ext], ... that no file has;
    with the first [n] names taken and the next one free, that is
    candidate number [n], counted from zero. The search ends within one
    test more than there are files. *)
Theorem get_output_path_first_free (base_name extension directory : str)
    (specified : option str) (w : world) (fuel : nat) :
  truthy specified = false →
  (size (files w) < fuel)%nat →
  (∃ n, get_output_path fuel base_name extension directory specified w
        = (Ok (Some (candidate base_name extension directory n)), w) ∧
        files w !! candidate base_name extension directory n = None ∧
        (∀ i, i < n →
           is_Some (files w !! candidate base_name extension directory i))%nat) ∧
  (∀ n, (∀ i, i < n →
           is_Some (files w !! candidate base_name extension directory i))%nat →
        files w !! candidate base_name extension directory n = None →
        get_output_path fuel base_name extension directory specified w
        = (Ok (Some (candidate base_name extension directory n)), w)).
Proof.
  intros Hspec Hfuel. split.
  - destruct (first_free_candidate base_name extension directory (files w))
      as (n & Hfree & Htaken).
    exists n. split_and!; [|done..]. by apply get_output_path_finds.
  - intros n Htaken Hfree. by apply get_output_path_finds.
Qed.

Lemma get_output_path_first_free_witness :
  get_output_path 3 (lit "film") (lit "vtt") (lit "media") None two_subtitles
  = (Ok (Some (lit "media/film-2.vtt")), two_subtitles).
Proof.
  refine (proj2 (get_output_path_first_free (lit "film") (lit "vtt") (lit "media")
                   None two_subtitles 3 eq_refl _) 2%nat _ _).
  - vm_compute. lia.
  - intros [|[|i]] Hi; [vm_compute; eauto..|lia].
  - reflexivity.
Defined.

(** C10. A non-empty [specified] is returned as it is, whatever files
    exist and whatever the other arguments are: nothing is looked up. Step
    5 of the conversion then writes the subtitles to that very path, so
    what a file of that name held before is gone. *)
Theorem get_output_path_specified (fuel : nat)
    (base_name extension directory specified : str) (w : world) :
  specified ≠ [] →
  get_output_path fuel base_name extension directory (Some specified) w
  = (Ok (Some specified), w) ∧
  (∀ (result : enhancement) (raw_data vtt_data : list N),
     utf8 (raw result) = Some raw_data →
     utf8 (vtt result) = Some vtt_data →
     (size (files w) < fuel)%nat →
     ∃ log_path w',
       cmd_convert_step5 fuel base_name directory (Some specified) result w
       = (Ok (Some (log_path, specified)), w') ∧
       files w' !! specified = Some vtt_data).
Proof.
  intros Hspec.
  assert (Hget : ∀ w0 ext, get_output_path fuel base_name ext directory (Some specified) w0
                       = (Ok (Some specified), w0)).
  { intros w0 ext. unfold get_output_path. by destruct specified. }
  split; [apply Hget|].
  intros result raw_data vtt_data Hraw Hvtt Hfuel.
  destruct (first_free_candidate base_name (lit "log") directory (files w))
    as (n & Hfree & Htaken).
  eexists _, _. unfold cmd_convert_step5. io_unfold.
  rewrite (get_output_path_finds _ _ _ None w fuel n) by done.
  unfold write_text at 1. rewrite Hraw.
  rewrite Hget. unfold write_text. rewrite Hvtt. simpl.
  split; [reflexivity|]. apply lookup_insert_eq.
Qed.

Lemma get_output_path_specified_witness :
  get_output_path 0 (lit "film") (lit "vtt") (lit "media")
    (Some (lit "media/film.vtt")) two_subtitles
  = (Ok (Some (lit "media/film.vtt")), two_subtitles).
Proof.
  refine (proj1 (get_output_path_specified 0 (lit "film") (lit "vtt") (lit "media")
                   (lit "media/film.vtt") two_subtitles _)).
  discriminate.
Defined.

(** ** Downsampling *)

Section downsampling_facts.
Context `{Platform}.
Variables video_path output_path : str.

Lemma run_command_calls (cmd : list str) (capture : bool) (w : world) :
  calls (run_command cmd capture w).2 = calls w ++ [CallProcess cmd].
Proof.
  unfold run_command.
  destruct (subprocess_run cmd capture 3600 (files w)) as [[[[code out] err]|e] fs];
    [done|]. destruct e; try done. by destruct cmd.
Qed.

Lemma after_attempts_calls (ts : list target) (w : world) :
  calls (after_attempts video_path output_path ts w)
  = calls w ++ omap (λ t, CallProcess <$> target_cmd video_path output_path t) ts.
Proof.
  revert w. induction ts as [|t ts IH]; intros w; simpl.
  - by rewrite app_nil_r.
  - rewrite IH. unfold transcode.
    destruct (target_cmd video_path output_path t) as [cmd|]; simpl.
    + by rewrite run_command_calls, <- app_assoc.
    + done.
Qed.

(** One turn of the loop, by the verdict of the attempt. *)
Lemma downsample_loop_accepted (t : target) (rest : list target) (w : world) :
  attempt video_path output_path t w = Accepted →
  downsample_loop (t :: rest) video_path output_path w
  = (Ok (Some output_path), (transcode video_path output_path t w).2).
Proof.
  unfold attempt, transcode, target_cmd. simpl.
  destruct (split 120 (resolution t)) as [|width [|height [|]]]; try done.
  io_unfold.
  destruct (run_command _ true w) as [[[[code out] err]|e] w']; [|done].
  unfold get_file_size_mb, st_size. io_unfold. simpl.
  destruct (files w' !! output_path) as [data|] eqn:Hdata; [|done].
  rewrite bool_decide_eq_true_2 by eauto.
  destruct (code =? 0); [|done]. simpl. rewrite ?Hdata.
  by destruct (float_le _ _).
Qed.

Lemma downsample_loop_rejected (t : target) (rest : list target) (w : world) :
  attempt video_path output_path t w = Rejected →
  downsample_loop (t :: rest) video_path output_path w
  = downsample_loop rest video_path output_path (transcode video_path output_path t w).2.
Proof.
  unfold attempt, transcode, target_cmd. simpl.
  destruct (split 120 (resolution t)) as [|width [|height [|]]]; try done.
  io_unfold.
  destruct (run_command _ true w) as [[[[code out] err]|e] w']; [|done].
  unfold get_file_size_mb, st_size. io_unfold. simpl.
  destruct (files w' !! output_path) as [data|] eqn:Hdata.
  - rewrite bool_decide_eq_true_2 by eauto.
    destruct (code =? 0); [|done]. simpl. rewrite ?Hdata.
    by destruct (float_le _ _).
  - rewrite bool_decide_eq_false_2 by (by intros []).
    by rewrite andb_false_r.
Qed.

Lemma downsample_loop_first_fit (ts : list target) (w : world) (i : nat) (t : target) :
  ts !! i = Some t →
  (∀ j t', j < i → ts !! j = Some t' →
     attempt video_path output_path t' (after_attempts video_path output_path (take j ts) w)
     = Rejected)%nat →
  attempt video_path output_path t (after_attempts video_path output_path (take i ts) w)
  = Accepted →
  downsample_loop ts video_path output_path w
  = (Ok (Some output_path), after_attempts video_path output_path (take (S i) ts) w).
Proof.
  revert w i. induction ts as [|t0 ts IH]; intros w i Hi Hrej Hacc; [done|].
  destruct i as [|i]; simpl in Hi.
  - injection Hi as ->. by apply downsample_loop_accepted.
  - rewrite downsample_loop_rejected by (apply (Hrej 0%nat); [lia|done]).
    rewrite (IH _ i); [done|done| |done].
    intros j t' Hj Ht'. apply (Hrej (S j)); [lia|done].
Qed.

Lemma downsample_loop_no_fit (ts : list target) (w : world) :
  (∀ j t', ts !! j = Some t' →
     attempt video_path output_path t' (after_attempts video_path output_path (take j ts) w)
     = Rejected) →
  downsample_loop ts video_path output_path w
  = (Ok None, after_attempts video_path output_path ts w).
Proof.
  revert w. induction ts as [|t0 ts IH]; intros w Hrej; [done|].
  rewrite downsample_loop_rejected by (by apply (Hrej 0%nat)).
  rewrite IH; [done|]. intros j t' Ht'. by apply (Hrej (S j)).
Qed.
End downsampling_facts.

(** C3. [downsample_video] returns the video itself, with the world as it
    was and so without any transcoder run, if its size is within the
    ceiling. Otherwise it runs the transcoder for the presets in list
    order: past every preset whose attempt is rejected (the transcoder
    failed, or its output is oversized), up to the first whose attempt is
    accepted, whose output it returns; the transcoder has then run exactly
    for the presets up to that one. If every attempt is rejected, it
    returns [None]. *)
Theorem downsample_video_first_fit `{Platform}
    (video_path output_path : str) (w : world) (data : list N) :
  files w !! video_path = Some data →
  let size_mb := int_true_div (Z.of_nat (length data)) (1024 * 1024) in
  let world_after ts := after_attempts video_path output_path ts w in
  (float_le size_mb MAX_SIZE_MB = true →
     downsample_video video_path output_path w = (Ok (Some video_path), w)) ∧
  (float_le size_mb MAX_SIZE_MB = false →
     (∀ i t,
        DOWNSAMPLE_TARGETS !! i = Some t →
        (∀ j t', j < i → DOWNSAMPLE_TARGETS !! j = Some t' →
           attempt video_path output_path t' (world_after (take j DOWNSAMPLE_TARGETS))
           = Rejected)%nat →
        attempt video_path output_path t (world_after (take i DOWNSAMPLE_TARGETS))
        = Accepted →
        downsample_video video_path output_path w
        = (Ok (Some output_path), world_after (take (S i) DOWNSAMPLE_TARGETS))) ∧
     ((∀ j t', DOWNSAMPLE_TARGETS !! j = Some t' →
         attempt video_path output_path t' (world_after (take j DOWNSAMPLE_TARGETS))
         = Rejected) →
      downsample_video video_path output_path w
      = (Ok None, world_after DOWNSAMPLE_TARGETS))) ∧
  (∀ ts, calls (world_after ts)
         = calls w ++ omap (λ t, CallProcess <$> target_cmd video_path output_path t) ts).
Proof.
  intros Hvideo size_mb world_after.
  assert (Hsize : get_file_size_mb video_path w = (Ok size_mb, w)).
  { unfold get_file_size_mb, st_size. io_unfold. by rewrite Hvideo. }
  split_and!.
  - intros Hle. unfold downsample_video. io_unfold. by rewrite Hsize, Hle.
  - intros Hgt. split.
    + intros i t Hi Hrej Hacc. unfold downsample_video. io_unfold.
      rewrite Hsize, Hgt. by apply downsample_loop_first_fit with t.
    + intros Hrej. unfold downsample_video. io_unfold.
      rewrite Hsize, Hgt. by apply downsample_loop_no_fit.
  - intros ts. apply after_attempts_calls.
Qed.

Lemma downsample_video_first_fit_witness :
  @downsample_video small_platform (lit "media/film.mp4") (lit "media/film-small.mp4") one_video
  = (Ok (Some (lit "media/film-small.mp4")),
     @after_attempts small_platform (lit "media/film.mp4") (lit "media/film-small.mp4")
       (take 2 builtin_targets) one_video).
Proof.
  refine (proj1 (proj1 (proj2 (@downsample_video_first_fit small_platform
            (lit "media/film.mp4") (lit "media/film-small.mp4") one_video
            (replicate 20 0%N) eq_refl)) _) 1%nat
            (Target 5 (lit "1920x1080") (lit "5fps 1080p")) eq_refl _ _).
  - reflexivity.
  - intros [|j] t' Hj Ht'; [|lia]. injection Ht' as <-. reflexivity.
  - reflexivity.
Defined.

(** ** Text *)

Lemma startswith_prefix (p s : str) :
  startswith p s = true ↔ ∃ t, s = p ++ t.
Proof.
  revert s. induction p as [|a p IH]; intros s; simpl.
  - split; [by exists s|done].
  - destruct s as [|b s]; [split; [done|by intros [? ?]]|].
    rewrite andb_true_iff, N.eqb_eq, IH. split.
    + intros [-> [t ->]]. by exists t.
    + intros [t [= -> ->]]. eauto.
Qed.

Lemma occurs_startswith (sub s : str) (i : nat) :
  occurs sub s i ↔ (i ≤ length s)%nat ∧ startswith sub (drop i s) = true.
Proof.
  rewrite startswith_prefix. split.
  - intros (pre & post & -> & <-). split.
    + rewrite length_app. lia.
    + exists post. by rewrite drop_app_length.
  - intros [Hi [post Hpost]]. exists (take i s), post. split.
    + by rewrite <- Hpost, take_drop.
    + rewrite length_take. lia.
Qed.

Lemma occurs_cons (sub s : str) (c : N) (i : nat) :
  occurs sub (c :: s) (S i) ↔ occurs sub s i.
Proof. rewrite !occurs_startswith. simpl. by rewrite <- Nat.succ_le_mono. Qed.

Lemma occurs_drop (sub s : str) (a k : nat) :
  (a ≤ length s)%nat → occurs sub (drop a s) k ↔ occurs sub s (a + k).
Proof.
  intros Ha. rewrite !occurs_startswith, drop_drop, length_drop.
  split; intros [? ?]; (split; [lia|done]).
Qed.

Lemma find_at_first (sub s : str) (i0 : Z) (k : nat) :
  occurs sub s k → (∀ j, j < k → ¬ occurs sub s j)%nat →
  find_at sub s i0 = i0 + Z.of_nat k.
Proof.
  revert s i0. induction k as [|k IH]; intros s i0 Hk Hfirst.
  - apply occurs_startswith in Hk as [_ Hk]. rewrite drop_0 in Hk.
    destruct s; simpl; rewrite Hk; lia.
  - assert (Hnot : startswith sub s = false).
    { apply not_true_is_false. intros Hs. apply (Hfirst 0%nat); [lia|].
      apply occurs_startswith. rewrite drop_0. split; [lia|done]. }
    destruct s as [|c s].
    { apply occurs_startswith in Hk as [Hk _]. simpl in Hk. lia. }
    simpl. rewrite Hnot. rewrite (IH s (i0 + 1)).
    + lia.
    + by apply occurs_cons in Hk.
    + intros j Hj Hocc. apply (Hfirst (S j)); [lia|]. by apply occurs_cons.
Qed.

Lemma find_at_none (sub s : str) (i0 : Z) :
  (∀ k, ¬ occurs sub s k) → find_at sub s i0 = -1.
Proof.
  revert i0. induction s as [|c s IH]; intros i0 Hnone.
  - simpl. destruct (startswith sub []) eqn:Hs; [|done].
    destruct (Hnone 0%nat). apply occurs_startswith. by rewrite drop_0.
  - simpl. destruct (startswith sub (c :: s)) eqn:Hs.
    + destruct (Hnone 0%nat). apply occurs_startswith. rewrite drop_0.
      split; [simpl; lia|done].
    + apply IH. intros k Hk. apply (Hnone (S k)). by apply occurs_cons.
Qed.

Lemma slice_index_id (n i : Z) : 0 ≤ i ≤ n → slice_index n i = i.
Proof. intros Hi. unfold slice_index. rewrite (proj2 (Z.ltb_ge _ _)); lia. Qed.

Lemma find_first (sub s : str) (from i : nat) :
  first_occurrence sub s from i →
  find sub s (Z.of_nat from) = Z.of_nat i.
Proof.
  intros (Hfrom & Hocc & Hfirst). unfold find.
  assert (Hi : (i ≤ length s)%nat) by (by apply occurs_startswith in Hocc as [? _]).
  rewrite (proj2 (Z.ltb_ge _ _)) by lia.
  rewrite slice_index_id, Nat2Z.id by lia.
  rewrite (find_at_first sub _ _ (i - from)).
  - lia.
  - apply occurs_drop; [lia|]. by replace (from + (i - from))%nat with i by lia.
  - intros j Hj Hocc'. apply occurs_drop in Hocc'; [|lia].
    apply (Hfirst (from + j)%nat); [lia|done].
Qed.

Lemma find_none (sub s : str) (from : nat) :
  (∀ j, from ≤ j → ¬ occurs sub s j)%nat →
  find sub s (Z.of_nat from) = -1.
Proof.
  intros Hnone. unfold find.
  destruct (Z.ltb_spec (Z.of_nat (length s)) (Z.of_nat from)) as [|Hle]; [done|].
  rewrite slice_index_id, Nat2Z.id by lia.
  apply find_at_none. intros k Hk. apply occurs_drop in Hk; [|lia].
  apply (Hnone (from + k)%nat); [lia|done].
Qed.

Lemma occurs_or_not (sub s : str) (i : nat) : occurs sub s i ∨ ¬ occurs sub s i.
Proof.
  rewrite occurs_startswith.
  destruct (decide ((i ≤ length s)%nat ∧ startswith sub (drop i s) = true)); eauto.
Qed.

Lemma least_occurrence (sub s : str) (from i : nat) :
  (from ≤ i)%nat → occurs sub s i → ∃ k, first_occurrence sub s from k.
Proof.
  intros Hfrom Hocc.
  assert (Hsearch : ∀ bound,
    (∀ j, from ≤ j < bound → ¬ occurs sub s j)%nat ∨
    ∃ k, first_occurrence sub s from k).
  { induction bound as [|bound [IH|IH]]; [left; lia| |by right].
    destruct (decide (from ≤ bound)%nat) as [Hb|Hb];
      [destruct (occurs_or_not sub s bound) as [Hob|Hob]|].
    - right. by exists bound.
    - left. intros j Hj Hoj. destruct (decide (j = bound)) as [->|]; [done|].
      apply (IH j); [lia|done].
    - left. intros j Hj. lia. }
  destruct (Hsearch (S i)) as [Hnone|Hk]; [|done].
  destruct (Hnone i); [lia|done].
Qed.

Lemma contains_false (sub s : str) :
  contains sub s = false → ∀ i, ¬ occurs sub s i.
Proof.
  unfold contains. intros Hfind%negb_false_iff%Z.eqb_eq i Hocc.
  destruct (least_occurrence sub s 0 i) as [k Hk]; [lia|done|].
  apply find_first in Hk. change (Z.of_nat 0) with 0 in Hk. lia.
Qed.

Lemma contains_true (sub s : str) (i : nat) :
  occurs sub s i → contains sub s = true.
Proof.
  intros Hocc. destruct (contains sub s) eqn:Hc; [done|].
  by destruct (contains_false sub s Hc i).
Qed.

(** ** The response scan *)

Lemma slice_take_drop (s : str) (a b : nat) :
  (a ≤ b ≤ length s)%nat →
  slice s (Z.of_nat a) (Z.of_nat b) = take (b - a) (drop a s).
Proof.
  intros Hab. unfold slice. rewrite !slice_index_id by lia.
  by rewrite <- Nat2Z.inj_sub, !Nat2Z.id by lia.
Qed.

Lemma slice_from_drop (s : str) (a : nat) :
  (a ≤ length s)%nat → slice_from s (Z.of_nat a) = drop a s.
Proof.
  intros Ha. unfold slice_from. by rewrite slice_index_id, Nat2Z.id by lia.
Qed.

(** A span that begins with the marker has no white space to lose at its
    front. *)
Lemma strip_marker_span (s : str) (n : nat) :
  startswith WEBVTT s = true → (0 < n)%nat →
  strip (take n s) = rstrip (take n s) ∧ strip s = rstrip s.
Proof.
  intros [t ->]%startswith_prefix Hn. unfold strip.
  destruct n as [|n]; [lia|]. by split.
Qed.

Lemma marker_is_no_fence (s : str) :
  startswith WEBVTT s = true → startswith FENCE s = true → False.
Proof. by intros [t ->]%startswith_prefix. Qed.

(** The claim C2 as the specification has it fails: the span between the
    marker and the terminator is not returned as it is. *)
Lemma extraction_strips_span :
  ¬ (∀ (text : str) (i j : nat),
       first_occurrence WEBVTT text 0 i →
       first_occurrence FENCE text i j →
       call_gemini_vtt text = take (j - i) (drop i text)).
Proof.
  intros Hclaim.
  specialize (Hclaim (lit "WEBVTT" ++ [10%N] ++ lit "```") 0%nat 7%nat).
  assert (Hno : call_gemini_vtt (lit "WEBVTT" ++ [10%N] ++ lit "```") = lit "WEBVTT")
    by reflexivity.
  rewrite Hno in Hclaim. discriminate Hclaim.
  - split_and!; [lia| |lia]. by exists [], ([10%N] ++ lit "```").
  - split_and!; [lia| |].
    + by exists (lit "WEBVTT" ++ [10%N]), [].
    + intros j Hj [_ Hs]%occurs_startswith.
      do 7 (destruct j as [|j]; [discriminate Hs|]). lia.
Qed.

(** C2, amended. If the response holds the marker, the result is the span
    from its first occurrence up to the next terminator after it, or to
    the end of the text if none follows, with the white space at its end
    removed; the [extract_vtt] of the self-test leaves the white space in
    place when no terminator follows. Without a marker the response is
    returned unchanged. *)
Theorem vtt_extraction (text : str) :
  (∀ i, first_occurrence WEBVTT text 0 i →
     (∀ j, first_occurrence FENCE text i j →
        call_gemini_vtt text = rstrip (take (j - i) (drop i text)) ∧
        extract_vtt text = rstrip (take (j - i) (drop i text))) ∧
     ((∀ j, i ≤ j → ¬ occurs FENCE text j)%nat →
        call_gemini_vtt text = rstrip (drop i text) ∧
        extract_vtt text = drop i text)) ∧
  ((∀ i, ¬ occurs WEBVTT text i) →
     call_gemini_vtt text = text ∧ extract_vtt text = text).
Proof.
  split.
  - intros i Hi.
    assert (Hfind : find WEBVTT text 0 = Z.of_nat i) by (by apply (find_first _ _ 0)).
    destruct Hi as (_ & Hocc & _).
    assert (Hin : contains WEBVTT text = true) by (by apply contains_true with i).
    apply occurs_startswith in Hocc as [Hlen Hstart].
    unfold call_gemini_vtt, extract_vtt. rewrite Hin, Hfind. cbv zeta. split.
    + intros j Hj. rewrite (find_first _ _ _ _ Hj).
      destruct Hj as (Hij & [Hj Hfence]%occurs_startswith & _).
      assert (i ≠ j).
      { intros ->. by apply (marker_is_no_fence (drop j text)). }
      rewrite (proj2 (Z.gtb_lt _ _)), (proj2 (Z.eqb_neq _ _)) by lia.
      rewrite slice_take_drop by lia.
      by rewrite (proj1 (strip_marker_span (drop i text) (j - i) Hstart ltac:(lia))).
    + intros Hnone. rewrite (find_none _ _ _ Hnone).
      replace (-1 >? Z.of_nat i) with false by (rewrite Z.gtb_ltb; symmetry; apply Z.ltb_ge; lia).
      rewrite slice_from_drop by done. simpl.
      by rewrite (proj2 (strip_marker_span (drop i text) 1 Hstart ltac:(lia))).
  - intros Hnone. unfold call_gemini_vtt, extract_vtt.
    destruct (contains WEBVTT text) eqn:Hin; [|done].
    unfold contains in Hin. rewrite (find_none _ _ 0) in Hin; [done|].
    intros j _. apply Hnone.
Qed.

Lemma vtt_extraction_witness :
  call_gemini_vtt (lit "Sure: ```" ++ [10%N] ++ lit "WEBVTT" ++ [10%N] ++ lit "``` Done!")
  = lit "WEBVTT".
Proof.
  refine (proj1 (proj1 (proj1 (vtt_extraction _) 10%nat _) 17%nat _)).
  - split_and!; [lia| |].
    + by exists (lit "Sure: ```" ++ [10%N]), ([10%N] ++ lit "``` Done!").
    + intros j Hj [_ Hs]%occurs_startswith.
      do 10 (destruct j as [|j]; [discriminate Hs|]). lia.
  - split_and!; [lia| |].
    + by exists (lit "Sure: ```" ++ [10%N] ++ lit "WEBVTT" ++ [10%N]), (lit " Done!").
    + intros j Hj [_ Hs]%occurs_startswith.
      do 10 (destruct j as [|j]; [lia|]).
      do 7 (destruct j as [|j]; [discriminate Hs|]). lia.
Defined.

(** ** The file server *)

Lemma replace_from_skip (old new pre s : str) :
  replace_from old new (length pre) (pre ++ s) = replace_from old new 0 s.
Proof. induction pre as [|c pre IH]; [done|]. simpl. apply IH. Qed.

Lemma replace_absent (old new s : str) :
  (∀ i, ¬ occurs old s i) → replace old new s = s.
Proof.
  unfold replace. induction s as [|c s IH]; intros Hnone; [done|]. simpl.
  destruct (startswith old (c :: s)) eqn:Hs.
  - destruct (Hnone 0%nat). apply occurs_startswith. rewrite drop_0.
    split; [lia|done].
  - f_equal. apply IH. intros i Hi. apply (Hnone (S i)). by apply occurs_cons.
Qed.

Lemma replace_prefix (old new rest : str) :
  old ≠ [] → (∀ i, ¬ occurs old rest i) →
  replace old new (old ++ rest) = new ++ rest.
Proof.
  intros Hold Hnone. unfold replace.
  destruct old as [|c old']; [done|].
  assert (Hs : startswith (c :: old') (c :: old' ++ rest) = true).
  { apply startswith_prefix. by exists rest. }
  rewrite <- app_comm_cons. cbn [replace_from]. rewrite Hs.
  f_equal. cbn [length]. rewrite Nat.sub_succ, Nat.sub_0_r.
  rewrite replace_from_skip. by apply replace_absent.
Qed.


(** A path with a second [/media/] in it loses that one as well. *)
Example inner_media_is_dropped :
  @do_GET bare_platform (lit "/media/a/media/b.mp4") empty_world
  = (Ok (lit "media/ab.mp4"), empty_world).
Proof. reflexivity. Qed.



(** ** The configuration merge *)

Lemma dict_get_set_eq (k : str) (v : value) (d : dict) :
  dict_get k (dict_set k v d) = Some v.
Proof.
  induction d as [|[k' v'] d IH]; simpl.
  - by rewrite decide_True.
  - destruct (decide (k' = k)) as [->|Hne]; simpl.
    + by rewrite decide_True.
    + by rewrite decide_False.
Qed.

Lemma dict_get_set_ne (k k' : str) (v : value) (d : dict) :
  k ≠ k' → dict_get k' (dict_set k v d) = dict_get k' d.
Proof.
  intros Hne. induction d as [|[k0 v0] d IH]; simpl.
  - by rewrite decide_False.
  - destruct (decide (k0 = k)) as [->|Hne0]; simpl.
    + by rewrite !decide_False.
    + by rewrite IH.
Qed.

Lemma dict_get_None (k : str) (d : dict) : k ∉ d.*1 → dict_get k d = None.
Proof.
  induction d as [|[k0 v0] d IH]; [done|]. simpl.
  intros [Hne Hnot]%not_elem_of_cons. rewrite decide_False by done. by apply IH.
Qed.

(** One turn of the loop of [deep_update]. *)
Lemma deep_update_cons (base : dict) (k : str) (v : value) (rest : dict) :
  deep_update base ((k, v) :: rest)
  = deep_update (dict_set k (merged (dict_get k base) v) base) rest.
Proof.
  unfold deep_update, merged. simpl.
  by destruct v, (dict_get k base) as [[]|].
Qed.

Lemma deep_update_lookup (base update : dict) (k : str) :
  NoDup update.*1 →
  dict_get k (deep_update base update)
  = match dict_get k update with
    | Some v => Some (merged (dict_get k base) v)
    | None => dict_get k base
    end.
Proof.
  revert base. induction update as [|[k0 v0] rest IH]; intros base Hnodup; [done|].
  apply NoDup_cons in Hnodup as [Hk0 Hnodup].
  rewrite deep_update_cons, IH by done. simpl.
  destruct (decide (k0 = k)) as [->|Hne].
  - by rewrite dict_get_None, dict_get_set_eq.
  - rewrite dict_get_set_ne by done. by destruct (dict_get k rest).
Qed.

(** C4. After the merge, a key holds: the default value if the override
    has none for it; the recursive merge of the two values if both are
    mappings; and the override value, whole, in every other case, lists
    included. So an override of one leaf of one section leaves the other
    keys of that section and the other sections as they were. *)
Theorem deep_update_per_key (base update : dict) :
  NoDup update.*1 →
  (∀ k, dict_get k (deep_update base update)
        = match dict_get k update with
          | None => dict_get k base
          | Some (VDict vd) =>
              match dict_get k base with
              | Some (VDict bd) => Some (VDict (deep_update bd vd))
              | _ => Some (VDict vd)
              end
          | Some v => Some v
          end) ∧
  (∀ section leaf v sd,
     update = [(section, VDict [(leaf, v)])] →
     dict_get section base = Some (VDict sd) →
     (∀ d, v ≠ VDict d) →
     ∃ sd', dict_get section (deep_update base update) = Some (VDict sd') ∧
            dict_get leaf sd' = Some v ∧
            (∀ k, k ≠ leaf → dict_get k sd' = dict_get k sd) ∧
            (∀ s, s ≠ section → dict_get s (deep_update base update) = dict_get s base)).
Proof.
  intros Hnodup. split.
  - intros k. rewrite deep_update_lookup by done. unfold merged.
    by destruct (dict_get k update) as [[]|], (dict_get k base) as [[]|].
  - intros section leaf v sd -> Hsection Hleaf.
    exists (deep_update sd [(leaf, v)]). split_and!.
    + rewrite deep_update_lookup by done. simpl.
      by rewrite decide_True, Hsection.
    + rewrite deep_update_lookup by (apply NoDup_singleton). simpl.
      rewrite decide_True by done. unfold merged.
      destruct v; try done. by destruct (Hleaf d).
    + intros k Hk. rewrite deep_update_lookup by (apply NoDup_singleton). simpl.
      by rewrite decide_False.
    + intros s Hs. rewrite deep_update_lookup by done. simpl.
      by rewrite decide_False.
Qed.

Lemma deep_update_per_key_witness :
  dict_get (lit "video")
    (deep_update (default_config (lit "prompt.md"))
       [(lit "gemini", VDict [(lit "model", VStr (lit "gemini-2.5-flash"))])])
  = dict_get (lit "video") (default_config (lit "prompt.md")).
Proof.
  refine (proj1 (deep_update_per_key (default_config (lit "prompt.md"))
                   [(lit "gemini", VDict [(lit "model", VStr (lit "gemini-2.5-flash"))])]
                   _) (lit "video")).
  apply NoDup_singleton.
Defined.

(** A shorter list of presets in the user's file replaces the built-in
    four. *)
Example presets_are_replaced :
  let user_config :=
    VDict [(lit "video", VDict
      [(lit "downsample_targets", VList [downsample_target 1 "854x480" "1fps 480p"])])] in
  (config ← load_config (lit "prompt.md") (Some user_config);
   Ok (dict_get (lit "video") config))
  = Ok (Some (VDict
      [(lit "max_size_mb", VInt 400);
       (lit "downsample_targets", VList [downsample_target 1 "854x480" "1fps 480p"])])).
Proof. reflexivity. Qed.


(** ** The timestamp formatter *)

Lemma format_0_two_digits (n : Z) : 0 ≤ n < 100 → format_0 2 n = two_digits n.
Proof.
  intros Hn.
  assert (Hall : Forall (λ n, format_0 2 n = two_digits n) (seqZ 0 100)).
  { apply (bool_decide_unpack _). by vm_compute. }
  rewrite Forall_forall in Hall. apply Hall, elem_of_seqZ. lia.
Qed.

Lemma format_0_three_digits (n : Z) : 0 ≤ n < 1000 → format_0 3 n = three_digits n.
Proof.
  intros Hn.
  assert (Hall : Forall (λ n, format_0 3 n = three_digits n) (seqZ 0 1000)).
  { apply (bool_decide_unpack _). by vm_compute. }
  rewrite Forall_forall in Hall. apply Hall, elem_of_seqZ. lia.
Qed.

Lemma short_numeral (d : Decimal.uint) :
  (length (digits d) ≤ 2)%nat → Z.of_int (Decimal.Pos d) ≤ 99.
Proof.
  intros Hd.
  destruct d; [by vm_compute|..];
    (destruct d; [by vm_compute|..];
       (destruct d; [by vm_compute|simpl in Hd; lia..])).
Qed.

(** A count of a hundred or more has a numeral of three digits or more,
    which [format_0 2] leaves as it is. *)
Lemma str_of_int_wide (h : Z) : 100 ≤ h → (3 ≤ length (str_of_int h))%nat.
Proof.
  intros Hh. unfold str_of_int.
  pose proof (DecimalZ.of_to h) as Hof.
  destruct (Z.to_int h) as [d|d].
  - destruct (decide (length (digits d) ≤ 2)%nat) as [Hshort|]; [|lia].
    apply short_numeral in Hshort. lia.
  - simpl in Hof. pose proof (N2Z.is_nonneg (Pos.of_uint d)).
    unfold Z.of_uint in Hof. lia.
Qed.

Lemma format_0_hours_field (h : Z) : 0 ≤ h → format_0 2 h = hours_field h.
Proof.
  intros Hh. unfold hours_field.
  destruct (Z.ltb_spec h 100) as [Hlt|Hge].
  - apply format_0_two_digits. lia.
  - unfold format_0. rewrite (proj2 (Z.ltb_ge _ _)), Z.abs_eq by lia.
    pose proof (str_of_int_wide h Hge).
    by replace (2 - length (@nil N) - length (str_of_int h))%nat with 0%nat
      by (simpl; lia).
Qed.

(** *** Binary64: results that are exact *)

Lemma iter_pos_nat {A} (f : A → A) (n : positive) (x : A) :
  iter_pos f n x = Nat.iter (Pos.to_nat n) f x.
Proof.
  revert x. induction n as [n IH|n IH|]; intros x; cbn [iter_pos]; [| |done].
  - rewrite !IH, Pos2Nat.inj_xI, <- Nat.iter_add, Nat.iter_succ_r.
    f_equal. lia.
  - rewrite !IH, Pos2Nat.inj_xO, <- Nat.iter_add. f_equal. lia.
Qed.

Lemma shr_1_exact (n : nat) (p : positive) :
  Nat.iter n shr_1 (Build_shr_record (Z.pos (Nat.iter n xO p)) false false)
  = Build_shr_record (Z.pos p) false false.
Proof.
  induction n as [|n IH]; [done|]. by rewrite Nat.iter_succ_r.
Qed.

Lemma iter_xO_pow (n : nat) (p : positive) :
  Z.pos (Nat.iter n xO p) = Z.pos p * 2 ^ Z.of_nat n.
Proof.
  induction n as [|n IH]; [simpl; lia|].
  rewrite Nat2Z.inj_succ, Z.pow_succ_r by lia.
  change (Nat.iter (S n) xO p) with (xO (Nat.iter n xO p)).
  rewrite Pos2Z.inj_xO, IH. lia.
Qed.

Lemma digits2_pos_log2 (p : positive) :
  Z.pos (digits2_pos p) = Z.log2 (Z.pos p) + 1.
Proof.
  induction p as [p IH|p IH|]; [| |done].
  - change (digits2_pos p~1) with (Pos.succ (digits2_pos p)).
    rewrite Pos2Z.inj_succ, IH.
    change (Z.pos p~1) with (2 * Z.pos p + 1). rewrite Z.log2_succ_double; lia.
  - change (digits2_pos p~0) with (Pos.succ (digits2_pos p)).
    rewrite Pos2Z.inj_succ, IH.
    change (Z.pos p~0) with (2 * Z.pos p). rewrite Z.log2_double; lia.
Qed.

Lemma fexp_normal (e : Z) : -1021 ≤ e → fexp prec emax e = e - 53.
Proof. intros He. unfold fexp, SpecFloat.emin, prec, emax. lia. Qed.

(** A mantissa of 53 bits, followed by zeros, is normalised to itself. *)
Lemma binary_normalize_exact (p : positive) (n : nat) (e : Z) :
  Z.log2 (Z.pos p) = 52 → (0 < n)%nat →
  -1074 ≤ e + Z.of_nat n ≤ 971 →
  binary_normalize prec emax (Z.pos p * 2 ^ Z.of_nat n) e false
  = S754_finite false p (e + Z.of_nat n).
Proof.
  intros Hp Hn He. rewrite <- iter_xO_pow.
  set (mx := Nat.iter n xO p).
  assert (Hd : Z.pos (digits2_pos mx) = 53 + Z.of_nat n).
  { rewrite digits2_pos_log2. subst mx. rewrite iter_xO_pow.
    rewrite Z.log2_mul_pow2 by lia. lia. }
  unfold binary_normalize, binary_round, shl_align.
  rewrite Hd, fexp_normal by lia.
  replace (53 + Z.of_nat n + e - 53 - e) with (Z.of_nat n) by lia.
  destruct (Z.of_nat n) as [|np|np] eqn:Hnp; [lia| |lia].
  unfold binary_round_aux, shr_fexp. cbn [Zdigits2 shr_record_of_loc].
  rewrite Hd, fexp_normal by lia.
  replace (53 + Z.pos np + e - 53 - e) with (Z.pos np) by lia.
  cbn [shr]. rewrite iter_pos_nat.
  replace (Pos.to_nat np) with n by lia. subst mx. rewrite shr_1_exact.
  cbn [shr_m loc_of_shr_record round_nearest_even Zdigits2 shr_record_of_loc].
  rewrite digits2_pos_log2, Hp, fexp_normal by lia.
  replace (52 + 1 + (e + Z.pos np) - 53 - (e + Z.pos np)) with 0 by lia.
  cbn [shr shr_m].
  by rewrite (proj2 (Z.leb_le _ _)) by (unfold emax, prec; lia).
Qed.

Lemma float_to_Z_finite (p : positive) (e : Z) :
  Z.log2 (Z.pos p) = 52 → -1074 ≤ e ≤ 971 →
  float_to_Z (SF2Prim (S754_finite false p e))
  = Some (if 0 <=? e then Z.pos p * 2 ^ e else Z.pos p / 2 ^ (- e)).
Proof.
  intros Hp He. unfold float_to_Z, sf_to_Z. rewrite Prim2SF_SF2Prim; [done|].
  unfold valid_binary, bounded, canonical_mantissa.
  rewrite digits2_pos_log2, Hp, fexp_normal by lia.
  apply andb_true_iff. split; [apply Z.eqb_eq; lia|].
  apply Z.leb_le. unfold emax, prec. lia.
Qed.

(** The quotient of a multiple of [b] by [b] is exact. *)
Lemma int_true_div_exact (z b : Z) :
  0 < z < 2 ^ 53 → 0 < b →
  float_to_Z (int_true_div (z * b) b) = Some z.
Proof.
  intros Hz Hb. unfold int_true_div.
  assert (Hzb : 0 < z * b) by lia.
  rewrite Z.abs_eq, (proj2 (Z.eqb_neq _ _)), (proj2 (Z.ltb_ge _ _)) by lia.
  set (L := Z.log2 z).
  assert (HL : 0 ≤ L ≤ 52).
  { split; [apply Z.log2_nonneg|]. apply Z.lt_succ_r, Z.log2_lt_pow2; lia. }
  pose proof (Z.log2_mul_below z b ltac:(lia) ltac:(lia)) as Hbelow.
  pose proof (Z.log2_mul_above z b ltac:(lia) ltac:(lia)) as Habove.
  fold L in Hbelow, Habove.
  set (k := Z.max 0 (56 + Z.log2 b - Z.log2 (z * b))).
  assert (Hk : 55 - L ≤ k ≤ 56 - L) by lia.
  replace (z * b * 2 ^ k) with (z * 2 ^ k * b) by lia.
  rewrite Z.div_mul, Z.mod_mul, Z.eqb_refl by lia.
  set (p := Z.to_pos (z * 2 ^ (52 - L))).
  assert (Hp : Z.pos p = z * 2 ^ (52 - L)).
  { subst p. rewrite Z2Pos.id; [done|]. apply Z.mul_pos_pos; [lia|].
    apply Z.pow_pos_nonneg; lia. }
  assert (Hlog : Z.log2 (Z.pos p) = 52).
  { rewrite Hp, Z.log2_mul_pow2 by lia. fold L. lia. }
  replace (z * 2 ^ k) with (Z.pos p * 2 ^ Z.of_nat (Z.to_nat (k + L - 52))).
  2:{ rewrite Hp, Z2Nat.id, <- Z.mul_assoc, <- Z.pow_add_r by lia.
      do 2 f_equal. lia. }
  rewrite binary_normalize_exact by (done || lia).
  rewrite float_to_Z_finite by (done || lia).
  rewrite Z2Nat.id by lia. f_equal.
  replace (- k + (k + L - 52)) with (L - 52) by lia.
  destruct (Z.leb_spec 0 (L - 52)).
  - replace (L - 52) with 0 by lia. rewrite Hp.
    replace (52 - L) with 0 by lia. simpl. lia.
  - replace (- (L - 52)) with (52 - L) by lia. rewrite Hp.
    apply Z.div_mul. apply Z.pow_nonzero; lia.
Qed.

(** A whole number of seconds that [timedelta] takes comes back from it. *)
Lemma whole_seconds_int (z : Z) :
  0 ≤ z < 86400000000000 → whole_seconds (PyInt z) = Ok z.
Proof.
  intros Hz. unfold whole_seconds, timedelta, timedelta_of_us.
  assert (Hdays : (Z.abs (z * us_per_second / us_per_day) <=? max_delta_days) = true).
  { apply Z.leb_le. unfold us_per_day, max_delta_days.
    rewrite Z.div_mul_cancel_r by done.
    rewrite Z.abs_eq by (apply Z.div_pos; lia).
    apply Z.lt_succ_r, Z.div_lt_upper_bound; lia. }
  rewrite Hdays. cbn [mbind result_bind]. unfold total_seconds, int_of.
  destruct (decide (z = 0)) as [->|]; [done|].
  change us_per_second with (10 ^ 6).
  rewrite int_true_div_exact; [done|lia|lia].
Qed.

Lemma milliseconds_int (z : Z) : milliseconds (PyInt z) = Ok 0.
Proof. unfold milliseconds. simpl. by rewrite Z.sub_diag. Qed.

(** *** Rounding to nearest, from above *)

Lemma shr_1_nonneg (mrs : shr_record) :
  0 ≤ shr_m mrs →
  shr_m (shr_1 mrs) = shr_m mrs / 2 ∧ shr_r (shr_1 mrs) = Z.odd (shr_m mrs).
Proof.
  destruct mrs as [m r s]. cbn [shr_m]. intros Hm.
  destruct m as [|[p|p|]|p]; [done| | |done|lia]; cbn [shr_1 shr_m shr_r].
  - split; [|done]. rewrite Pos2Z.inj_xI. apply (Z.div_unique _ 2 _ 1); lia.
  - split; [|done]. rewrite Pos2Z.inj_xO. apply Z.div_unique_exact; lia.
Qed.

Lemma shr_1_iter (n : nat) (mrs : shr_record) :
  0 ≤ shr_m mrs →
  shr_m (Nat.iter n shr_1 mrs) = shr_m mrs / 2 ^ Z.of_nat n ∧
  ((0 < n)%nat → shr_r (Nat.iter n shr_1 mrs) = true →
   2 ^ Z.of_nat n ≤ 2 * (shr_m mrs mod 2 ^ Z.of_nat n)).
Proof.
  intros Hm. induction n as [|n [IHm IHr]].
  - split; [by rewrite Z.div_1_r|lia].
  - change (Nat.iter (S n) shr_1 mrs) with (shr_1 (Nat.iter n shr_1 mrs)).
    assert (Hpos : 0 < 2 ^ Z.of_nat n) by (apply Z.pow_pos_nonneg; lia).
    destruct (shr_1_nonneg (Nat.iter n shr_1 mrs)) as [Hm1 Hr1].
    { rewrite IHm. apply Z.div_pos; lia. }
    rewrite Hm1, Hr1, IHm, Nat2Z.inj_succ, Z.pow_succ_r by lia.
    split.
    + rewrite Z.div_div by lia. f_equal. lia.
    + intros _ Hodd. rewrite (Z.mul_comm 2), Z.rem_mul_r by lia.
      rewrite Zmod_odd, Hodd. pose proof (Z.mod_pos_bound (shr_m mrs) (2 ^ Z.of_nat n) Hpos).
      lia.
Qed.

Lemma round_nearest_even_upper (mrs : shr_record) :
  let m := round_nearest_even (shr_m mrs) (loc_of_shr_record mrs) in
  shr_m mrs ≤ m ∧ (shr_r mrs = false → m = shr_m mrs) ∧ m ≤ shr_m mrs + 1.
Proof.
  destruct mrs as [m [] []]; cbn [shr_m shr_r loc_of_shr_record round_nearest_even];
    try destruct (Z.even m); lia.
Qed.

Lemma shr_nonneg (mrs : shr_record) (e n : Z) :
  0 ≤ shr_m mrs →
  (shr mrs e n).2 = e + Z.max n 0 ∧
  shr_m (shr mrs e n).1 = shr_m mrs / 2 ^ Z.max n 0 ∧
  (0 < n → shr_r (shr mrs e n).1 = true → 2 ^ n ≤ 2 * (shr_m mrs mod 2 ^ n)) ∧
  (n ≤ 0 → (shr mrs e n).1 = mrs).
Proof.
  intros Hm. destruct n as [|np|np]; cbn [shr fst snd].
  - split_and!; [lia|by rewrite Z.div_1_r|lia|done].
  - rewrite iter_pos_nat.
    destruct (shr_1_iter (Pos.to_nat np) mrs Hm) as [Hq Hr].
    rewrite positive_nat_Z in Hq, Hr.
    split_and!; [lia| |intros _; apply Hr; lia|lia].
    by rewrite Z.max_l by lia.
  - split_and!; [lia|by rewrite Z.div_1_r|lia|done].
Qed.

(** What [binary_round_aux] makes of a positive mantissa is at most half a
    unit of the shifted mantissa above it, as a multiple of [2 ^ E]. *)
Lemma binary_round_aux_upper (M : positive) (E : Z) :
  let n := fexp prec emax (Z.pos (digits2_pos M) + E) - E in
  let slack := if 0 <? n then 2 ^ (n - 1) else 0 in
  match binary_round_aux prec emax false (Z.pos M) E loc_Exact with
  | S754_zero s => s = false
  | S754_finite s m e =>
      s = false ∧ E ≤ e ≤ 971 ∧ Z.pos m * 2 ^ (e - E) ≤ Z.pos M + slack
  | S754_infinity _ =>
      ∃ m e, 971 < e ∧ E ≤ e ∧ Z.pos m * 2 ^ (e - E) ≤ Z.pos M + slack
  | S754_nan => False
  end.
Proof.
  intros n slack. unfold binary_round_aux, shr_fexp.
  cbn [Zdigits2 shr_record_of_loc]. fold n.
  set (mrs0 := Build_shr_record (Z.pos M) false false).
  destruct (shr_nonneg mrs0 E n) as (He1 & Hq1 & Hr1 & Hid1); [done|].
  destruct (shr mrs0 E n) as [mrs1 e1]. cbn [fst snd] in *.
  cbn [shr_m mrs0] in Hq1, Hr1.
  set (m1 := round_nearest_even (shr_m mrs1) (loc_of_shr_record mrs1)).
  destruct (round_nearest_even_upper mrs1) as (Hlo & Hsame & Hup). fold m1 in Hlo, Hsame, Hup.
  assert (Hpow : 0 < 2 ^ Z.max n 0) by (apply Z.pow_pos_nonneg; lia).
  assert (Hq0 : 0 ≤ shr_m mrs1) by (rewrite Hq1; apply Z.div_pos; lia).
  assert (Hm1 : 0 ≤ m1 ∧ m1 * 2 ^ (e1 - E) ≤ Z.pos M + slack).
  { split; [lia|]. replace (e1 - E) with (Z.max n 0) by lia. subst slack.
    pose proof (Z.mul_div_le (Z.pos M) (2 ^ Z.max n 0) Hpow) as Hle.
    rewrite <- Hq1 in Hle.
    destruct (Z.ltb_spec 0 n) as [Hn|Hn].
    - rewrite Z.max_l in * by lia.
      destruct (shr_r mrs1) eqn:Hr; [|rewrite Hsame by done; lia].
      specialize (Hr1 Hn eq_refl).
      pose proof (Z.div_mod (Z.pos M) (2 ^ n) ltac:(lia)) as Hdm.
      rewrite <- Hq1 in Hdm.
      replace (2 ^ n) with (2 * 2 ^ (n - 1)) in *
        by (rewrite <- Z.pow_succ_r by lia; f_equal; lia).
      nia.
    - rewrite Hid1 in * by lia. subst m1 mrs0. cbn in *. lia. }
  destruct Hm1 as [Hm1 Hb1].
  set (n2 := fexp prec emax (Zdigits2 m1 + e1) - e1).
  set (mrs1' := Build_shr_record m1 false false).
  destruct (shr_nonneg mrs1' e1 n2) as (He2 & Hq2 & _ & _); [done|].
  destruct (shr mrs1' e1 n2) as [mrs2 e2]. cbn [fst snd] in *.
  cbn [shr_m mrs1'] in Hq2.
  assert (Hpow2 : 0 < 2 ^ Z.max n2 0) by (apply Z.pow_pos_nonneg; lia).
  assert (Hb2 : 0 ≤ shr_m mrs2 ∧ shr_m mrs2 * 2 ^ (e2 - E) ≤ Z.pos M + slack).
  { split; [rewrite Hq2; apply Z.div_pos; lia|].
    replace (e2 - E) with (Z.max n2 0 + (e1 - E)) by lia.
    rewrite Z.pow_add_r by lia.
    pose proof (Z.mul_div_le m1 (2 ^ Z.max n2 0) Hpow2) as Hle.
    rewrite <- Hq2 in Hle.
    assert (0 < 2 ^ (e1 - E)) by (apply Z.pow_pos_nonneg; lia).
    nia. }
  destruct Hb2 as [Hm2 Hb2].
  destruct (shr_m mrs2) as [|m2|m2]; [done| |lia].
  destruct (Z.leb_spec e2 (emax - prec)) as [Hle|Hgt].
  - split_and!; [done|lia|unfold emax, prec in Hle; lia|done].
  - exists m2, e2. unfold emax, prec in Hgt. split_and!; [lia|lia|done].
Qed.

Lemma bounded_mantissa (m : positive) (e : Z) :
  bounded prec emax m e = true →
  Z.pos m < 2 ^ 53 ∧ -1074 ≤ e ≤ 971 ∧
  (-1074 < e → Z.log2 (Z.pos m) = 52).
Proof.
  unfold bounded, canonical_mantissa, fexp, SpecFloat.emin, emax, prec.
  rewrite digits2_pos_log2.
  intros [Hc%Z.eqb_eq He%Z.leb_le]%andb_true_iff.
  split_and!; [|lia|lia|lia].
  apply Z.log2_lt_pow2; lia.
Qed.

(** A fraction below one, times a thousand, is below a thousand after
    rounding as well. *)
Lemma fraction_ms_range (mf : positive) (ef : Z) :
  bounded prec emax mf ef = true →
  Z.pos mf < 2 ^ (- ef) →
  ∃ ms, sf_to_Z (SF64mul (S754_finite false mf ef)
                   (S754_finite false 8796093022208000 (-43))) = Some ms ∧
        0 ≤ ms < 1000.
Proof.
  intros (Hmf & Hef & _)%bounded_mantissa Hlt.
  assert (Hneg : ef < 0).
  { destruct (Z.ltb_spec ef 0); [done|].
    destruct (decide (ef = 0)) as [->|]; [simpl in Hlt; lia|].
    rewrite Z.pow_neg_r in Hlt by lia. lia. }
  unfold SF64mul, SFmul. cbn [xorb].
  set (M := (mf * 8796093022208000)%positive).
  set (E := ef + -43).
  pose proof (binary_round_aux_upper M E) as Hround. cbv zeta in Hround.
  set (n := fexp prec emax (Z.pos (digits2_pos M) + E) - E) in Hround.
  set (slack := if 0 <? n then 2 ^ (n - 1) else 0) in Hround.
  assert (HM : Z.pos M = Z.pos mf * (1000 * 2 ^ 43)) by (subst M; lia).
  assert (Hpf : 0 < 2 ^ (- ef)) by (apply Z.pow_pos_nonneg; lia).
  assert (Hn : n ≤ 53).
  { subst n. unfold fexp, SpecFloat.emin, emax, prec.
    rewrite digits2_pos_log2.
    assert (Z.log2 (Z.pos M) < 106); [|subst E; lia].
    apply Z.log2_lt_pow2; [lia|]. rewrite HM.
    change (2 ^ 106) with (2 ^ 53 * 2 ^ 53). nia. }
  assert (Hslack : 0 ≤ slack ≤ 2 ^ 52).
  { subst slack. destruct (Z.ltb_spec 0 n); [|lia].
    split; [apply Z.pow_nonneg; lia|]. apply Z.pow_le_mono_r; lia. }
  assert (HE : 2 ^ (- E) = 2 ^ 43 * 2 ^ (- ef)).
  { subst E. rewrite <- Z.pow_add_r by lia. f_equal. lia. }
  assert (Hbelow : Z.pos M + slack < 1000 * 2 ^ (- E)).
  { rewrite HE, HM. change (2 ^ 52) with 4503599627370496 in Hslack.
    change (2 ^ 43) with 8796093022208. nia. }
  assert (HpE : 0 < 2 ^ (- E)) by (apply Z.pow_pos_nonneg; subst E; lia).
  destruct (binary_round_aux prec emax false (Z.pos M) E loc_Exact)
    as [s|s| |s m e]; cbn [sf_to_Z].
  - exists 0. split; [done|lia].
  - destruct Hround as (m & e & He & HEe & Hle). exfalso.
    assert (2 ^ 10 * 2 ^ (- E) ≤ 2 ^ (e - E)).
    { rewrite <- Z.pow_add_r by (subst E; lia). apply Z.pow_le_mono_r; lia. }
    assert (2 ^ (e - E) ≤ Z.pos m * 2 ^ (e - E)) by nia.
    change (2 ^ 10) with 1024 in *. lia.
  - done.
  - destruct Hround as (-> & [HEe He] & Hle).
    assert (Hbound : Z.pos m * 2 ^ (e - E) < 1000 * 2 ^ (- E)) by lia.
    destruct (Z.leb_spec 0 e) as [Hpos|Hnege].
    + eexists. split; [reflexivity|].
      replace (e - E) with (e + - E) in Hbound by lia.
      rewrite Z.pow_add_r in Hbound by (subst E; lia).
      assert (0 < 2 ^ e) by (apply Z.pow_pos_nonneg; lia).
      split; [nia|nia].
    + eexists. split; [reflexivity|].
      assert (Hpe : 0 < 2 ^ (- e)) by (apply Z.pow_pos_nonneg; lia).
      split; [apply Z.div_pos; lia|].
      pose proof (Z.mul_div_le (Z.pos m) (2 ^ (- e)) Hpe) as Hle'.
      assert (Hsplit : 2 ^ (- E) = 2 ^ (- e) * 2 ^ (e - E)).
      { rewrite <- Z.pow_add_r by lia. f_equal. lia. }
      assert (0 < 2 ^ (e - E)) by (apply Z.pow_pos_nonneg; lia).
      rewrite Hsplit in Hbound. nia.
Qed.

Lemma bounded_normal (p : positive) (e : Z) :
  Z.log2 (Z.pos p) = 52 → -1074 ≤ e ≤ 971 → bounded prec emax p e = true.
Proof.
  intros Hp He. unfold bounded, canonical_mantissa.
  rewrite digits2_pos_log2, Hp, fexp_normal by lia.
  apply andb_true_iff. split; [apply Z.eqb_eq; lia|].
  apply Z.leb_le. unfold emax, prec. lia.
Qed.

(** A mantissa of 53 bits is left as it is. *)
Lemma binary_round_aux_normal (p : positive) (e : Z) :
  Z.log2 (Z.pos p) = 52 → -1074 ≤ e ≤ 971 →
  binary_round_aux prec emax false (Z.pos p) e loc_Exact = S754_finite false p e.
Proof.
  intros Hp He. unfold binary_round_aux, shr_fexp.
  cbn [Zdigits2 shr_record_of_loc].
  rewrite digits2_pos_log2, Hp, fexp_normal by lia.
  replace (52 + 1 + e - 53 - e) with 0 by lia.
  cbn [shr shr_m loc_of_shr_record round_nearest_even Zdigits2 shr_record_of_loc].
  rewrite digits2_pos_log2, Hp, fexp_normal by lia.
  replace (52 + 1 + e - 53 - e) with 0 by lia.
  cbn [shr shr_m].
  by rewrite (proj2 (Z.leb_le _ _)) by (unfold emax, prec; lia).
Qed.

(** A shorter mantissa is shifted up to 53 bits. *)
Lemma binary_round_small (p : positive) (e : Z) :
  let s := 52 - Z.log2 (Z.pos p) in
  0 ≤ s → -1074 ≤ e - s ≤ 971 →
  ∃ q, Z.pos q = Z.pos p * 2 ^ s ∧ Z.log2 (Z.pos q) = 52 ∧
       binary_round prec emax false p e = S754_finite false q (e - s).
Proof.
  intros s Hs He. unfold binary_round, shl_align.
  rewrite digits2_pos_log2, fexp_normal by lia.
  replace (Z.log2 (Z.pos p) + 1 + e - 53 - e) with (- s) by lia.
  destruct s as [|sp|sp] eqn:Hsp; [| |lia].
  - change (- 0) with 0. cbv iota beta. exists p. rewrite Z.mul_1_r. split_and!; [done|lia|].
    rewrite Z.sub_0_r in *. apply binary_round_aux_normal; lia.
  - change (- Z.pos sp) with (Z.neg sp). cbv iota beta.
    change (PosDef.Pos.iter xO p sp) with (Pos.iter xO p sp).
    rewrite Pos2Nat.inj_iter.
    change (nat_rect _ p (λ _, xO) (Pos.to_nat sp)) with (Nat.iter (Pos.to_nat sp) xO p).
    exists (Nat.iter (Pos.to_nat sp) xO p).
    assert (Hq : Z.pos (Nat.iter (Pos.to_nat sp) xO p) = Z.pos p * 2 ^ Z.pos sp).
    { by rewrite iter_xO_pow, positive_nat_Z. }
    assert (Hlog : Z.log2 (Z.pos (Nat.iter (Pos.to_nat sp) xO p)) = 52).
    { rewrite Hq, Z.log2_mul_pow2 by lia. lia. }
    split_and!; [done..|].
    replace (Z.log2 (Z.pos p) + 1 + e - 53) with (e - Z.pos sp) by lia.
    apply binary_round_aux_normal; [done|lia].
Qed.

Lemma binary_normalize_integer (m : positive) (e : Z) :
  Z.log2 (Z.pos m) = 52 → 0 ≤ e ≤ 971 →
  binary_normalize prec emax (Z.pos m * 2 ^ e) 0 false = S754_finite false m e.
Proof.
  intros Hm He. destruct (decide (e = 0)) as [->|Hne].
  - rewrite Z.mul_1_r. cbn [binary_normalize].
    destruct (binary_round_small m 0) as (q & Hq & _ & ->); [lia..|].
    rewrite Hm in *. f_equal. simpl in Hq. lia.
  - rewrite <- (Z2Nat.id e) at 1 by lia.
    rewrite binary_normalize_exact by (done || lia).
    f_equal. lia.
Qed.

Lemma Prim2SF_float_of_Z_0 : Prim2SF (float_of_Z 0) = S754_zero false.
Proof. reflexivity. Qed.

Lemma Prim2SF_1000 : Prim2SF 1000 = S754_finite false 8796093022208000 (-43).
Proof. reflexivity. Qed.

(** The milliseconds of a float that is not negative are in range. *)
Lemma fraction_range (x : float) (i : Z) :
  (0 <=? x)%float = true →
  float_to_Z x = Some i →
  0 ≤ i ∧
  ∃ ms, float_to_Z ((x - float_of_Z i) * 1000)%float = Some ms ∧ 0 ≤ ms < 1000.
Proof.
  intros Hle Hi. rewrite leb_spec in Hle. unfold float_to_Z in *.
  rewrite mul_spec, sub_spec, Prim2SF_1000.
  pose proof (Prim2SF_valid x) as Hvalid.
  destruct (Prim2SF x) as [s|s| |s m e]; cbn [sf_to_Z] in Hi; [|done|done|].
  - injection Hi as <-. split; [done|]. rewrite Prim2SF_float_of_Z_0.
    exists 0. by destruct s.
  - destruct s; [done|]. clear Hle. injection Hi as <-.
    cbn [valid_binary] in Hvalid.
    destruct (bounded_mantissa m e Hvalid) as (Hm53 & He & Hnormal).
    destruct (Z.leb_spec 0 e) as [Hpos|Hneg].
    + (* an integer: nothing is left *)
      assert (0 < 2 ^ e) by (apply Z.pow_pos_nonneg; lia).
      split; [lia|]. unfold float_of_Z.
      rewrite binary_normalize_integer by (lia || (apply Hnormal; lia)).
      rewrite Prim2SF_SF2Prim by done.
      unfold SF64sub, SFsub. cbn [cond_Zopp]. rewrite Z.sub_diag.
      by exists 0.
    + assert (Hpe : 0 < 2 ^ (- e)) by (apply Z.pow_pos_nonneg; lia).
      split; [apply Z.div_pos; lia|].
      destruct (decide (Z.pos m / 2 ^ (- e) = 0)) as [Hzero|Hnz].
      * (* below one: the float is its own fraction *)
        rewrite Hzero, Prim2SF_float_of_Z_0.
        apply fraction_ms_range; [done|].
        apply Z.div_small_iff in Hzero; lia.
      * (* the general case *)
        assert (Hi : 0 < Z.pos m / 2 ^ (- e)).
        { pose proof (Z.div_pos (Z.pos m) (2 ^ (- e))). lia. }
        assert (Hge : 2 ^ (- e) ≤ Z.pos m).
        { destruct (Z.lt_ge_cases (Z.pos m) (2 ^ (- e))) as [Hlt|]; [|done].
          rewrite Z.div_small in Hi; lia. }
        assert (He52 : - e ≤ 52).
        { destruct (Z.le_gt_cases (- e) 52) as [|Hgt]; [done|].
          assert (2 ^ 53 ≤ 2 ^ (- e)) by (apply Z.pow_le_mono_r; lia). lia. }
        assert (Hm : Z.log2 (Z.pos m) = 52) by (apply Hnormal; lia).
        set (i := Z.pos m / 2 ^ (- e)) in *.
        assert (Hlogi : Z.log2 i = 52 + e).
        { subst i. rewrite <- Z.shiftr_div_pow2, Z.log2_shiftr by lia. lia. }
        destruct i as [|ip|ip] eqn:Hip; [lia| |lia].
        unfold float_of_Z. cbn [binary_normalize].
        destruct (binary_round_small ip 0) as (q & Hq & Hlogq & ->); [lia..|].
        rewrite Hlogi in *.
        replace (0 - (52 - (52 + e))) with e by lia.
        replace (52 - (52 + e)) with (- e) in Hq by lia.
        rewrite Prim2SF_SF2Prim by (apply bounded_normal; lia).
        unfold SF64sub, SFsub, shl_align.
        rewrite Z.min_id, Z.sub_diag. cbn [cond_Zopp fst].
        set (D := Z.pos m - Z.pos q).
        assert (HD : D = Z.pos m mod 2 ^ (- e)).
        { subst D. rewrite Hq, <- Hip. subst i. rewrite Z.mod_eq by lia. lia. }
        pose proof (Z.mod_pos_bound (Z.pos m) (2 ^ (- e)) Hpe) as HDr.
        rewrite <- HD in HDr.
        destruct D as [|dp|dp] eqn:HDp; [by exists 0| |lia].
        cbn [binary_normalize].
        assert (HlogD : Z.log2 (Z.pos dp) < - e) by (apply Z.log2_lt_pow2; lia).
        pose proof (Z.log2_nonneg (Z.pos dp)).
        destruct (binary_round_small dp e) as (qf & Hqf & Hlogqf & ->); [lia..|].
        apply fraction_ms_range; [apply bounded_normal; lia|].
        rewrite Hqf.
        replace (- (e - (52 - Z.log2 (Z.pos dp))))
          with ((52 - Z.log2 (Z.pos dp)) + - e) by lia.
        rewrite Z.pow_add_r by lia.
        assert (0 < 2 ^ (52 - Z.log2 (Z.pos dp))) by (apply Z.pow_pos_nonneg; lia).
        nia.
Qed.

Lemma milliseconds_float (x : float) (n : Z) :
  non_negative (PyFloat x) →
  int_of (PyFloat x) = Ok n →
  0 ≤ n ∧ ∃ ms, milliseconds (PyFloat x) = Ok ms ∧ 0 ≤ ms < 1000.
Proof.
  intros Hx Hn. unfold milliseconds. rewrite Hn. cbn [mbind result_bind fraction_ms].
  unfold int_of in *.
  destruct (float_to_Z x) as [i|] eqn:Hi; [|by destruct (is_nan x)].
  injection Hn as ->.
  destruct (fraction_range x n Hx Hi) as (Hpos & ms & -> & Hms).
  split; [done|]. by exists ms.
Qed.

(** C1. The formatter takes the whole seconds from [timedelta], which
    rounds to the microsecond, and the milliseconds from the value itself.
    A value within half a microsecond below a whole second is therefore
    given the seconds of the next second and the milliseconds of the one
    it is in: [to_vtt_time(1.9999999)] is [00:00:02.999], a second late,
    where the value has 1 whole second and 999 milliseconds, and
    [00:00:01.999] is the timestamp of those; so is the timestamp of the
    float next below 1. It is then the timestamp of another time as well,
    here of 2.9995. Below that half microsecond nothing is carried:
    1.9999994 and 1.75 are in second 1. *)
Theorem to_vtt_time_carries_second :
  non_negative (PyFloat 1.9999999) ∧
  int_of (PyFloat 1.9999999) = Ok 1 ∧
  milliseconds (PyFloat 1.9999999) = Ok 999 ∧
  clock 1 999 = lit "00:00:01.999" ∧
  whole_seconds (PyFloat 1.9999999) = Ok 2 ∧
  to_vtt_time (PyFloat 1.9999999) = Ok (lit "00:00:02.999") ∧
  to_vtt_time (PyFloat 0.9999999999999999) = Ok (lit "00:00:01.999") ∧
  to_vtt_time (PyFloat 2.9995) = Ok (lit "00:00:02.999") ∧
  to_vtt_time (PyFloat 1.9999994) = Ok (lit "00:00:01.999") ∧
  to_vtt_time (PyFloat 1.75) = Ok (lit "00:00:01.750").
Proof. split_and!; by vm_compute. Qed.

(** Beyond the range of [timedelta] there is no timestamp. *)
Example long_time_overflows :
  to_vtt_time (PyFloat 1e15) = Raise OverflowError.
Proof. by vm_compute. Qed.

(** The timestamp, from the whole seconds and the milliseconds that the
    formatter computes. *)
Lemma to_vtt_time_fields (seconds : number) (n ms : Z) :
  whole_seconds seconds = Ok n →
  milliseconds seconds = Ok ms →
  0 ≤ n →
  0 ≤ ms < 1000 →
  to_vtt_time seconds = Ok (clock n ms).
Proof.
  intros Hwhole Hms Hn Hmsr.
  pose proof (Z.mod_pos_bound n 3600 ltac:(lia)).
  pose proof (Z.mod_pos_bound n 60 ltac:(lia)).
  assert (0 ≤ n / 3600) by (apply Z.div_pos; lia).
  unfold to_vtt_time. rewrite Hwhole. cbn [mbind result_bind].
  rewrite Hms. cbn [mbind result_bind]. unfold clock.
  rewrite (Z.mod_mod_divide n 3600 60) by (by exists 60).
  rewrite format_0_hours_field, !format_0_two_digits, format_0_three_digits;
    [done|..]; try lia; split;
    (apply Z.div_pos; lia) || (apply Z.div_lt_upper_bound; lia).
Qed.

Lemma clock_length (n ms : Z) :
  0 ≤ n →
  (n < 360000 → length (clock n ms) = 12%nat) ∧
  (360000 ≤ n → (12 < length (clock n ms))%nat).
Proof.
  intros Hn. unfold clock, hours_field. split.
  - intros Hlt.
    by rewrite (proj2 (Z.ltb_lt _ _)) by (apply Z.div_lt_upper_bound; lia).
  - intros Hge.
    assert (100 ≤ n / 3600) by (apply Z.div_le_lower_bound; lia).
    rewrite (proj2 (Z.ltb_ge _ _)) by done.
    pose proof (str_of_int_wide (n / 3600) ltac:(done)).
    rewrite !length_app. simpl. lia.
Qed.

(** Where the formatter is right. For a whole number of seconds that
    [timedelta] takes, the timestamp is [HH:MM:SS.000]. For any seconds
    value that is not negative, with [n = int(seconds)] whole seconds which
    [timedelta] has not rounded away from, it is [HH:MM:SS.mmm] for [n] and
    for the milliseconds [int((seconds - int(seconds)) * 1000)], the
    fraction truncated toward zero, which are below a thousand. That makes
    twelve characters below 360000 seconds, and more from there on, where
    the hour field is the numeral of the hours. The four timestamps of the
    specification are as it gives them. *)
Theorem to_vtt_time_format :
  (∀ z, 0 ≤ z < 86400000000000 → to_vtt_time (PyInt z) = Ok (clock z 0)) ∧
  (∀ seconds n,
     non_negative seconds →
     int_of seconds = Ok n →
     whole_seconds seconds = Ok n →
     ∃ ms, milliseconds seconds = Ok ms ∧ 0 ≤ ms < 1000 ∧
           to_vtt_time seconds = Ok (clock n ms)) ∧
  (∀ n ms, 0 ≤ n →
     (n < 360000 → length (clock n ms) = 12%nat) ∧
     (360000 ≤ n → (12 < length (clock n ms))%nat)) ∧
  to_vtt_time (PyInt 0) = Ok (lit "00:00:00.000") ∧
  to_vtt_time (PyFloat 1.5) = Ok (lit "00:00:01.500") ∧
  to_vtt_time (PyInt 3661) = Ok (lit "01:01:01.000") ∧
  to_vtt_time (PyFloat 90.123) = Ok (lit "00:01:30.123").
Proof.
  split_and!; [| | |by vm_compute..].
  - intros z Hz. apply to_vtt_time_fields; [|apply milliseconds_int|lia..].
    by apply whole_seconds_int.
  - intros [z|x] n Hpos Hint Hwhole.
    + injection Hint as <-. exists 0. rewrite milliseconds_int.
      split; [done|]. split; [lia|].
      apply to_vtt_time_fields; [done|apply milliseconds_int|exact Hpos|lia].
    + destruct (milliseconds_float x n Hpos Hint) as (Hn & ms & Hms & Hrange).
      exists ms. split; [done|]. split; [done|]. by apply to_vtt_time_fields.
  - apply clock_length.
Qed.

Lemma to_vtt_time_format_witness :
  ∃ ms, milliseconds (PyFloat 90.123) = Ok ms ∧ 0 ≤ ms < 1000 ∧
        to_vtt_time (PyFloat 90.123) = Ok (clock 90 ms).
Proof.
  apply (proj1 (proj2 to_vtt_time_format) (PyFloat 90.123) 90); by vm_compute.
Defined.


(** * Further properties of the program *)

(** ** White space and the response scan *)

Lemma lstrip_suffix (s : str) :
  ∃ pre, s = pre ++ lstrip s ∧ Forall (λ c, isspace c = true) pre.
Proof.
  induction s as [|c s (pre & IH & Hpre)]; [by exists []|]. simpl.
  destruct (isspace c) eqn:Hc.
  - exists (c :: pre). split; [by rewrite IH at 1|by constructor].
  - by exists [].
Qed.

Lemma lstrip_head (s : str) (c : N) (t : str) :
  lstrip s = c :: t → isspace c = false.
Proof.
  induction s as [|a s IH]; [done|]. simpl.
  destruct (isspace a) eqn:Ha; [done|]. by intros [= <- _].
Qed.

Lemma lstrip_idemp (s : str) : lstrip (lstrip s) = lstrip s.
Proof.
  destruct (lstrip s) as [|c t] eqn:Hs; [done|].
  simpl. by rewrite (lstrip_head _ _ _ Hs).
Qed.

Lemma rstrip_prefix (s : str) :
  ∃ post, s = rstrip s ++ post ∧ Forall (λ c, isspace c = true) post.
Proof.
  destruct (lstrip_suffix (reverse s)) as (pre & Hs & Hpre).
  exists (reverse pre). split.
  - unfold rstrip. rewrite <- reverse_app, <- Hs. by rewrite reverse_involutive.
  - by apply Forall_reverse.
Qed.

Lemma rstrip_idemp (s : str) : rstrip (rstrip s) = rstrip s.
Proof. unfold rstrip. by rewrite reverse_involutive, lstrip_idemp. Qed.

Lemma occurs_app_l (sub s post : str) (i : nat) :
  occurs sub s i → occurs sub (s ++ post) i.
Proof.
  intros (pre & t & -> & <-). exists pre, (t ++ post).
  by rewrite <- !app_assoc.
Qed.

Lemma occurs_take (sub s : str) (n i : nat) :
  occurs sub (take n s) i → occurs sub s i ∧ (i + length sub ≤ n)%nat.
Proof.
  intros Hocc. split.
  - rewrite <- (take_drop n s). by apply occurs_app_l.
  - destruct Hocc as (pre & t & Hs & <-).
    apply (f_equal length) in Hs. rewrite length_take, !length_app in Hs. lia.
Qed.

Lemma lstrip_app_nonspace (x y : str) (c : N) (t : str) :
  y = c :: t → isspace c = false → lstrip (x ++ y) = lstrip x ++ y.
Proof.
  intros -> Hc. induction x as [|a x IH]; simpl; [by rewrite Hc|].
  by destruct (isspace a).
Qed.

Lemma rstrip_marker (t : str) : rstrip (WEBVTT ++ t) = WEBVTT ++ rstrip t.
Proof.
  unfold rstrip. rewrite reverse_app.
  rewrite (lstrip_app_nonspace _ _ 84%N (reverse (lit "WEBVT"))) by done.
  by rewrite reverse_app, reverse_involutive.
Qed.

(** The fence cannot begin inside the marker. *)
Lemma fence_after_marker (t : str) (k : nat) :
  occurs FENCE (WEBVTT ++ t) k → (6 ≤ k)%nat.
Proof.
  intros [_ Hs]%occurs_startswith.
  do 6 (destruct k as [|k]; [discriminate Hs|]). lia.
Qed.

(** The three ways the scan of a response ends, for [call_gemini] and for
    the [extract_vtt] of the self-test. *)
Lemma scan_cases (text : str) :
  (∃ i t, first_occurrence WEBVTT text 0 i ∧ drop i text = WEBVTT ++ t ∧
     ((∃ n, first_occurrence FENCE text i (i + 6 + n) ∧
            call_gemini_vtt text = WEBVTT ++ rstrip (take n t) ∧
            extract_vtt text = WEBVTT ++ rstrip (take n t)) ∨
      ((∀ j, i ≤ j → ¬ occurs FENCE text j)%nat ∧
       call_gemini_vtt text = WEBVTT ++ rstrip t ∧
       extract_vtt text = WEBVTT ++ t))) ∨
  ((∀ i, ¬ occurs WEBVTT text i) ∧
   call_gemini_vtt text = text ∧ extract_vtt text = text).
Proof.
  destruct (contains WEBVTT text) eqn:Hin.
  - left.
    assert (∃ i, first_occurrence WEBVTT text 0 i) as [i Hi].
    { destruct (find WEBVTT text 0 =? -1) eqn:Hf;
        [by unfold contains in Hin; rewrite Hf in Hin|].
      assert (Hsome : ¬ ∀ j, (0 ≤ j)%nat → ¬ occurs WEBVTT text j).
      { intros Hnone. apply (find_none _ _ 0) in Hnone.
        change (Z.of_nat 0) with 0 in Hnone. rewrite Hnone in Hf. done. }
      assert (Hsearch : ∀ bound,
        (∀ j, j < bound → ¬ occurs WEBVTT text j)%nat ∨
        ∃ k, first_occurrence WEBVTT text 0 k).
      { induction bound as [|bound [IH|IH]]; [left; lia| |by right].
        destruct (occurs_or_not WEBVTT text bound) as [Hob|Hob].
        - right. exists bound. split_and!; [lia|done|]. intros j Hj. apply IH. lia.
        - left. intros j Hj. destruct (decide (j = bound)) as [->|]; [done|].
          apply IH. lia. }
      destruct (Hsearch (S (length text))) as [Hnone|]; [|done].
      destruct Hsome. intros j _ Hj. apply (Hnone j); [|done].
      apply occurs_startswith in Hj. lia. }
    assert (Hfind : find WEBVTT text 0 = Z.of_nat i) by (by apply (find_first _ _ 0)).
    pose proof Hi as (_ & [Hlen [t Ht]%startswith_prefix]%occurs_startswith & _).
    exists i, t. split_and!; [done..|].
    assert (Hsearch : ∀ bound,
      (∀ j, i ≤ j < bound → ¬ occurs FENCE text j)%nat ∨
      ∃ k, first_occurrence FENCE text i k).
    { induction bound as [|bound [IH|IH]]; [left; lia| |by right].
      destruct (decide (i ≤ bound)%nat) as [Hb|Hb];
        [destruct (occurs_or_not FENCE text bound) as [Hob|Hob]|].
      - right. by exists bound.
      - left. intros j Hj Hoj. destruct (decide (j = bound)) as [->|]; [done|].
        apply (IH j); [lia|done].
      - left. intros j Hj. lia. }
    unfold call_gemini_vtt, extract_vtt. rewrite Hin, Hfind. cbv zeta.
    destruct (Hsearch (S (length text))) as [Hnone|[j Hj]].
    + right.
      assert (Hnone' : ∀ j, (i ≤ j)%nat → ¬ occurs FENCE text j).
      { intros j Hj Hocc. apply (Hnone j); [|done].
        apply occurs_startswith in Hocc. lia. }
      split; [done|]. rewrite (find_none _ _ _ Hnone').
      replace (-1 >? Z.of_nat i) with false
        by (rewrite Z.gtb_ltb; symmetry; apply Z.ltb_ge; lia).
      rewrite slice_from_drop by done. simpl. rewrite Ht.
      split; [|done]. unfold strip.
      change (lstrip (WEBVTT ++ t)) with (WEBVTT ++ t). apply rstrip_marker.
    + left. rewrite (find_first _ _ _ _ Hj).
      pose proof Hj as (Hij & Hocc & _).
      assert (Hk : (6 ≤ j - i)%nat).
      { apply (fence_after_marker t). rewrite <- Ht. apply occurs_drop; [done|].
        by replace (i + (j - i))%nat with j by lia. }
      remember (j - i - 6)%nat as n eqn:Hn. exists n.
      replace (i + 6 + n)%nat with j by lia. split; [done|].
      apply occurs_startswith in Hocc as [Hj' _].
      rewrite (proj2 (Z.gtb_lt _ _)), (proj2 (Z.eqb_neq _ _)) by lia.
      rewrite slice_take_drop by lia. rewrite Ht.
      replace (j - i)%nat with (length WEBVTT + n)%nat
        by (change (length WEBVTT) with 6%nat; lia).
      rewrite take_app_add. unfold strip.
      change (lstrip (WEBVTT ++ ?x)) with (WEBVTT ++ x).
      by rewrite rstrip_marker.
  - right. split; [by apply contains_false|].
    unfold call_gemini_vtt, extract_vtt. by rewrite Hin.
Qed.

Lemma no_occurrence_contains (sub s : str) :
  (∀ i, ¬ occurs sub s i) → contains sub s = false.
Proof.
  intros Hnone. unfold contains. rewrite (find_none _ _ 0); [done|].
  intros j _. apply Hnone.
Qed.

(** With the marker in the response, the document is cut out of the
    response, begins with the marker, has no white space at its end and
    holds no fence. *)
Lemma scan_marker_result (text : str) :
  contains WEBVTT text = true →
  ∃ u, call_gemini_vtt text = WEBVTT ++ rstrip u ∧
       (∀ k, ¬ occurs FENCE (WEBVTT ++ rstrip u) k) ∧
       ∃ pre post, text = pre ++ (WEBVTT ++ rstrip u) ++ post.
Proof.
  intros Hin.
  destruct (scan_cases text) as [(i & t & Hi & Ht & Hcases)|(Hnone & _)];
    [|by rewrite no_occurrence_contains in Hin].
  assert (Hlen : (i ≤ length text)%nat).
  { destruct Hi as (_ & [? _]%occurs_startswith & _). done. }
  assert (Htext : text = take i text ++ WEBVTT ++ t)
    by (by rewrite <- Ht, take_drop).
  destruct Hcases as [(n & Hj & Hcall & _)|(Hnone & Hcall & _)].
  - exists (take n t). split; [done|].
    destruct (rstrip_prefix (take n t)) as (post & Hpost & _). split.
    + intros k Hk.
      apply (occurs_app_l _ _ post) in Hk. rewrite <- app_assoc, <- Hpost in Hk.
      replace (WEBVTT ++ take n t) with (take (6 + n) (drop i text)) in Hk
        by (rewrite Ht; apply (take_app_add WEBVTT t n)).
      apply occurs_take in Hk as [Hk Hkn]. apply occurs_drop in Hk; [|done].
      destruct Hj as (_ & _ & Hfirst). apply (Hfirst (i + k)%nat); [|done].
      change (length FENCE) with 3%nat in Hkn. lia.
    + exists (take i text), (post ++ drop n t).
      rewrite <- !app_assoc, (app_assoc (rstrip _)), <- Hpost, take_drop. done.
  - exists t. split; [done|].
    destruct (rstrip_prefix t) as (post & Hpost & _). split.
    + intros k Hk.
      apply (occurs_app_l _ _ post) in Hk. rewrite <- app_assoc, <- Hpost, <- Ht in Hk.
      apply occurs_drop in Hk; [|done]. apply (Hnone (i + k)%nat); [lia|done].
    + exists (take i text), post. by rewrite <- !app_assoc, <- Hpost.
Qed.

(** X1. The document that [call_gemini] returns is a contiguous part of
    the response text. When the response holds the marker, the document
    begins with the marker and holds no fence. *)
Theorem extracted_document_shape (text : str) :
  (∃ pre post, text = pre ++ call_gemini_vtt text ++ post) ∧
  (contains WEBVTT text = true →
     startswith WEBVTT (call_gemini_vtt text) = true ∧
     ∀ k, ¬ occurs FENCE (call_gemini_vtt text) k).
Proof.
  split.
  - destruct (contains WEBVTT text) eqn:Hin.
    + destruct (scan_marker_result text Hin) as (u & -> & _ & Hpart). done.
    + exists [], []. unfold call_gemini_vtt. by rewrite Hin, app_nil_r.
  - intros Hin. destruct (scan_marker_result text Hin) as (u & -> & Hfence & _).
    split; [|done]. apply startswith_prefix. by exists (rstrip u).
Qed.

Lemma extracted_document_shape_witness :
  startswith WEBVTT
    (call_gemini_vtt (lit "Sure: ```vtt" ++ [10%N] ++ lit "WEBVTT" ++ [10%N] ++ lit "``` Done!"))
  = true.
Proof.
  exact (proj1 (proj2 (extracted_document_shape
    (lit "Sure: ```vtt" ++ [10%N] ++ lit "WEBVTT" ++ [10%N] ++ lit "``` Done!")) eq_refl)).
Defined.

(** X2. Scanning a document that [call_gemini] has already extracted
    leaves it as it is. *)
Theorem extraction_idempotent (text : str) :
  call_gemini_vtt (call_gemini_vtt text) = call_gemini_vtt text.
Proof.
  destruct (contains WEBVTT text) eqn:Hin;
    [|by unfold call_gemini_vtt at 2; rewrite Hin].
  destruct (scan_marker_result text Hin) as (u & -> & Hfence & _).
  destruct (scan_cases (WEBVTT ++ rstrip u))
    as [(i & t & Hi & Ht & Hcases)|(_ & -> & _)]; [|done].
  assert (i = 0%nat) as ->.
  { destruct Hi as (_ & _ & Hfirst). destruct i as [|i]; [done|].
    destruct (Hfirst 0%nat); [lia|]. by exists [], (rstrip u). }
  rewrite drop_0 in Ht. apply app_inv_head in Ht as <-.
  destruct Hcases as [(n & (_ & Hocc & _) & _)|(_ & -> & _)].
  - by destruct (Hfence _ Hocc).
  - by rewrite rstrip_idemp.
Qed.

(** X3. The [extract_vtt] of the self-test and the scan of [call_gemini]
    differ by the white space at the end of the document only: with the
    marker in the response, [call_gemini] returns what [extract_vtt]
    returns without that white space, and without the marker both return
    the response. What [extract_vtt] returns for a response with the marker
    begins with the marker. *)
Theorem extract_vtt_simulates_scan (text : str) :
  call_gemini_vtt text =
    (if contains WEBVTT text then rstrip (extract_vtt text) else extract_vtt text) ∧
  (if contains WEBVTT text then startswith WEBVTT (extract_vtt text) = true
   else extract_vtt text = text).
Proof.
  destruct (scan_cases text) as [(i & t & Hi & Ht & Hcases)|(Hnone & -> & ->)].
  - destruct Hi as (_ & Hocc & _). rewrite (contains_true _ _ _ Hocc).
    destruct Hcases as [(n & _ & -> & ->)|(_ & -> & ->)].
    + rewrite rstrip_marker, rstrip_idemp. split; [done|].
      apply startswith_prefix. eauto.
    + rewrite rstrip_marker. split; [done|]. apply startswith_prefix. eauto.
  - by rewrite (no_occurrence_contains _ _ Hnone).
Qed.

(** ** The size reducer *)

Section downsampling_results.
Context `{Platform}.
Variables video_path output_path : str.

Lemma get_file_size_mb_cases (path : str) (w : world) :
  match files w !! path with
  | Some data =>
      get_file_size_mb path w
      = (Ok (int_true_div (Z.of_nat (length data)) (1024 * 1024)), w)
  | None => get_file_size_mb path w = (Raise FileNotFoundError, w)
  end.
Proof.
  unfold get_file_size_mb, st_size. io_unfold.
  by destruct (files w !! path).
Qed.

Lemma downsample_loop_result (ts : list target) (w w' : world) (p : str) :
  downsample_loop ts video_path output_path w = (Ok (Some p), w') →
  p = output_path ∧
  ∃ data, files w' !! p = Some data ∧
    float_le (int_true_div (Z.of_nat (length data)) (1024 * 1024)) MAX_SIZE_MB = true.
Proof.
  revert w. induction ts as [|t ts IH]; intros w; [done|]. simpl.
  destruct (split 120 (resolution t)) as [|width [|height [|]]]; try done.
  io_unfold.
  destruct (run_command _ true w) as [[[[code out] err]|e] w1]; [|done].
  destruct (code =? 0); simpl; [|apply IH].
  destruct (bool_decide (is_Some (files w1 !! output_path))); [|apply IH].
  pose proof (get_file_size_mb_cases output_path w1) as Hsize.
  destruct (files w1 !! output_path) as [data|] eqn:Hdata; rewrite Hsize; [|done].
  destruct (float_le _ _) eqn:Hle; [|apply IH].
  intros [= <- <-]. eauto.
Qed.

Lemma downsample_loop_faulted (ts : list target) (w : world) (i : nat) (t : target) :
  ts !! i = Some t →
  (∀ j t', j < i → ts !! j = Some t' →
     attempt video_path output_path t' (after_attempts video_path output_path (take j ts) w)
     = Rejected)%nat →
  target_cmd video_path output_path t = None →
  downsample_loop ts video_path output_path w
  = (Raise ValueError, after_attempts video_path output_path (take i ts) w).
Proof.
  revert w i. induction ts as [|t0 ts IH]; intros w i Hi Hrej Hbad; [done|].
  destruct i as [|i]; simpl in Hi.
  - injection Hi as ->. unfold target_cmd in Hbad. simpl.
    by destruct (split 120 (resolution t)) as [|width [|height [|]]].
  - rewrite downsample_loop_rejected by (apply (Hrej 0%nat); [lia|done]).
    rewrite (IH _ i); [done|done| |done].
    intros j t' Hj Ht'. apply (Hrej (S j)); [lia|done].
Qed.
End downsampling_results.

(** X4. Whatever [downsample_video] returns as the video to upload is the
    original or the downsampled file, exists when it returns, and has a
    size within the ceiling. *)
Theorem downsample_video_result_fits `{Platform}
    (video_path output_path : str) (w w' : world) (p : str) :
  downsample_video video_path output_path w = (Ok (Some p), w') →
  (p = video_path ∨ p = output_path) ∧
  ∃ data, files w' !! p = Some data ∧
    float_le (int_true_div (Z.of_nat (length data)) (1024 * 1024)) MAX_SIZE_MB = true.
Proof.
  unfold downsample_video. io_unfold.
  pose proof (get_file_size_mb_cases video_path w) as Hsize.
  destruct (files w !! video_path) as [data|] eqn:Hdata; rewrite Hsize; [|done].
  destruct (float_le _ _) eqn:Hle.
  - intros [= <- <-]. eauto.
  - intros [-> Hfits]%downsample_loop_result. eauto.
Qed.

Lemma downsample_video_result_fits_witness :
  ∃ data,
    files (@downsample_video small_platform (lit "media/film.mp4")
             (lit "media/film-small.mp4") one_video).2
      !! lit "media/film-small.mp4" = Some data ∧
    float_le (int_true_div (Z.of_nat (length data)) (1024 * 1024)) (PyFloat 0.00001) = true.
Proof.
  refine (proj2 (@downsample_video_result_fits small_platform (lit "media/film.mp4")
            (lit "media/film-small.mp4") one_video _ _ _)).
  reflexivity.
Defined.

(** X5. Errors of [downsample_video]. A video file that does not exist
    makes it raise [FileNotFoundError] before anything is run. For an
    oversized video, a preset whose resolution does not split at [x] into
    a width and a height makes it raise [ValueError] once the presets
    before it have been tried and rejected; the transcoder has then run
    for those presets only. *)
Theorem downsample_video_errors `{Platform}
    (video_path output_path : str) (w : world) :
  (files w !! video_path = None →
     downsample_video video_path output_path w = (Raise FileNotFoundError, w)) ∧
  (∀ data i t,
     files w !! video_path = Some data →
     float_le (int_true_div (Z.of_nat (length data)) (1024 * 1024)) MAX_SIZE_MB = false →
     DOWNSAMPLE_TARGETS !! i = Some t →
     (∀ j t', j < i → DOWNSAMPLE_TARGETS !! j = Some t' →
        attempt video_path output_path t'
          (after_attempts video_path output_path (take j DOWNSAMPLE_TARGETS) w)
        = Rejected)%nat →
     length (split 120 (resolution t)) ≠ 2%nat →
     downsample_video video_path output_path w
     = (Raise ValueError,
        after_attempts video_path output_path (take i DOWNSAMPLE_TARGETS) w)).
Proof.
  split.
  - intros Hnone. unfold downsample_video. io_unfold.
    pose proof (get_file_size_mb_cases video_path w) as Hsize.
    rewrite Hnone in Hsize. by rewrite Hsize.
  - intros data i t Hdata Hbig Hi Hrej Hbad. unfold downsample_video. io_unfold.
    pose proof (get_file_size_mb_cases video_path w) as Hsize.
    rewrite Hdata in Hsize. rewrite Hsize, Hbig.
    apply downsample_loop_faulted with t; [done..|].
    unfold target_cmd.
    by destruct (split 120 (resolution t)) as [|width [|height [|]]].
Qed.

Lemma downsample_video_errors_witness :
  @downsample_video
    (platform_with small_ffmpeg (PyFloat 0.00001)
       [Target 10 (lit "1920x1080") (lit "10fps 1080p"); Target 5 (lit "720p") (lit "5fps 720p")])
    (lit "media/film.mp4") (lit "media/film-small.mp4") one_video
  = (Raise ValueError,
     @after_attempts
       (platform_with small_ffmpeg (PyFloat 0.00001)
          [Target 10 (lit "1920x1080") (lit "10fps 1080p"); Target 5 (lit "720p") (lit "5fps 720p")])
       (lit "media/film.mp4") (lit "media/film-small.mp4")
       [Target 10 (lit "1920x1080") (lit "10fps 1080p")] one_video).
Proof.
  refine (proj2 (@downsample_video_errors
            (platform_with small_ffmpeg (PyFloat 0.00001)
               [Target 10 (lit "1920x1080") (lit "10fps 1080p");
                Target 5 (lit "720p") (lit "5fps 720p")])
            (lit "media/film.mp4") (lit "media/film-small.mp4") one_video)
          (replicate 20 0%N) 1%nat (Target 5 (lit "720p") (lit "5fps 720p"))
          eq_refl _ eq_refl _ _).
  - reflexivity.
  - intros [|j] t' Hj Ht'; [|lia]. injection Ht' as <-. reflexivity.
  - vm_compute. discriminate.
Defined.

(** ** Subtitle acquisition, continued *)

Lemma write_segments_extends (segments : list segment) (written : str) :
  ∃ rest, (write_segments segments written).1 = written ++ rest.
Proof.
  revert written. induction segments as [|seg segments IH]; intros written; simpl.
  - exists []. by rewrite app_nil_r.
  - destruct (to_vtt_time (seg_start seg)) as [start|];
      [|by exists []; rewrite app_nil_r].
    destruct (to_vtt_time (seg_end seg)) as [end_|];
      [|by exists []; rewrite app_nil_r].
    destruct (utf8 _); [|by exists []; rewrite app_nil_r].
    edestruct IH as [rest Hrest]. rewrite Hrest.
    rewrite <- app_assoc. eauto.
Qed.

Lemma utf8_app (a b : str) :
  utf8 (a ++ b) =
    match utf8 a, utf8 b with
    | Some da, Some db => Some (da ++ db)
    | _, _ => None
    end.
Proof.
  induction a as [|c a IH]; simpl; [by destruct (utf8 b)|].
  rewrite IH. destruct (utf8_char c), (utf8 a), (utf8 b); try done.
  by rewrite app_assoc.
Qed.

Section transcription_facts.
Context `{Platform}.

Lemma write_text_ok (path text : str) (w w' : world) :
  write_text path text w = (Ok (), w') →
  ∃ data, utf8 text = Some data ∧ w' = World (<[path := data]> (files w)) (calls w).
Proof.
  unfold write_text. destruct (utf8 text) as [data|]; [|done].
  intros [= <-]. eauto.
Qed.

Lemma transcribe_using_true (e : engine) (video_path output_path : str) (w w' : world) :
  transcribe_using e video_path output_path w = (Ok true, w') →
  calls w' = calls w ++ [CallTranscribe e video_path] ∧
  ∃ body, files w' !! output_path = Some (lit "WEBVTT" ++ [10%N; 10%N] ++ body).
Proof.
  unfold transcribe_using.
  destruct transcription_language as [language|]; [|done].
  destruct (match e with MlxWhisper => _ | OpenAIWhisper => _ end _ _ _)
    as [segments|]; [|done].
  destruct (write_segments_extends segments (lit "WEBVTT" ++ [10%N; 10%N]))
    as [rest Hrest].
  destruct (write_segments _ _) as [text failure]. cbn [fst] in Hrest. subst text.
  destruct (write_text _ _ _) as [[[]|] w''] eqn:Hwrite; [|done].
  destruct failure; [done|]. intros [= <-].
  apply write_text_ok in Hwrite as (data & Hdata & ->). cbn [files calls]. split; [done|].
  rewrite lookup_insert_eq. rewrite utf8_app in Hdata.
  change (utf8 (lit "WEBVTT" ++ [10%N; 10%N]))
    with (Some (lit "WEBVTT" ++ [10%N; 10%N])) in Hdata.
  destruct (utf8 rest) as [body|]; [|done]. injection Hdata as <-.
  exists body. reflexivity.
Qed.

Lemma transcribe_with_whisper_true (video_path output_path : str) (w w' : world) :
  transcribe_with_whisper video_path output_path w = (Ok true, w') →
  (∃ e, calls w' = calls w ++ [CallTranscribe e video_path]) ∧
  ∃ body, files w' !! output_path = Some (lit "WEBVTT" ++ [10%N; 10%N] ++ body).
Proof.
  unfold transcribe_with_whisper.
  destruct HAS_MLX_WHISPER; [|destruct HAS_WHISPER; [|done]];
    intros [? ?]%transcribe_using_true; eauto.
Qed.

Lemma extract_subtitles_true (video_path output_path : str) (w w' : world) :
  extract_subtitles video_path output_path w = (Ok true, w') →
  is_Some (files w' !! output_path).
Proof.
  unfold extract_subtitles. io_unfold.
  destruct (run_command _ true w) as [[[[code out] err]|e] w1]; [|done].
  intros [= [_ Hfound%bool_decide_eq_true]%andb_true_iff <-]. done.
Qed.

Lemma cmd_convert_subtitles_true (md : metadata) (video_path subtitles_path : str)
    (w w' : world) :
  cmd_convert_subtitles md video_path subtitles_path w = (Ok true, w') →
  is_Some (files w' !! subtitles_path).
Proof.
  unfold cmd_convert_subtitles.
  destruct (has_audio md); simpl.
  - destruct (has_subtitles md).
    + unfold mbind, io_bind.
      destruct (extract_subtitles _ _ w) as [[[]|] w1] eqn:Hext; simpl; [| |done].
      * intros [= <-]. by apply extract_subtitles_true in Hext.
      * intros [_ [body ->]]%transcribe_with_whisper_true. eauto.
    + intros [_ [body ->]]%transcribe_with_whisper_true. eauto.
  - unfold mbind, io_bind.
    destruct (write_text _ _ w) as [[[]|] w1] eqn:Hwrite; [|done].
    intros [= <-]. apply write_text_ok in Hwrite as (data & _ & ->). simpl.
    rewrite lookup_insert_eq. eauto.
Qed.
End transcription_facts.

(** X6. When step 2 of the conversion reports success, the subtitle file
    exists, whichever of the three ways produced it; so the exit of step 2
    is taken exactly when success is not reported. *)
Theorem subtitles_exist_after_success `{Platform}
    (md : metadata) (video_path subtitles_path : str) (w w' : world) (success : bool) :
  cmd_convert_subtitles md video_path subtitles_path w = (Ok success, w') →
  (success = true → is_Some (files w' !! subtitles_path)) ∧
  cmd_convert_step2 md video_path subtitles_path w
  = (if success then Ok () else Raise (SystemExit 1), w').
Proof.
  intros Hsub.
  assert (Hfile : success = true → is_Some (files w' !! subtitles_path)).
  { intros ->. by apply cmd_convert_subtitles_true in Hsub. }
  split; [done|].
  unfold cmd_convert_step2. io_unfold. rewrite Hsub.
  destruct success; [|done]. cbn [negb orb].
  by rewrite bool_decide_eq_true_2 by auto.
Qed.

Lemma subtitles_exist_after_success_witness :
  @cmd_convert_step2 (platform_with_engines false true no_engine one_sentence)
    (Metadata 12.5 3 true false) (lit "film.mp4") (lit "film-subtitles-1a2b3c4d.vtt")
    empty_world
  = (Ok (),
     World {[ lit "film-subtitles-1a2b3c4d.vtt" :=
                lit "WEBVTT" ++ [10%N; 10%N] ++
                lit "00:00:00.000 --> 00:00:02.000" ++ [10%N] ++
                lit "Hello." ++ [10%N; 10%N] ]}
       [CallTranscribe OpenAIWhisper (lit "film.mp4")]).
Proof.
  refine (proj2 (@subtitles_exist_after_success
            (platform_with_engines false true no_engine one_sentence)
            (Metadata 12.5 3 true false) (lit "film.mp4")
            (lit "film-subtitles-1a2b3c4d.vtt") empty_world _ true _)).
  reflexivity.
Defined.

(** X7. With an audio track and no transcription library installed, the
    conversion ends at step 2 with exit code 1: at once when the video has
    no subtitle stream, and after the failed extraction when it has one.
    No transcription is attempted and no subtitle file is written by
    step 2 itself. *)
Theorem no_engine_is_fatal `{Platform}
    (md : metadata) (video_path subtitles_path : str) (w : world) :
  HAS_MLX_WHISPER = false → HAS_WHISPER = false → has_audio md = true →
  (has_subtitles md = false →
     cmd_convert_step2 md video_path subtitles_path w = (Raise (SystemExit 1), w)) ∧
  (has_subtitles md = true →
     ∀ w1, extract_subtitles video_path subtitles_path w = (Ok false, w1) →
           cmd_convert_step2 md video_path subtitles_path w = (Raise (SystemExit 1), w1)).
Proof.
  intros Hmlx Hwhisper Haudio.
  unfold cmd_convert_step2, cmd_convert_subtitles, transcribe_with_whisper.
  rewrite Hmlx, Hwhisper, Haudio. cbn [negb]. split.
  - by intros ->.
  - intros -> w1 Hext. io_unfold. by rewrite Hext.
Qed.

Lemma no_engine_is_fatal_witness :
  @cmd_convert_step2 bare_platform (Metadata 12.5 3 true false)
    (lit "film.mp4") (lit "film-subtitles-1a2b3c4d.vtt") empty_world
  = (Raise (SystemExit 1), empty_world).
Proof.
  exact (proj1 (@no_engine_is_fatal bare_platform (Metadata 12.5 3 true false)
                  (lit "film.mp4") (lit "film-subtitles-1a2b3c4d.vtt") empty_world
                  eq_refl eq_refl eq_refl) eq_refl).
Defined.



(** X9. A transcription that reports success has called one engine once,
    the MLX one if its library is installed, and has left a subtitle file
    that begins with the header line and an empty line. *)
Theorem transcription_writes_header `{Platform}
    (video_path output_path : str) (w w' : world) :
  transcribe_with_whisper video_path output_path w = (Ok true, w') →
  calls w' = calls w ++
    [CallTranscribe (if HAS_MLX_WHISPER then MlxWhisper else OpenAIWhisper) video_path] ∧
  ∃ body, files w' !! output_path = Some (lit "WEBVTT" ++ [10%N; 10%N] ++ body).
Proof.
  unfold transcribe_with_whisper.
  destruct HAS_MLX_WHISPER; [|destruct HAS_WHISPER; [|done]];
    by intros [? ?]%transcribe_using_true.
Qed.

Lemma transcription_writes_header_witness :
  ∃ body,
    files (@transcribe_with_whisper (platform_with_engines false true no_engine one_sentence)
             (lit "film.mp4") (lit "film.vtt") empty_world).2 !! lit "film.vtt"
    = Some (lit "WEBVTT" ++ [10%N; 10%N] ++ body).
Proof.
  refine (proj2 (@transcription_writes_header
            (platform_with_engines false true no_engine one_sentence)
            (lit "film.mp4") (lit "film.vtt") empty_world _ _)).
  reflexivity.
Defined.

(** ** Saving the outputs *)

Lemma get_output_path_loop_free (fuel : nat) (base_name extension directory : str)
    (output : str) (counter : Z) (fs : gmap str (list N)) (p : str) :
  get_output_path_loop fuel base_name extension directory output counter fs = Some p →
  fs !! p = None.
Proof.
  revert output counter. induction fuel as [|fuel IH]; intros output counter; [done|].
  simpl. destruct (fs !! output) as [data|] eqn:Hout.
  - rewrite bool_decide_eq_true_2 by eauto. apply IH.
  - rewrite bool_decide_eq_false_2 by (by intros []). by intros [= <-].
Qed.

Lemma write_text_files (path text : str) (w : world) :
  ∃ data, (write_text path text w).2 = World (<[path := data]> (files w)) (calls w).
Proof. unfold write_text. destruct (utf8 text); eauto. Qed.

(** X10. Without an output path given, step 5 of the conversion leaves
    every file that exists as it is, whether it ends well or not, and runs
    nothing. Given fuel for more tests than there are files and one more,
    and a response and a document that can be encoded, it ends well: the
    log goes to the first free name of [base.log], [base-1.log], ... and
    the subtitles to the first free name of [base.vtt], [base-1.vtt], ...,
    two new files, which hold the whole response and the extracted
    document, and these two are all that has changed. *)
Theorem step5_writes_two_new_files
    (fuel : nat) (base_name work_dir : str) (output_vtt : option str)
    (r : result (option (str * str))) (result : enhancement) (w w' : world) :
  truthy output_vtt = false →
  cmd_convert_step5 fuel base_name work_dir output_vtt result w = (r, w') →
  (∀ p, is_Some (files w !! p) → files w' !! p = files w !! p) ∧
  calls w' = calls w ∧
  (∀ log_path output_path, r = Ok (Some (log_path, output_path)) →
     log_path ≠ output_path ∧
     files w !! log_path = None ∧ files w !! output_path = None ∧
     files w' !! log_path = utf8 (raw result) ∧
     files w' !! output_path = utf8 (vtt result)) ∧
  (∀ log doc,
     (size (files w) + 1 < fuel)%nat →
     utf8 (raw result) = Some log → utf8 (vtt result) = Some doc →
     ∃ n m,
       let log_path := candidate base_name (lit "log") work_dir n in
       let output_path := candidate base_name (lit "vtt") work_dir m in
       r = Ok (Some (log_path, output_path)) ∧
       files w' = <[output_path := doc]> (<[log_path := log]> (files w)) ∧
       (∀ i, i < n →
          is_Some (files w !! candidate base_name (lit "log") work_dir i))%nat ∧
       (∀ i, i < m →
          is_Some (files w !! candidate base_name (lit "vtt") work_dir i))%nat).
Proof.
  intros Hnone Hrun.
  assert (Hframe :
    (∀ p, is_Some (files w !! p) → files w' !! p = files w !! p) ∧
    calls w' = calls w ∧
    (∀ log_path output_path, r = Ok (Some (log_path, output_path)) →
       log_path ≠ output_path ∧
       files w !! log_path = None ∧ files w !! output_path = None ∧
       files w' !! log_path = utf8 (raw result) ∧
       files w' !! output_path = utf8 (vtt result))).
  { revert Hrun. unfold cmd_convert_step5, get_output_path. io_unfold.
    rewrite Hnone. cbn [truthy].
    destruct (get_output_path_loop fuel base_name (lit "log") work_dir _ 1 (files w))
      as [log_path|] eqn:Hlog; [|by intros [= <- <-]].
    apply get_output_path_loop_free in Hlog.
    unfold write_text at 1.
    destruct (utf8 (raw result)) as [log|] eqn:Hraw; cbn [files calls].
    - destruct (get_output_path_loop fuel base_name (lit "vtt") work_dir _ 1 _)
        as [output_path|] eqn:Hout.
      + apply get_output_path_loop_free in Hout.
        apply lookup_insert_None in Hout as [Hout Hne].
        unfold write_text.
        destruct (utf8 (vtt result)) as [doc|] eqn:Hvtt; cbn [files calls];
          intros [= <- <-]; cbn [files calls].
        * split_and!; [|done|].
          -- intros p [data Hp]. by rewrite !lookup_insert_ne by congruence.
          -- intros ? ? [= <- <-]. split_and!; [done..| |].
             ++ by rewrite lookup_insert_ne, lookup_insert_eq by done.
             ++ by rewrite lookup_insert_eq.
        * split_and!; [|done|done].
          intros p [data Hp]. by rewrite !lookup_insert_ne by congruence.
      + intros [= <- <-]. cbn [files calls]. split_and!; [|done|done].
        intros p [data Hp]. by rewrite lookup_insert_ne by congruence.
    - intros [= <- <-]. cbn [files calls]. split_and!; [|done|done].
      intros p [data Hp]. by rewrite lookup_insert_ne by congruence. }
  destruct Hframe as (Hkept & Hcalls & Hnew). split_and!; [done..|].
  intros log doc Hfuel Hraw Hvtt.
  destruct (first_free_candidate base_name (lit "log") work_dir (files w))
    as (n & Hnfree & Hntaken).
  set (log_path := candidate base_name (lit "log") work_dir n) in *.
  set (w1 := World (<[log_path := log]> (files w)) (calls w)).
  destruct (first_free_candidate base_name (lit "vtt") work_dir (files w1))
    as (m & Hmfree & Hmtaken).
  set (output_path := candidate base_name (lit "vtt") work_dir m) in *.
  assert (Hsize : size (files w1) = S (size (files w))).
  { subst w1. cbn [files]. by rewrite map_size_insert_None. }
  assert (Hstep : cmd_convert_step5 fuel base_name work_dir output_vtt result w
                  = (Ok (Some (log_path, output_path)),
                     World (<[output_path := doc]> (files w1)) (calls w1))).
  { unfold cmd_convert_step5. io_unfold.
    rewrite (get_output_path_finds _ _ _ None w fuel n) by (done || lia).
    unfold write_text at 1. rewrite Hraw. fold log_path. fold w1.
    rewrite (get_output_path_finds _ _ _ output_vtt w1 fuel m) by (done || lia).
    unfold write_text. by rewrite Hvtt. }
  rewrite Hstep in Hrun. injection Hrun as <- <-.
  exists n, m. cbv zeta. fold log_path output_path.
  split_and!; [done|done|done|].
  intros i Hi. destruct (Hmtaken i Hi) as [data Hdata].
  subst w1. cbn [files] in Hdata, Hmfree.
  apply lookup_insert_None in Hmfree as [_ Hne].
  destruct (decide (log_path = candidate base_name (lit "vtt") work_dir i)) as [Heq|Hneq].
  - (* the log has an extension of its own *)
    exfalso. subst log_path. unfold candidate, numbered in Heq.
    destruct n as [|n], i as [|i].
    + by apply (joinpath_tail_inj base_name work_dir _ _ 46 46 _ _ eq_refl eq_refl) in Heq.
    + by apply (joinpath_tail_inj base_name work_dir _ _ 46 45 _ _ eq_refl eq_refl) in Heq.
    + by apply (joinpath_tail_inj base_name work_dir _ _ 45 46 _ _ eq_refl eq_refl) in Heq.
    + apply (joinpath_tail_inj base_name work_dir _ _ 45 45 _ _ eq_refl eq_refl) in Heq;
        [|done..].
      change (lit "-") with [45%N] in Heq. injection Heq as Heq.
      apply (f_equal reverse) in Heq. rewrite !reverse_app in Heq.
      by change (reverse (lit "." ++ lit "log")) with (lit "gol.") in Heq;
         change (reverse (lit "." ++ lit "vtt")) with (lit "ttv.") in Heq.
  - rewrite lookup_insert_ne in Hdata by done. eauto.
Qed.

Lemma step5_writes_two_new_files_witness :
  ∃ n m,
    let log_path := candidate (lit "film") (lit "log") (lit "media") n in
    let output_path := candidate (lit "film") (lit "vtt") (lit "media") m in
    (cmd_convert_step5 4 (lit "film") (lit "media") None
       (call_gemini_result (lit "```" ++ [10%N] ++ lit "WEBVTT" ++ [10%N] ++ lit "```"))
       two_subtitles).1
    = Ok (Some (log_path, output_path)) ∧
    files (cmd_convert_step5 4 (lit "film") (lit "media") None
             (call_gemini_result (lit "```" ++ [10%N] ++ lit "WEBVTT" ++ [10%N] ++ lit "```"))
             two_subtitles).2
    = <[output_path := lit "WEBVTT"]>
        (<[log_path := lit "```" ++ [10%N] ++ lit "WEBVTT" ++ [10%N] ++ lit "```"]>
           (files two_subtitles)) ∧
    (∀ i, i < n →
       is_Some (files two_subtitles !! candidate (lit "film") (lit "log") (lit "media") i))%nat ∧
    (∀ i, i < m →
       is_Some (files two_subtitles !! candidate (lit "film") (lit "vtt") (lit "media") i))%nat.
Proof.
  refine (proj2 (proj2 (proj2 (step5_writes_two_new_files 4 (lit "film") (lit "media") None
    _ (call_gemini_result (lit "```" ++ [10%N] ++ lit "WEBVTT" ++ [10%N] ++ lit "```"))
    two_subtitles _ eq_refl (surjective_pairing _))))
    (lit "```" ++ [10%N] ++ lit "WEBVTT" ++ [10%N] ++ lit "```") (lit "WEBVTT") _ eq_refl eq_refl).
  vm_compute. lia.
Defined.

(** ** The file server, continued *)

(** X11. A request path that decodes to [/media/] followed by an absolute
    path, with no further [/media/] in it, is resolved to that absolute
    path itself, not to a file of the media directory. *)
Theorem media_request_absolute_rest `{Platform} (path rest : str) (w : world) :
  unquote path = lit "/media/" ++ rest →
  startswith (lit "/") rest = true →
  (∀ i, ¬ occurs (lit "/media/") rest i) →
  translate_path path w = (Ok rest, w) ∧
  (path ≠ lit "/" → do_GET path w = (Ok rest, w)).
Proof.
  intros Hpath Habs Hnone.
  assert (Htranslate : translate_path path w = (Ok rest, w)).
  { unfold translate_path. rewrite Hpath.
    replace (startswith (lit "/media/") (lit "/media/" ++ rest)) with true
      by (symmetry; apply startswith_prefix; eauto).
    rewrite replace_prefix by done.
    unfold joinpath. cbn [app]. by rewrite Habs. }
  split; [done|].
  intros Hne. unfold do_GET. by rewrite decide_False.
Qed.

Lemma media_request_absolute_rest_witness :
  @translate_path bare_platform (lit "/media//etc/passwd") empty_world
  = (Ok (lit "/etc/passwd"), empty_world).
Proof.
  refine (proj1 (@media_request_absolute_rest bare_platform (lit "/media//etc/passwd")
                   (lit "/etc/passwd") empty_world eq_refl eq_refl _)).
  apply contains_false. reflexivity.
Defined.

(** ** The configuration, continued *)






(** ** The cost estimate *)





(** A token count whose millions are beyond the float range stops the
    estimate with Python's [OverflowError]. Below that the estimate is
    returned, as an infinity when the price leaves the float range. *)
Example estimate_cost_overflow :
  estimate_cost (λ s, s) (lit "gemini-1.5-pro") (10 ^ 315) 0 = Raise OverflowError ∧
  estimate_cost (λ s, s) (lit "gemini-1.5-pro") 0 (10 ^ 315) = Raise OverflowError ∧
  estimate_cost (λ s, s) (lit "gemini-1.5-pro") (10 ^ 314) 0 = Ok infinity ∧
  estimate_cost (λ s, s) (lit "gemini-1.5-pro") (2 * 10 ^ 6) (10 ^ 6) = Ok 17.5%float.
Proof. split_and!; by vm_compute. Qed.

(** ** The API key *)

(** X14. The key that [get_api_key] returns is never empty. It is the
    environment's key whenever that is set and not empty, whatever
    [secrets.json] holds; otherwise it is the string that the object in
    [secrets.json] holds at [GEMINI_API_KEY], and that string does not
    begin with [YOUR_]. *)
Theorem get_api_key_sources (environ_key : option str) (secrets : option (option value)) :
  (truthy environ_key = true → get_api_key environ_key secrets = Ok environ_key) ∧
  (∀ key, get_api_key environ_key secrets = Ok (Some key) →
     key ≠ [] ∧
     (environ_key = Some key ∨
      truthy environ_key = false ∧
      ∃ d, secrets = Some (Some (VDict d)) ∧
           dict_get (lit "GEMINI_API_KEY") d = Some (VStr key) ∧
           startswith (lit "YOUR_") key = false)).
Proof.
  unfold get_api_key. split.
  - by intros ->.
  - intros key. destruct (truthy environ_key) eqn:Henv.
    + intros [= ->]. split; [by intros ->|by left].
    + destruct secrets as [[[| | | | | |d]|]|]; try done.
      destruct (dict_get _ d) as [v|] eqn:Hd; [|done].
      destruct (value_truthy v) eqn:Hv; [|done].
      destruct v as [| | | |s| |]; try done.
      destruct (startswith _ s) eqn:Hplace; [done|].
      intros [= ->]. split.
      * intros ->. done.
      * right. split; [done|]. by exists d.
Qed.

Lemma get_api_key_sources_witness :
  get_api_key (Some (lit "AIza-environment"))
    (Some (Some (VDict [(lit "GEMINI_API_KEY", VStr (lit "YOUR_API_KEY_HERE"))])))
  = Ok (Some (lit "AIza-environment")).
Proof.
  exact (proj1 (get_api_key_sources (Some (lit "AIza-environment"))
                  (Some (Some (VDict [(lit "GEMINI_API_KEY", VStr (lit "YOUR_API_KEY_HERE"))]))))
               eq_refl).
Defined.

(** ** The check mode *)

Lemma check_command_cases `{Platform} (name : str) (cmd : list str) (w : world) :
  match run_command cmd true w with
  | (Ok (code, _, _), w') => check_command name cmd w = (Ok (code =? 0), w')
  | (Raise e, w') => check_command name cmd w = (Raise e, w')
  end.
Proof.
  unfold check_command. io_unfold.
  by destruct (run_command cmd true w) as [[[[code out] err]|e] w'].
Qed.

(** X15. A check that returns has run [ffmpeg -version] and then
    [ffprobe -version], the second whatever the first answered, and after
    them only what [platform.processor()] starts. It returns [True]
    exactly when both have exited with code 0, one of the transcription
    libraries is installed and the Gemini library is installed: whether an
    API key is configured does not count, as long as looking for it
    raises nothing. *)
Theorem cmd_check_verdict `{Platform} (HAS_GENAI : bool)
    (environ_key : option str) (secrets : option (option value))
    (platform_processor : io str) (w w' : world) (all_ok : bool) :
  cmd_check HAS_GENAI environ_key secrets platform_processor w = (Ok all_ok, w') →
  ∃ code1 out1 err1 w1 code2 out2 err2 w2 processor,
    run_command [lit "ffmpeg"; lit "-version"] true w = (Ok (code1, out1, err1), w1) ∧
    run_command [lit "ffprobe"; lit "-version"] true w1 = (Ok (code2, out2, err2), w2) ∧
    calls w2 = calls w ++ [CallProcess [lit "ffmpeg"; lit "-version"];
                           CallProcess [lit "ffprobe"; lit "-version"]] ∧
    (∃ key, get_api_key environ_key secrets = Ok key) ∧
    platform_processor w2 = (Ok processor, w') ∧
    all_ok = (code1 =? 0) && (code2 =? 0) && (HAS_MLX_WHISPER || HAS_WHISPER) && HAS_GENAI.
Proof.
  unfold cmd_check. unfold mbind at 1, io_bind at 1.
  pose proof (check_command_cases (lit "ffmpeg") [lit "ffmpeg"; lit "-version"] w) as H1.
  destruct (run_command [lit "ffmpeg"; lit "-version"] true w)
    as [[[[code1 out1] err1]|e1] w1] eqn:Hrun1; rewrite H1; [|done].
  unfold mbind at 1, io_bind at 1.
  pose proof (check_command_cases (lit "ffprobe") [lit "ffprobe"; lit "-version"] w1) as H2.
  destruct (run_command [lit "ffprobe"; lit "-version"] true w1)
    as [[[[code2 out2] err2]|e2] w2] eqn:Hrun2; rewrite H2; [|done].
  destruct (get_api_key environ_key secrets) as [key|e]; [|done].
  io_unfold.
  destruct (platform_processor w2) as [[processor|e] w3] eqn:Hprocessor; [|done].
  intros [= <- <-]. exists code1, out1, err1, w1, code2, out2, err2, w2, processor.
  split_and!; [done|done| |by exists key|done|].
  - pose proof (run_command_calls [lit "ffmpeg"; lit "-version"] true w) as Hc1.
    pose proof (run_command_calls [lit "ffprobe"; lit "-version"] true w1) as Hc2.
    rewrite Hrun1 in Hc1. rewrite Hrun2 in Hc2. cbn [snd] in Hc1, Hc2.
    by rewrite Hc2, Hc1, <- app_assoc.
  - cbn [andb]. by destruct (code1 =? 0), (code2 =? 0), HAS_MLX_WHISPER, HAS_WHISPER, HAS_GENAI.
Qed.

Lemma cmd_check_verdict_witness :
  ∃ code1 out1 err1 w1 code2 out2 err2 w2 processor,
    @run_command bare_platform [lit "ffmpeg"; lit "-version"] true empty_world
    = (Ok (code1, out1, err1), w1) ∧
    @run_command bare_platform [lit "ffprobe"; lit "-version"] true w1
    = (Ok (code2, out2, err2), w2) ∧
    calls w2 = calls empty_world ++ [CallProcess [lit "ffmpeg"; lit "-version"];
                                     CallProcess [lit "ffprobe"; lit "-version"]] ∧
    (∃ key, get_api_key (Some (lit "AIza-environment")) None = Ok key) ∧
    uname_processor w2
    = (Ok processor,
       World ∅ [CallProcess [lit "ffmpeg"; lit "-version"];
                CallProcess [lit "ffprobe"; lit "-version"];
                CallProcess [lit "uname"; lit "-p"]]) ∧
    false = (code1 =? 0) && (code2 =? 0) &&
            (@HAS_MLX_WHISPER bare_platform || @HAS_WHISPER bare_platform) && true.
Proof.
  exact (@cmd_check_verdict bare_platform true (Some (lit "AIza-environment")) None
           uname_processor empty_world _ false eq_refl).
Defined.

(** ** The stream scan *)

(** X16. The scan of the streams that [ffprobe] lists ends well exactly
    when every stream is an object, and raises [AttributeError] otherwise.
    When it ends well, it reports subtitles exactly when some stream has
    the codec type [subtitle], and audio exactly when some stream has the
    codec type [audio]. *)
Theorem scan_streams_finds (streams : list value) :
  (∀ has_subtitles has_audio,
     scan_streams streams false false = Ok (has_subtitles, has_audio) →
     (has_subtitles = true ↔
        ∃ stream, stream ∈ streams ∧ codec_type_is (lit "subtitle") stream = Ok true) ∧
     (has_audio = true ↔
        ∃ stream, stream ∈ streams ∧ codec_type_is (lit "audio") stream = Ok true)) ∧
  ((∀ stream, stream ∈ streams → ∃ d, stream = VDict d) ↔
     ∃ found, scan_streams streams false false = Ok found) ∧
  (∀ e, scan_streams streams false false = Raise e → e = AttributeError).
Proof.
  assert (Hgen : ∀ s0 a0,
    match scan_streams streams s0 a0 with
    | Ok (s, a) =>
        (∀ stream, stream ∈ streams → ∃ d, stream = VDict d) ∧
        (s = true ↔ s0 = true ∨
           ∃ stream, stream ∈ streams ∧ codec_type_is (lit "subtitle") stream = Ok true) ∧
        (a = true ↔ a0 = true ∨
           ∃ stream, stream ∈ streams ∧ codec_type_is (lit "audio") stream = Ok true)
    | Raise e =>
        e = AttributeError ∧ ¬ ∀ stream, stream ∈ streams → ∃ d, stream = VDict d
    end).
  { induction streams as [|stream rest IH]; intros s0 a0.
    - cbn [scan_streams]. split_and!.
      + by intros ? ?%elem_of_nil.
      + split; [by left|]. by intros [|(? & ?%elem_of_nil & _)].
      + split; [by left|]. by intros [|(? & ?%elem_of_nil & _)].
    - cbn [scan_streams].
      destruct stream as [| | | | | |d];
        try (split; [done|]; intros Hall;
             by destruct (Hall _ (list_elem_of_here _ _)) as [? ?]).
      cbn [codec_type_is].
      set (sub := match dict_get (lit "codec_type") d with
                  | Some (VStr s) => bool_decide (s = lit "subtitle") | _ => false end).
      set (aud := match dict_get (lit "codec_type") d with
                  | Some (VStr s) => bool_decide (s = lit "audio") | _ => false end).
      specialize (IH (if sub then true else s0) (if aud then true else a0)).
      destruct (scan_streams rest _ _) as [[s a]|e].
      + destruct IH as (Hall & Hs & Ha). split_and!.
        * intros stream [->|Hin]%elem_of_cons; eauto.
        * rewrite Hs. split.
          -- intros [Hsub|(stream & Hin & Hstream)].
             ++ destruct sub eqn:Hsubv; [|by left]. right. exists (VDict d).
                split; [by left|]. cbn [codec_type_is]. by fold sub; rewrite Hsubv.
             ++ right. exists stream. split; [by right|done].
          -- intros [->|(stream & [->|Hin]%elem_of_cons & Hstream)].
             ++ left. by destruct sub.
             ++ left. cbn [codec_type_is] in Hstream. fold sub in Hstream.
                by injection Hstream as ->.
             ++ right. eauto.
        * rewrite Ha. split.
          -- intros [Haud|(stream & Hin & Hstream)].
             ++ destruct aud eqn:Haudv; [|by left]. right. exists (VDict d).
                split; [by left|]. cbn [codec_type_is]. by fold aud; rewrite Haudv.
             ++ right. exists stream. split; [by right|done].
          -- intros [->|(stream & [->|Hin]%elem_of_cons & Hstream)].
             ++ left. by destruct aud.
             ++ left. cbn [codec_type_is] in Hstream. fold aud in Hstream.
                by injection Hstream as ->.
             ++ right. eauto.
      + destruct IH as [-> Hnot]. split; [done|].
        intros Hall. apply Hnot. intros stream Hin. apply Hall. by right. }
  specialize (Hgen false false). split_and!.
  - intros s a Hscan. rewrite Hscan in Hgen. destruct Hgen as (_ & Hs & Ha).
    split; [rewrite Hs|rewrite Ha]; (split; [by intros [|]|by right]).
  - destruct (scan_streams streams false false) as [[s a]|e].
    + destruct Hgen as (Hall & _). split; [eauto|done].
    + destruct Hgen as [_ Hnot]. split; [done|by intros [? ?]].
  - intros e He. rewrite He in Hgen. by destruct Hgen.
Qed.

Lemma scan_streams_finds_witness :
  true = true ↔
    ∃ stream,
      stream ∈ [VDict [(lit "codec_type", VStr (lit "video"))];
                VDict [(lit "codec_type", VStr (lit "audio"))]] ∧
      codec_type_is (lit "audio") stream = Ok true.
Proof.
  exact (proj2 (proj1 (scan_streams_finds
           [VDict [(lit "codec_type", VStr (lit "video"))];
            VDict [(lit "codec_type", VStr (lit "audio"))]]) false true eq_refl)).
Defined.

(** ** The command line *)

(** X17. [main] always runs exactly one command, so the chain of tests
    never falls through: the self-test if [--test] is given; else the check
    if [--check] is given; else the conversion if [--convert] names a
    video; else the server, also when no command is given at all or
    [--convert] is given an empty name. *)
Theorem main_runs_one_command (a : args) :
  ∃ c, main_command a = Some c ∧
    (c = RunTest ↔ args_test a = true) ∧
    (c = RunCheck ↔ args_test a = false ∧ args_check a = true) ∧
    (∀ video output, c = RunConvert video output ↔
       args_test a = false ∧ args_check a = false ∧
       args_convert a = Some video ∧ video ≠ [] ∧ output = args_output_vtt a) ∧
    (∀ port, c = RunServe port ↔
       args_test a = false ∧ args_check a = false ∧
       truthy (args_convert a) = false ∧ port = args_port a).
Proof.
  destruct a as [serve port check convert output test]. unfold main_command.
  cbn [args_serve args_port args_check args_convert args_output_vtt args_test].
  destruct test, check, serve, convert as [[|c video]|];
    cbn [truthy default orb negb];
    (eexists; split; [reflexivity|]);
    repeat split; intros; destruct_and?; by simplify_eq.
Qed.

(** ** The conversion as a whole *)

Section conversion_facts.
Context `{Platform}.
Variable environ_key : option str.
Variable secrets : option (option value).
Variable session_id : str.
Variables stem parent : str → str.
Variables PROMPT_FILE BASE_DIR : str.
Variable ffprobe_check : str → io (option metadata).
Variable call_gemini : str → str → str → str → io (option enhancement).
Variable fuel : nat.

Lemma existing_or_below_cases (directory path : str) (w : world) :
  existing_or_below directory path w =
    if bool_decide (is_Some (files w !! path)) then (Ok path, w)
    else if bool_decide (is_Some (files w !! joinpath directory path))
         then (Ok (joinpath directory path), w)
    else (Raise (SystemExit 1), w).
Proof.
  unfold existing_or_below. io_unfold.
  destruct (bool_decide (is_Some (files w !! path))); [done|]. cbn [negb].
  by destruct (bool_decide (is_Some (files w !! joinpath directory path))).
Qed.
End conversion_facts.

(** X18. The conversion checks before it works. It ends with exit code 1,
    with no process run, no transcription made and no file written, when
    the video is found neither at the path given nor below the media
    directory; when the video is found and no API key is configured; and
    when video and key are there and the prompt file is found neither at
    its path nor below the base directory. In none of these cases is the
    video probed or Gemini called. *)
Theorem cmd_convert_checks_first `{Platform}
    (environ_key : option str) (secrets : option (option value))
    (session_id : str) (stem parent : str → str) (PROMPT_FILE BASE_DIR : str)
    (ffprobe_check : str → io (option metadata))
    (call_gemini : str → str → str → str → io (option enhancement))
    (fuel : nat) (video_file : str) (output_vtt : option str) (w : world) :
  let convert :=
    cmd_convert environ_key secrets session_id stem parent PROMPT_FILE BASE_DIR
      ffprobe_check call_gemini fuel video_file output_vtt w in
  let found path := is_Some (files w !! path) in
  (¬ found video_file → ¬ found (joinpath MEDIA_DIR video_file) →
     convert = (Raise (SystemExit 1), w)) ∧
  (found video_file ∨ found (joinpath MEDIA_DIR video_file) →
     get_api_key environ_key secrets = Ok None →
     convert = (Raise (SystemExit 1), w)) ∧
  (found video_file ∨ found (joinpath MEDIA_DIR video_file) →
     ∀ key, get_api_key environ_key secrets = Ok (Some key) →
     ¬ found PROMPT_FILE → ¬ found (joinpath BASE_DIR PROMPT_FILE) →
     convert = (Raise (SystemExit 1), w)).
Proof.
  intros convert found. subst convert found.
  split_and!; [intros Hhere Hbelow|intros Hvideo Hkey|intros Hvideo key Hkey Hhere Hbelow];
    unfold cmd_convert; unfold mbind at 1, io_bind at 1;
    rewrite existing_or_below_cases.
  - by rewrite !bool_decide_eq_false_2 by done.
  - rewrite Hkey. cbn [truthy negb].
    destruct (bool_decide (is_Some (files w !! video_file))) eqn:Hvhere; [done|].
    rewrite bool_decide_eq_true_2; [done|].
    destruct Hvideo as [Hvideo|]; [|done]. by apply bool_decide_eq_false in Hvhere.
  - rewrite Hkey.
    assert (Hprompt : ∀ w0 : world, files w0 = files w →
      existing_or_below BASE_DIR PROMPT_FILE w0 = (Raise (SystemExit 1), w0)).
    { intros w0 Hw0. rewrite existing_or_below_cases, Hw0.
      by rewrite !bool_decide_eq_false_2 by done. }
    destruct (truthy (Some key));
      [|by repeat (destruct (bool_decide _))].
    cbn [negb].
    destruct (bool_decide (is_Some (files w !! video_file))) eqn:Hvhere.
    + unfold mbind, io_bind. by rewrite Hprompt.
    + rewrite bool_decide_eq_true_2.
      * unfold mbind, io_bind. by rewrite Hprompt.
      * destruct Hvideo as [Hvideo|]; [|done]. by apply bool_decide_eq_false in Hvhere.
Qed.

Lemma cmd_convert_checks_first_witness :
  @cmd_convert small_platform None None (lit "1a2b3c4d")
    (λ path, lit "film") (λ path, lit "media")
    (lit "prompts/gemini_vtt_prompt.md") (lit "/srv/open-vtt")
    (λ path, mret None) (λ key prompt subtitles video, mret None) 3
    (lit "film.mp4") None one_video
  = (Raise (SystemExit 1), one_video).
Proof.
  refine (proj1 (proj2 (@cmd_convert_checks_first small_platform None None (lit "1a2b3c4d")
            (λ path, lit "film") (λ path, lit "media")
            (lit "prompts/gemini_vtt_prompt.md") (lit "/srv/open-vtt")
            (λ path, mret None) (λ key prompt subtitles video, mret None) 3
            (lit "film.mp4") None one_video)) _ eq_refl).
  right. by exists (replicate 20 0%N).
Defined.

(** ** The size test *)

Lemma Prim2SF_normal (p : positive) (e : Z) :
  Z.log2 (Z.pos p) = 52 → -1074 ≤ e ≤ 971 →
  Prim2SF (SF2Prim (S754_finite false p e)) = S754_finite false p e.
Proof. intros Hp He. apply Prim2SF_SF2Prim. by apply bounded_normal. Qed.

(** The size in binary mebibytes of a file of [s] bytes: [s] scaled to a
    mantissa of 53 bits. *)
Lemma int_true_div_mib (s : Z) :
  0 < s < 2 ^ 53 →
  ∃ p, Z.pos p = s * 2 ^ (52 - Z.log2 s) ∧ Z.log2 (Z.pos p) = 52 ∧
       int_true_div s (1024 * 1024) = SF2Prim (S754_finite false p (Z.log2 s - 72)).
Proof.
  intros Hs. unfold int_true_div.
  rewrite Z.abs_eq, (proj2 (Z.eqb_neq _ _)), (proj2 (Z.ltb_ge _ _)) by lia.
  set (L := Z.log2 s).
  assert (HL : 0 ≤ L ≤ 52).
  { split; [apply Z.log2_nonneg|]. apply Z.lt_succ_r, Z.log2_lt_pow2; lia. }
  change (Z.log2 (1024 * 1024)) with 20. change (1024 * 1024) with (2 ^ 20).
  replace (Z.max 0 (56 + 20 - L)) with (76 - L) by lia.
  replace (s * 2 ^ (76 - L)) with (s * 2 ^ (56 - L) * 2 ^ 20)
    by (rewrite <- Z.mul_assoc, <- Z.pow_add_r by lia; do 2 f_equal; lia).
  rewrite Z.div_mul, Z.mod_mul, Z.eqb_refl by lia.
  set (p := Z.to_pos (s * 2 ^ (52 - L))).
  assert (Hp : Z.pos p = s * 2 ^ (52 - L)).
  { subst p. rewrite Z2Pos.id; [done|]. apply Z.mul_pos_pos; [lia|].
    apply Z.pow_pos_nonneg; lia. }
  assert (Hlog : Z.log2 (Z.pos p) = 52).
  { rewrite Hp, Z.log2_mul_pow2 by lia. fold L. lia. }
  exists p. split_and!; [done..|].
  replace (s * 2 ^ (56 - L)) with (Z.pos p * 2 ^ Z.of_nat 4).
  2:{ rewrite Hp, <- Z.mul_assoc, <- Z.pow_add_r by lia. do 2 f_equal. lia. }
  rewrite binary_normalize_exact by (done || lia).
  do 2 f_equal. lia.
Qed.

Lemma float_of_Z_small (t : Z) :
  0 < t < 2 ^ 53 →
  ∃ q, Z.pos q = t * 2 ^ (52 - Z.log2 t) ∧ Z.log2 (Z.pos q) = 52 ∧
       float_of_Z t = SF2Prim (S754_finite false q (Z.log2 t - 52)).
Proof.
  intros Ht. unfold float_of_Z.
  assert (HL : 0 ≤ Z.log2 t ≤ 52).
  { split; [apply Z.log2_nonneg|]. apply Z.lt_succ_r, Z.log2_lt_pow2; lia. }
  destruct t as [|tp|tp]; [lia| |lia]. cbn [binary_normalize].
  destruct (binary_round_small tp 0) as (q & Hq & Hlog & ->); [lia..|].
  exists q. split_and!; [done..|]. do 2 f_equal. lia.
Qed.

(** The size test against a ceiling that is an [int] is exact in bytes. *)
Lemma size_test_exact (s M : Z) :
  0 ≤ s < 2 ^ 53 →
  float_le (int_true_div s (1024 * 1024)) (PyInt M) = (s <=? M * 1048576).
Proof.
  intros Hs. destruct (decide (s = 0)) as [->|Hne].
  { change (float_le (int_true_div 0 (1024 * 1024)) (PyInt M)) with (0 <=? M).
    destruct (Z.leb_spec 0 M), (Z.leb_spec 0 (M * 1048576)); lia. }
  destruct (int_true_div_mib s) as (p & Hp & Hlog & ->); [lia|].
  set (L := Z.log2 s) in *.
  assert (HL : 0 ≤ L ≤ 52).
  { split; [apply Z.log2_nonneg|]. apply Z.lt_succ_r, Z.log2_lt_pow2; lia. }
  unfold float_le. rewrite float_to_Z_finite by (done || lia).
  rewrite (proj2 (Z.leb_gt _ _)) by lia.
  replace (- (L - 72)) with (72 - L) by lia.
  set (t := Z.pos p / 2 ^ (72 - L)).
  assert (Ht : t = s / 2 ^ 20).
  { subst t. rewrite Hp.
    replace (2 ^ (72 - L)) with (2 ^ 20 * 2 ^ (52 - L))
      by (rewrite <- Z.pow_add_r by lia; f_equal; lia).
    rewrite Z.div_mul_cancel_r; [done|lia|]. apply Z.pow_nonzero; lia. }
  pose proof (Z.div_mod s (2 ^ 20) ltac:(lia)) as Hdiv.
  pose proof (Z.mod_pos_bound s (2 ^ 20) ltac:(lia)) as Hmod.
  rewrite <- Ht in Hdiv.
  assert (Hneg : (SF2Prim (S754_finite false p (L - 72)) <? 0)%float = false).
  { rewrite ltb_spec, Prim2SF_normal by (done || lia). done. }
  rewrite Hneg, eqb_spec, Prim2SF_normal by (done || lia).
  assert (Ht0 : 0 ≤ t) by (rewrite Ht; apply Z.div_pos; lia).
  destruct (decide (t = 0)) as [Hz|Hz].
  { rewrite Hz in *. change (Prim2SF (float_of_Z 0)) with (S754_zero false).
    cbn [SFeqb SFcompare].
    destruct (Z.ltb_spec 0 M), (Z.leb_spec s (M * 1048576)); lia. }
  assert (Ht53 : t < 2 ^ 53).
  { rewrite Ht. apply Z.div_lt_upper_bound; lia. }
  destruct (float_of_Z_small t) as (q & Hq & Hqlog & ->); [lia|].
  assert (HLt : Z.log2 t = L - 20).
  { rewrite Ht, <- Z.shiftr_div_pow2, Z.log2_shiftr by lia.
    fold L. assert (20 ≤ L); [|lia].
    apply Z.log2_le_pow2; [lia|]. nia. }
  rewrite Prim2SF_normal by (done || lia).
  unfold SFeqb, SFcompare. rewrite HLt.
  replace (L - 20 - 52) with (L - 72) by lia. rewrite Z.compare_refl.
  rewrite HLt in Hq.
  assert (Hpq : Z.pos p = Z.pos q + s mod 2 ^ 20 * 2 ^ (52 - L)).
  { rewrite Hp, Hq. rewrite Hdiv at 1.
    replace (2 ^ (52 - (L - 20))) with (2 ^ 20 * 2 ^ (52 - L))
      by (rewrite <- Z.pow_add_r by lia; f_equal; lia).
    lia. }
  assert (Hpow : 0 < 2 ^ (52 - L)) by (apply Z.pow_pos_nonneg; lia).
  change (PosDef.Pos.compare_cont Eq q p) with (Pos.compare q p).
  change (2 ^ 20) with 1048576 in *.
  destruct (Pos.compare_spec q p) as [Heq|Hlt|Hgt].
  - subst q. assert (s mod 1048576 = 0) by nia.
    destruct (Z.leb_spec t M), (Z.leb_spec s (M * 1048576)); lia.
  - assert (0 < s mod 1048576) by (apply Pos2Z.pos_lt_pos in Hlt; nia).
    destruct (Z.ltb_spec t M), (Z.leb_spec s (M * 1048576)); lia.
  - apply Pos2Z.pos_lt_pos in Hgt. nia.
Qed.

(** X19. Against a ceiling that is a whole number of mebibytes, the size
    test of [downsample_video] is exact to the byte: a video of up to
    [2^53] bytes is uploaded as it is exactly when its size in bytes is at
    most the ceiling times 1048576, and goes through the presets
    otherwise. *)
Theorem size_ceiling_is_exact `{Platform}
    (video_path output_path : str) (w : world) (data : list N) (M : Z) :
  files w !! video_path = Some data →
  MAX_SIZE_MB = PyInt M →
  Z.of_nat (length data) < 2 ^ 53 →
  let bytes := Z.of_nat (length data) in
  (∃ size_mb, get_file_size_mb video_path w = (Ok size_mb, w) ∧
              float_le size_mb MAX_SIZE_MB = bool_decide (bytes ≤ M * 1048576)) ∧
  (bytes ≤ M * 1048576 →
     downsample_video video_path output_path w = (Ok (Some video_path), w)) ∧
  (M * 1048576 < bytes →
     downsample_video video_path output_path w
     = downsample_loop DOWNSAMPLE_TARGETS video_path output_path w).
Proof.
  intros Hdata HM Hsize bytes. subst bytes.
  pose proof (get_file_size_mb_cases video_path w) as Hmb. rewrite Hdata in Hmb.
  assert (Htest : float_le (int_true_div (Z.of_nat (length data)) (1024 * 1024)) MAX_SIZE_MB
                  = bool_decide (Z.of_nat (length data) ≤ M * 1048576)).
  { rewrite HM, size_test_exact by lia.
    destruct (Z.leb_spec (Z.of_nat (length data)) (M * 1048576)).
    - by rewrite bool_decide_eq_true_2.
    - by rewrite bool_decide_eq_false_2 by lia. }
  split_and!.
  - eauto.
  - intros Hfits. unfold downsample_video. io_unfold.
    by rewrite Hmb, Htest, bool_decide_eq_true_2.
  - intros Hbig. unfold downsample_video. io_unfold.
    by rewrite Hmb, Htest, bool_decide_eq_false_2 by lia.
Qed.

Lemma size_ceiling_is_exact_witness :
  @downsample_video empty_output_platform (lit "media/film.mp4")
    (lit "media/film-small.mp4") one_video
  = (Ok (Some (lit "media/film.mp4")), one_video).
Proof.
  refine (proj1 (proj2 (@size_ceiling_is_exact empty_output_platform (lit "media/film.mp4")
            (lit "media/film-small.mp4") one_video (replicate 20 0%N) 400
            eq_refl eq_refl _)) _).
  - vm_compute. reflexivity.
  - vm_compute. discriminate.
Defined.

(** ** The timestamp formatter, continued *)

(** X20. The times that [to_vtt_time] refuses. A whole number of seconds
    that is not negative is formatted if it is less than a thousand
    million days, and raises [OverflowError] from there on. A NaN raises
    [ValueError] and an infinity raises [OverflowError]. *)
Theorem to_vtt_time_refusals :
  (∀ z, 0 ≤ z →
     (z < 86400000000000 → ∃ stamp, to_vtt_time (PyInt z) = Ok stamp) ∧
     (86400000000000 ≤ z → to_vtt_time (PyInt z) = Raise OverflowError)) ∧
  (∀ x, Prim2SF x = S754_nan → to_vtt_time (PyFloat x) = Raise ValueError) ∧
  (∀ x s, Prim2SF x = S754_infinity s → to_vtt_time (PyFloat x) = Raise OverflowError).
Proof.
  split_and!.
  - intros z Hz. split.
    + intros Hsmall. unfold to_vtt_time.
      rewrite whole_seconds_int, milliseconds_int by lia.
      cbn [mbind result_bind]. eauto.
    + intros Hbig. unfold to_vtt_time, whole_seconds, timedelta, timedelta_of_us.
      assert (Hdays : (Z.abs (z * us_per_second / us_per_day) <=? max_delta_days) = false).
      { apply Z.leb_gt. unfold us_per_day, max_delta_days.
        rewrite Z.div_mul_cancel_r by done.
        rewrite Z.abs_eq by (apply Z.div_pos; lia).
        apply Z.lt_le_trans with 1000000000; [lia|].
        apply Z.div_le_lower_bound; lia. }
      by rewrite Hdays.
  - intros x Hnan.
    assert (His : is_nan x = true).
    { unfold is_nan. by rewrite eqb_spec, Hnan. }
    unfold to_vtt_time, whole_seconds, timedelta, int_of, float_to_Z.
    by rewrite Hnan, His.
  - intros x s Hinf.
    assert (His : is_nan x = false).
    { unfold is_nan. by rewrite eqb_spec, Hinf; destruct s. }
    unfold to_vtt_time, whole_seconds, timedelta, int_of, float_to_Z.
    by rewrite Hinf, His.
Qed.

Lemma to_vtt_time_refusals_witness :
  to_vtt_time (PyFloat infinity) = Raise OverflowError.
Proof.
  exact (proj2 (proj2 to_vtt_time_refusals) infinity false eq_refl).
Defined.

(** ** The configuration merge, continued *)

Lemma unique_keys_dict (d : dict) :
  unique_keys (VDict d) = true ↔
  NoDup d.*1 ∧ ∀ k v, (k, v) ∈ d → unique_keys v = true.
Proof.
  cbn [unique_keys]. rewrite andb_true_iff, bool_decide_eq_true.
  apply and_iff_compat_l.
  induction d as [|[k0 v0] d IH].
  - split; [by intros _ ? ? ?%elem_of_nil|done].
  - rewrite andb_true_iff, IH. split.
    + intros [Hv Hd] k v [[= -> ->]|Hin]%elem_of_cons; eauto.
    + intros Hall. split; [apply (Hall k0); by left|].
      intros k v Hin. apply (Hall k). by right.
Qed.

Lemma dict_get_elem_of (k : str) (v : value) (d : dict) :
  dict_get k d = Some v → (k, v) ∈ d.
Proof.
  induction d as [|[k0 v0] d IH]; [done|]. simpl.
  destruct (decide (k0 = k)) as [->|].
  - intros [= ->]. by left.
  - intros Hd. right. by apply IH.
Qed.

Lemma dict_get_is_Some (k : str) (d : dict) :
  is_Some (dict_get k d) ↔ k ∈ d.*1.
Proof.
  induction d as [|[k0 v0] d IH]; simpl.
  - split; [by intros []|by intros ?%elem_of_nil].
  - rewrite elem_of_cons. destruct (decide (k0 = k)) as [->|Hne].
    + split; eauto.
    + rewrite IH. split; [by right|]. by intros [->|].
Qed.

Lemma value_size_dict_get (k : str) (v : value) (d : dict) :
  dict_get k d = Some v → (value_size v < value_size (VDict d))%nat.
Proof.
  cbn [value_size]. induction d as [|[k0 v0] d IH]; [done|]. simpl.
  destruct (decide (k0 = k)) as [->|].
  - intros [= ->]. lia.
  - intros Hd. specialize (IH Hd). lia.
Qed.

Lemma dict_set_keys (k : str) (v : value) (d : dict) :
  (dict_set k v d).*1 = if decide (k ∈ d.*1) then d.*1 else d.*1 ++ [k].
Proof.
  induction d as [|[k0 v0] d IH]; [done|]. cbn [dict_set].
  destruct (decide (k0 = k)) as [->|Hne]; rewrite !fmap_cons; cbn [fst].
  - by rewrite decide_True by (by left).
  - rewrite IH. destruct (decide (k ∈ d.*1)) as [Hin|Hnin].
    + by rewrite decide_True by (by right).
    + rewrite decide_False; [done|]. by intros [|]%elem_of_cons.
Qed.

Lemma filter_not_in_snoc (l base : list str) (k : str) :
  k ∉ l →
  filter (λ x, x ∉ base ++ [k]) l = filter (λ x, x ∉ base) l.
Proof.
  induction l as [|x l IH]; intros Hk; [done|].
  apply not_elem_of_cons in Hk as [Hne Hk].
  rewrite !filter_cons, IH by done.
  destruct (decide (x ∉ base)) as [Hx|Hx].
  - rewrite decide_True; [done|].
    rewrite elem_of_app, list_elem_of_singleton. by intros [|].
  - rewrite decide_False; [done|].
    rewrite elem_of_app. intros Hnot. apply Hx. intros Hin. apply Hnot. by left.
Qed.

(** The keys after the merge: those of the base in their places, then the
    new keys of the update in its order. *)
Lemma deep_update_keys (base update : dict) :
  NoDup update.*1 →
  (deep_update base update).*1 = base.*1 ++ filter (λ k, k ∉ base.*1) update.*1.
Proof.
  revert base. induction update as [|[k v] rest IH]; intros base Hnodup.
  - by rewrite app_nil_r.
  - apply NoDup_cons in Hnodup as [Hk Hnodup].
    rewrite deep_update_cons, IH, dict_set_keys by done.
    rewrite fmap_cons, filter_cons. cbn [fst].
    destruct (decide (k ∈ base.*1)) as [Hin|Hnin].
    + by rewrite decide_False by (by intros ?).
    + rewrite decide_True by done. rewrite <- app_assoc. f_equal. cbn [app]. f_equal.
      by apply filter_not_in_snoc.
Qed.

Lemma deep_update_NoDup (base update : dict) :
  NoDup base.*1 → NoDup update.*1 → NoDup (deep_update base update).*1.
Proof.
  intros Hbase Hupdate. rewrite deep_update_keys by done.
  apply NoDup_app. split_and!; [done| |by apply NoDup_filter].
  by intros k Hk [? _]%list_elem_of_filter.
Qed.

Lemma dict_ext (d1 d2 : dict) :
  NoDup d1.*1 → d1.*1 = d2.*1 →
  (∀ k, dict_get k d1 = dict_get k d2) → d1 = d2.
Proof.
  revert d2. induction d1 as [|[k1 v1] d1 IH]; intros [|[k2 v2] d2]; try done.
  rewrite !fmap_cons. cbn [fst]. intros [Hk1 Hnodup]%NoDup_cons [= <- Hkeys] Hget.
  pose proof (Hget k1) as Hhead. simpl in Hhead.
  rewrite !decide_True in Hhead by done. injection Hhead as <-.
  f_equal. apply IH; [done..|].
  intros k. specialize (Hget k). simpl in Hget.
  destruct (decide (k1 = k)) as [<-|]; [|done].
  by rewrite !dict_get_None by (by rewrite <- ?Hkeys).
Qed.

Lemma filter_known_keys (l keys : list str) :
  (∀ k, k ∈ l → k ∈ keys) → filter (λ k, k ∉ keys) l = [].
Proof.
  induction l as [|x l IH]; intros Hall; [done|].
  rewrite filter_cons, decide_False by (intros Hx; apply Hx, Hall; by left).
  apply IH. intros k Hk. apply Hall. by right.
Qed.

Lemma unique_keys_dict_get (k : str) (v : value) (d : dict) :
  unique_keys (VDict d) = true → dict_get k d = Some v → unique_keys v = true.
Proof.
  intros [_ Hall]%unique_keys_dict Hget%dict_get_elem_of. by apply (Hall k).
Qed.

(** Merging a document into itself, and merging an update a second time,
    change nothing; by induction on the size of the update. *)
Lemma deep_update_fixpoints (n : nat) (update : dict) :
  (value_size (VDict update) ≤ n)%nat →
  unique_keys (VDict update) = true →
  deep_update update update = update ∧
  ∀ base, unique_keys (VDict base) = true →
          deep_update (deep_update base update) update = deep_update base update.
Proof.
  revert update. induction n as [|n IH]; intros update Hsize Hunique.
  { cbn [value_size] in Hsize. lia. }
  pose proof Hunique as [Hnodup Hvalues]%unique_keys_dict.
  assert (Hself : ∀ k v, dict_get k update = Some v → merged (Some v) v = v).
  { intros k v Hget. unfold merged. destruct v as [| | | | | |x]; try done.
    f_equal. apply IH.
    - apply value_size_dict_get in Hget. lia.
    - by apply (unique_keys_dict_get k _ update). }
  split.
  - symmetry. apply dict_ext; [done| |].
    + rewrite deep_update_keys, filter_known_keys, app_nil_r by done. done.
    + intros k. rewrite deep_update_lookup by done.
      destruct (dict_get k update) as [v|] eqn:Hget; [|done].
      by rewrite (Hself k).
  - intros base Hbase.
    pose proof Hbase as [Hbnodup _]%unique_keys_dict.
    symmetry. apply dict_ext.
    + by apply deep_update_NoDup.
    + rewrite (deep_update_keys (deep_update base update)) by done.
      rewrite filter_known_keys, app_nil_r; [done|].
      intros k Hk. apply dict_get_is_Some.
      rewrite deep_update_lookup by done.
      apply dict_get_is_Some in Hk as [v ->]. eauto.
    + intros k. rewrite !deep_update_lookup by done.
      destruct (dict_get k update) as [v|] eqn:Hget; [|done].
      f_equal. unfold merged at 2 3.
      destruct v as [| | | | | |vd]; try done.
      assert (Hvd : (value_size (VDict vd) ≤ n)%nat)
        by (apply value_size_dict_get in Hget; lia).
      assert (Hvdu : unique_keys (VDict vd) = true)
        by (by apply (unique_keys_dict_get k _ update)).
      destruct (IH vd Hvd Hvdu) as [Hq Hp].
      destruct (dict_get k base) as [[| | | | | |bd]|] eqn:Hbget;
        cbn [merged]; rewrite ?Hq; try done.
      rewrite Hp; [done|]. by apply (unique_keys_dict_get k _ base).
Qed.

(** X21. For documents without a key twice in an object, merging the
    same update a second time changes nothing, and merging a document into
    itself leaves it as it is. The merge keeps the keys of the base in
    their places and puts the new keys of the update after them, in the
    order of the update. *)
Theorem deep_update_idempotent (base update : dict) :
  unique_keys (VDict base) = true →
  unique_keys (VDict update) = true →
  deep_update (deep_update base update) update = deep_update base update ∧
  deep_update update update = update ∧
  (deep_update base update).*1 = base.*1 ++ filter (λ k, k ∉ base.*1) update.*1.
Proof.
  intros Hbase Hupdate.
  destruct (deep_update_fixpoints _ update (le_n _) Hupdate) as [Hself Htwice].
  split_and!; [by apply Htwice|done|].
  apply deep_update_keys. by apply unique_keys_dict in Hupdate as [? _].
Qed.

Lemma deep_update_idempotent_witness :
  let update :=
    [(lit "video", VDict [(lit "max_size_mb", VInt 100)]);
     (lit "server", VDict [(lit "port", VInt 3000)])] in
  let config := deep_update (default_config (lit "prompt.md")) update in
  deep_update config update = config ∧
  deep_update update update = update ∧
  config.*1 =
    (default_config (lit "prompt.md")).*1 ++
    filter (λ k, k ∉ (default_config (lit "prompt.md")).*1) update.*1.
Proof.
  exact (deep_update_idempotent (default_config (lit "prompt.md"))
           [(lit "video", VDict [(lit "max_size_mb", VInt 100)]);
            (lit "server", VDict [(lit "port", VInt 3000)])] eq_refl eq_refl).
Defined.

(** ** The transcription document *)

Lemma write_segments_cues (segments : list segment) (written : str) :
  (∀ cues, mapM cue segments = Ok cues →
     write_segments segments written = (written ++ concat cues, None)) ∧
  (∀ i seg e cues,
     segments !! i = Some seg → cue seg = Raise e →
     mapM cue (take i segments) = Ok cues →
     write_segments segments written = (written ++ concat cues, Some e)).
Proof.
  revert written. induction segments as [|seg0 rest IH]; intros written.
  - split; [|intros i seg e cues Hseg; by rewrite lookup_nil in Hseg].
    intros cues [= <-]. by rewrite app_nil_r.
  - cbn [write_segments mapM].
    assert (Hcue0 : cue seg0 =
      match to_vtt_time (seg_start seg0), to_vtt_time (seg_end seg0) with
      | Ok start, Ok end_ =>
          let text := start ++ lit " --> " ++ end_ ++ [10%N] ++
                      strip (seg_text seg0) ++ [10%N; 10%N] in
          match utf8 text with
          | None => Raise ValueError
          | Some _ => Ok text
          end
      | Ok _, Raise e | Raise e, _ => Raise e
      end).
    { unfold cue. by destruct (to_vtt_time (seg_start seg0)),
                               (to_vtt_time (seg_end seg0)). }
    assert (Hstop : ∀ e0, cue seg0 = Raise e0 →
      (∀ cues, (cues0 ← cue seg0; cues' ← mapM cue rest; mret (cues0 :: cues')) = Ok cues →
         (written, Some e0) = (written ++ concat cues, None)) ∧
      (∀ i seg e cues,
         (seg0 :: rest) !! i = Some seg → cue seg = Raise e →
         mapM cue (take i (seg0 :: rest)) = Ok cues →
         (written, Some e0) = (written ++ concat cues, Some e))).
    { intros e0 He0. split; [by rewrite He0|].
      intros [|i] seg e cues Hseg Hcue.
      - injection Hseg as ->. rewrite He0 in Hcue.
        injection Hcue as ->. intros [= <-]. by rewrite app_nil_r.
      - cbn [take mapM]. by rewrite He0. }
    destruct (to_vtt_time (seg_start seg0)) as [start|e0];
      [destruct (to_vtt_time (seg_end seg0)) as [end_|e0]|];
      [|by apply Hstop..].
    cbv zeta in Hcue0 |- *.
    destruct (utf8 _) as [data|]; [|by apply Hstop].
    destruct (IH (written ++ start ++ lit " --> " ++ end_ ++ [10%N] ++
                  strip (seg_text seg0) ++ [10%N; 10%N])) as [Hall Hfail].
    rewrite Hcue0. cbn [mbind result_bind]. split.
    + intros cues. destruct (mapM cue rest) as [cues'|] eqn:Hrest;
        cbn [mbind result_bind mret result_ret]; [|done].
      intros [= <-]. rewrite (Hall cues' eq_refl).
      by rewrite concat_cons, <- app_assoc.
    + intros [|i] seg e cues Hseg Hcue.
      { injection Hseg as ->. by rewrite Hcue0 in Hcue. }
      cbn [take mapM]. rewrite Hcue0. cbn [mbind result_bind].
      destruct (mapM cue (take i rest)) as [cues'|] eqn:Hrest;
        cbn [mbind result_bind mret result_ret]; [|done].
      intros [= <-]. rewrite (Hfail i seg e cues') by done.
      by rewrite concat_cons, <- app_assoc.
Qed.

(** X22. The document of a transcription. When every segment that the
    engine returns can be formatted, the subtitle file holds the header and
    then the cues of the segments in their order, and the transcription
    reports success. When a segment cannot be formatted, or its cue cannot
    be encoded, the transcription reports failure, and the subtitle file is
    left with the header and the cues of the segments before that one. *)
Theorem transcription_document `{Platform}
    (e : engine) (video_path output_path : str) (w : world)
    (language : value) (segments : list segment) :
  transcription_language = Ok language →
  match e with
  | MlxWhisper => mlx_whisper_transcribe
  | OpenAIWhisper => whisper_transcribe
  end video_path language (files w) = Ok segments →
  let after doc :=
    World (<[output_path := doc]> (files w)) (calls w ++ [CallTranscribe e video_path]) in
  (∀ cues doc,
     mapM cue segments = Ok cues →
     utf8 (lit "WEBVTT" ++ [10%N; 10%N] ++ concat cues) = Some doc →
     transcribe_using e video_path output_path w = (Ok true, after doc)) ∧
  (∀ i seg err cues doc,
     segments !! i = Some seg → cue seg = Raise err →
     mapM cue (take i segments) = Ok cues →
     utf8 (lit "WEBVTT" ++ [10%N; 10%N] ++ concat cues) = Some doc →
     transcribe_using e video_path output_path w = (Ok false, after doc)).
Proof.
  intros Hlanguage Hengine after. subst after.
  destruct (write_segments_cues segments (lit "WEBVTT" ++ [10%N; 10%N])) as [Hall Hfail].
  split.
  - intros cues doc Hcues Hdoc. unfold transcribe_using.
    rewrite Hlanguage, Hengine, (Hall cues Hcues). unfold write_text.
    rewrite <- app_assoc. cbn [files calls]. by rewrite Hdoc.
  - intros i seg err cues doc Hseg Herr Hcues Hdoc. unfold transcribe_using.
    rewrite Hlanguage, Hengine, (Hfail i seg err cues Hseg Herr Hcues). unfold write_text.
    rewrite <- app_assoc. cbn [files calls]. by rewrite Hdoc.
Qed.

Lemma transcription_document_witness :
  @transcribe_using (platform_with_engines false true no_engine broken_second_segment)
    OpenAIWhisper (lit "film.mp4") (lit "film.vtt") empty_world
  = (Ok false,
     World {[ lit "film.vtt" :=
                lit "WEBVTT" ++ [10%N; 10%N] ++
                lit "00:00:00.000 --> 00:00:02.000" ++ [10%N] ++
                lit "Hello." ++ [10%N; 10%N] ]}
       [CallTranscribe OpenAIWhisper (lit "film.mp4")]).
Proof.
  exact (proj2 (@transcription_document
           (platform_with_engines false true no_engine broken_second_segment)
           OpenAIWhisper (lit "film.mp4") (lit "film.vtt") empty_world
           (VStr (lit "en"))
           [Segment (PyInt 0) (PyInt 2) (lit " Hello. ");
            Segment (PyInt 2) (PyFloat nan) (lit " Good-bye. ")]
           eq_refl eq_refl)
         1%nat (Segment (PyInt 2) (PyFloat nan) (lit " Good-bye. ")) ValueError
         [lit "00:00:00.000 --> 00:00:02.000" ++ [10%N] ++ lit "Hello." ++ [10%N; 10%N]]
         _ eq_refl eq_refl eq_refl eq_refl).
Defined.

(** Each cue is written on its own: one that cannot be encoded ends the
    transcription with the header and the earlier cues in the file, and
    the later segments are not looked at. *)
Example unencodable_cue_keeps_earlier_cues :
  @transcribe_using (platform_with_engines false true no_engine unencodable_second_segment)
    OpenAIWhisper (lit "film.mp4") (lit "film.vtt") empty_world
  = (Ok false,
     World {[ lit "film.vtt" :=
                lit "WEBVTT" ++ [10%N; 10%N] ++
                lit "00:00:00.000 --> 00:00:02.000" ++ [10%N] ++
                lit "Hello." ++ [10%N; 10%N] ]}
       [CallTranscribe OpenAIWhisper (lit "film.mp4")]).
Proof. reflexivity. Qed.

(** ** The self-test *)

Lemma run_checks_passed (checks : list (option bool)) (failed : nat) :
  run_checks checks failed = AllPassed ↔ failed = O ∧ Forall (λ c, c = Some true) checks.
Proof.
  revert failed. induction checks as [|[[|]|] checks IH]; intros failed;
    cbn [run_checks].
  - destruct (decide (failed = O)); split; try done; by intros [? _].
  - rewrite IH, Forall_cons. tauto.
  - rewrite IH, Forall_cons. split; [intros [? _]; lia|by intros [_ [? _]]].
  - rewrite Forall_cons. split; [done|by intros [_ [? _]]].
Qed.

Lemma run_checks_stopped (checks : list (option bool)) (failed : nat) :
  run_checks checks failed = Stopped ↔ None ∈ checks.
Proof.
  revert failed. induction checks as [|[[|]|] checks IH]; intros failed;
    cbn [run_checks].
  - rewrite elem_of_nil. by destruct (decide (failed = O)).
  - rewrite IH, elem_of_cons. split; [by right|by intros [|]].
  - rewrite IH, elem_of_cons. split; [by right|by intros [|]].
  - rewrite elem_of_cons. split; [by left|done].
Qed.

(** X23. The self-test returns, with every check passed, exactly when the
    base directory exists, the configuration has the sections [gemini],
    [video] and [files], and [gemini.model] is a string: its checks of the
    formatter, of the extraction and of the file size hold on every
    installation. It is stopped by an exception exactly when the
    configuration has no [gemini.model] to look at. *)
Theorem cmd_test_verdict `{Platform} (base_dir_exists : bool) :
  (cmd_test base_dir_exists = AllPassed ↔
     base_dir_exists = true ∧
     is_Some (dict_get (lit "gemini") CONFIG) ∧
     is_Some (dict_get (lit "video") CONFIG) ∧
     is_Some (dict_get (lit "files") CONFIG) ∧
     ∃ model, config_item CONFIG (lit "gemini") (lit "model") = Some (VStr model)) ∧
  (cmd_test base_dir_exists = Stopped ↔
     config_item CONFIG (lit "gemini") (lit "model") = None).
Proof.
  unfold cmd_test. rewrite run_checks_passed, run_checks_stopped.
  unfold cmd_test_checks. split.
  - rewrite !Forall_cons, Forall_nil. split.
    + intros (_ & _ & _ & _ & _ & _ & _ & _ & _ & _ & _ & _ &
              Hbase & _ & _ & _ & Hgemini & Hvideo & Hfiles & Hmodel & _).
      split_and!.
      * by injection Hbase.
      * injection Hgemini as Hgemini. by apply bool_decide_eq_true in Hgemini.
      * injection Hvideo as Hvideo. by apply bool_decide_eq_true in Hvideo.
      * injection Hfiles as Hfiles. by apply bool_decide_eq_true in Hfiles.
      * destruct (config_item _ _ _) as [[| | | |model| |]|]; try done. eauto.
    + intros (-> & Hgemini & Hvideo & Hfiles & model & ->).
      rewrite !bool_decide_eq_true_2 by done.
      split_and!; try done; by vm_compute.
  - rewrite !elem_of_cons, elem_of_nil. split.
    + intros Hnone.
      destruct (config_item _ _ _) as [[]|]; [..|done];
        repeat (destruct Hnone as [Hnone|Hnone]; [by vm_compute in Hnone|]); done.
    + intros ->. do 18 right. by left.
Qed.

(** ** Timestamps are distinct *)

Lemma digit_range (n : Z) : (48 ≤ digit n ≤ 57)%N.
Proof.
  unfold digit. pose proof (Z.mod_pos_bound n 10 ltac:(lia)). lia.
Qed.

Lemma digit_inj (a b : Z) : digit a = digit b → a mod 10 = b mod 10.
Proof.
  unfold digit. intros Hd.
  pose proof (Z.mod_pos_bound a 10 ltac:(lia)).
  pose proof (Z.mod_pos_bound b 10 ltac:(lia)). lia.
Qed.

Lemma two_digits_inj (a b : Z) :
  0 ≤ a < 100 → 0 ≤ b < 100 → two_digits a = two_digits b → a = b.
Proof.
  intros Ha Hb [= Htens%digit_inj Hunits%digit_inj].
  assert (0 ≤ a / 10 < 10) by (split; [apply Z.div_pos|apply Z.div_lt_upper_bound]; lia).
  assert (0 ≤ b / 10 < 10) by (split; [apply Z.div_pos|apply Z.div_lt_upper_bound]; lia).
  rewrite !Z.mod_small in Htens by done.
  rewrite (Z.div_mod a 10), (Z.div_mod b 10) by lia. lia.
Qed.

Lemma three_digits_inj (a b : Z) :
  0 ≤ a < 1000 → 0 ≤ b < 1000 → three_digits a = three_digits b → a = b.
Proof.
  intros Ha Hb [= Hhundreds%digit_inj Htens%digit_inj Hunits%digit_inj].
  assert (0 ≤ a / 100 < 10) by (split; [apply Z.div_pos|apply Z.div_lt_upper_bound]; lia).
  assert (0 ≤ b / 100 < 10) by (split; [apply Z.div_pos|apply Z.div_lt_upper_bound]; lia).
  rewrite !Z.mod_small in Hhundreds by done.
  replace (a / 100) with (a / 10 / 10) in Hhundreds by (rewrite Z.div_div by lia; reflexivity).
  replace (b / 100) with (b / 10 / 10) in Hhundreds by (rewrite Z.div_div by lia; reflexivity).
  assert (a / 10 = b / 10)
    by (rewrite (Z.div_mod (a / 10) 10), (Z.div_mod (b / 10) 10) by lia; lia).
  rewrite (Z.div_mod a 10), (Z.div_mod b 10) by lia. lia.
Qed.

Lemma digits_range (d : Decimal.uint) :
  Forall (λ c, (48 ≤ c ≤ 57)%N) (digits d).
Proof. induction d; cbn [digits]; constructor; (lia || done). Qed.

Lemma hours_field_range (h : Z) :
  0 ≤ h → Forall (λ c, (48 ≤ c ≤ 57)%N) (hours_field h).
Proof.
  intros Hh. unfold hours_field. destruct (h <? 100).
  - unfold two_digits. repeat constructor; apply digit_range.
  - unfold str_of_int. destruct h as [|p|p]; [| |lia]; apply digits_range.
Qed.

Lemma hours_field_inj (a b : Z) :
  0 ≤ a → 0 ≤ b → hours_field a = hours_field b → a = b.
Proof.
  intros Ha Hb. unfold hours_field.
  destruct (Z.ltb_spec a 100), (Z.ltb_spec b 100).
  - apply two_digits_inj; lia.
  - intros Heq%(f_equal length). pose proof (str_of_int_wide b ltac:(done)).
    rewrite <- Heq in *. simpl in *. lia.
  - intros Heq%(f_equal length). pose proof (str_of_int_wide a ltac:(done)).
    rewrite Heq in *. simpl in *. lia.
  - apply str_of_int_inj.
Qed.

Lemma app_separator_inj (c : N) (a b x y : str) :
  c ∉ a → c ∉ b → a ++ c :: x = b ++ c :: y → a = b ∧ x = y.
Proof.
  revert b. induction a as [|a0 a IH]; intros [|b0 b] Ha Hb; cbn [app].
  - by intros [= ->].
  - intros [= <- _]. destruct Hb. by left.
  - intros [= -> _]. destruct Ha. by left.
  - intros [= -> Heq]. apply not_elem_of_cons in Ha as [_ Ha].
    apply not_elem_of_cons in Hb as [_ Hb].
    by destruct (IH b Ha Hb Heq) as [-> ->].
Qed.

Lemma clock_inj (n n' ms ms' : Z) :
  0 ≤ n → 0 ≤ n' → 0 ≤ ms < 1000 → 0 ≤ ms' < 1000 →
  clock n ms = clock n' ms' → n = n' ∧ ms = ms'.
Proof.
  intros Hn Hn' Hms Hms'. unfold clock.
  assert (Hcolon : ∀ h, 0 ≤ h → 58%N ∉ hours_field h).
  { intros h Hh Hin. pose proof (hours_field_range h Hh) as Hall.
    rewrite Forall_forall in Hall. specialize (Hall _ Hin). lia. }
  assert (0 ≤ n / 3600) by (apply Z.div_pos; lia).
  assert (0 ≤ n' / 3600) by (apply Z.div_pos; lia).
  change (lit ":" ++ ?x) with (58%N :: x).
  intros [Hhours Hrest]%app_separator_inj; [|by apply Hcolon..].
  apply hours_field_inj in Hhours; [|done..].
  unfold two_digits, three_digits in Hrest.
  change (lit ":") with [58%N] in Hrest. change (lit ".") with [46%N] in Hrest.
  cbn [app] in Hrest.
  injection Hrest as Hm1 Hm2 Hs1 Hs2 Hd1 Hd2 Hd3.
  assert (ms = ms') by (apply three_digits_inj; [done..|unfold three_digits; congruence]).
  split; [|done].
  pose proof (Z.mod_pos_bound n 3600 ltac:(lia)).
  pose proof (Z.mod_pos_bound n' 3600 ltac:(lia)).
  pose proof (Z.mod_pos_bound n 60 ltac:(lia)).
  pose proof (Z.mod_pos_bound n' 60 ltac:(lia)).
  assert (Hminutes : n mod 3600 / 60 = n' mod 3600 / 60).
  { apply two_digits_inj; [| |unfold two_digits; congruence];
      (split; [apply Z.div_pos|apply Z.div_lt_upper_bound]; lia). }
  assert (Hseconds : n mod 60 = n' mod 60).
  { apply two_digits_inj; [lia|lia|unfold two_digits; congruence]. }
  pose proof (Z.div_mod n 3600 ltac:(lia)) as Hd.
  pose proof (Z.div_mod n' 3600 ltac:(lia)) as Hd'.
  pose proof (Z.div_mod (n mod 3600) 60 ltac:(lia)) as He.
  pose proof (Z.div_mod (n' mod 3600) 60 ltac:(lia)) as He'.
  rewrite (Z.mod_mod_divide n 3600 60) in He by (by exists 60).
  rewrite (Z.mod_mod_divide n' 3600 60) in He' by (by exists 60).
  lia.
Qed.

(** X24. Two different whole numbers of seconds that [to_vtt_time] takes
    never get the same timestamp, also from a hundred hours on, where the
    hour field grows. That is so for whole numbers only: two times with
    fractions can share a timestamp, as 1.9999999 and 2.9995 do. *)
Theorem whole_seconds_get_distinct_timestamps :
  (∀ z z', 0 ≤ z < 86400000000000 → 0 ≤ z' < 86400000000000 →
     z ≠ z' → to_vtt_time (PyInt z) ≠ to_vtt_time (PyInt z')) ∧
  to_vtt_time (PyFloat 1.9999999) = to_vtt_time (PyFloat 2.9995).
Proof.
  split; [|by vm_compute].
  intros z z' Hz Hz' Hne.
  rewrite (to_vtt_time_fields (PyInt z) z 0), (to_vtt_time_fields (PyInt z') z' 0);
    try done; try lia; try (by apply whole_seconds_int); try apply milliseconds_int.
  intros [= Hclock]. apply clock_inj in Hclock as [? _]; lia.
Qed.

Lemma whole_seconds_get_distinct_timestamps_witness :
  to_vtt_time (PyInt 359999) ≠ to_vtt_time (PyInt 360000).
Proof.
  apply (proj1 whole_seconds_get_distinct_timestamps 359999 360000); lia.
Defined.
